(** * Hand-sign classifier, temporal stabilizer and round outcome

    A shallow embedding of

    - [classifySign] (src/assets/utils/classifySign.ts): geometric feature
      extraction from 21 hand landmarks followed by an ordered decision list,
      and the second, newer [classifySign] of the repository, with a hard
      and a soft thumb-outward bound, a retuned table [T], a borderline
      spock rule and a loose paper rule;
    - [stableGesture] (both versions of HandDetector.tsx): the sliding-window
      majority filter over raw labels;
    - [decideOutcome] (the game version of HandDetector.tsx): the
      rock-paper-scissors-lizard-spock win table.

    JavaScript numbers are modelled in exact arithmetic as real numbers:
    coordinates are finite reals, [Math.hypot] is the Euclidean norm, and the
    two infinities that initialise the bounding box are the [None] of an
    [option R].  Two things can go wrong in the embedding and are modelled as
    failure ([None]): reading a landmark that the array does not hold, and
    dividing by zero. *)

From Stdlib Require Import Reals Lra Lia List String ZArith Bool Arith.
Import ListNotations.

Set Implicit Arguments.

(** ** The failure monad *)

Definition bind {A B : Type} (m : option A) (k : A -> option B) : option B :=
  match m with
  | Some a => k a
  | None => None
  end.

Notation "v <- e ;; k" := (bind e (fun v => k))
  (at level 61, e at next level, right associativity).

(** ** Numbers *)

Module Num.
Local Open Scope R_scope.

(** Comparison operators [<], [<=], [>], [>=]. *)
Definition ltb (a b : R) : bool := if Rlt_dec a b then true else false.
Definition leb (a b : R) : bool := if Rle_dec a b then true else false.
Definition gtb (a b : R) : bool := ltb b a.
Definition geb (a b : R) : bool := leb b a.

(** [Math.hypot(a, b)]. *)
Definition hypot (a b : R) : R := sqrt (a * a + b * b).

(** [a / b] with a denominator that is not a literal: fails on zero. *)
Definition div (a b : R) : option R :=
  if Req_dec_T b 0 then None else Some (a / b).

(** [h || 1e-6]: zero is falsy. *)
Definition orElse (h d : R) : R := if Req_dec_T h 0 then d else h.

(** [const clamp = (v, a, b) => Math.max(a, Math.min(b, v))]. *)
Definition clamp (v a b : R) : R := Rmax a (Rmin b v).

(** [Number(flag)]. *)
Definition Number (flag : bool) : nat := if flag then 1 else 0.

End Num.

(** ** classifySign.ts, the older copy (src/assets/utils) *)

Module ClassifySign.
Import Num.
Local Open Scope R_scope.
Local Open Scope string_scope.

(** The two coordinates of a [NormalizedLandmark] that the classifier reads. *)
Record NormalizedLandmark : Type := mkLandmark { x : R; y : R }.

Record SignMetrics : Type := mkMetrics {
  gapIM : R;
  gapMR : R;
  gapRP : R;
  spockRatio : R;
  cv : R;
  thumbToIndexMCP : R;
  thumbOut : bool;
  thumbAlong : bool;
  indexExt : bool;
  middleExt : bool;
  ringExt : bool;
  pinkyExt : bool;
  extendedCount : nat;
  cosIM : R
}.

Definition WRIST : nat := 0.
Definition TIP_i : nat := 8.
Definition TIP_m : nat := 12.
Definition TIP_r : nat := 16.
Definition TIP_p : nat := 20.
Definition TIP_t : nat := 4.
Definition PIP_i : nat := 6.
Definition PIP_m : nat := 10.
Definition PIP_r : nat := 14.
Definition PIP_p : nat := 18.
Definition INDEX_MCP : nat := 5.

(** The threshold table [T]. *)
Module T.
Definition scissorsIMMaxGap : R := 0.28.
Definition scissorsCosMin : R := 0.80.
Definition paperCV : R := 0.22.
Definition spockRatio : R := 1.6.
Definition spockGapMR : R := 0.23.
Definition pairTight : R := 0.24.
End T.

(** The bounding box while the loop runs; [None] is the initial infinity. *)
Record BBox : Type := mkBBox {
  minX : option R;
  minY : option R;
  maxX : option R;
  maxY : option R
}.

(** [if (v < m) m = v]. *)
Definition lower (m : option R) (v : R) : option R :=
  match m with
  | None => Some v
  | Some c => if ltb v c then Some v else Some c
  end.

(** [if (v > m) m = v]. *)
Definition raise (m : option R) (v : R) : option R :=
  match m with
  | None => Some v
  | Some c => if gtb v c then Some v else Some c
  end.

Definition bboxStep (b : BBox) (lm : NormalizedLandmark) : BBox :=
  {| minX := lower (minX b) (x lm);
     minY := lower (minY b) (y lm);
     maxX := raise (maxX b) (x lm);
     maxY := raise (maxY b) (y lm) |}.

Definition bboxInit : BBox :=
  {| minX := None; minY := None; maxX := None; maxY := None |}.

(** [Math.max(hi - lo, 1e-6)]; while a bound is still infinite the
    difference is minus infinity and the floor applies. *)
Definition extent (lo hi : option R) : R :=
  match lo, hi with
  | Some a, Some b => Rmax (b - a) 1e-6
  | _, _ => 1e-6
  end.

(** The rules of the decision list, as predicates on the metrics. *)
Definition ruleSpock (m : SignMetrics) : bool :=
  (extendedCount m =? 4)%nat &&
  gtb (spockRatio m) T.spockRatio &&
  ltb (gapIM m) T.pairTight && ltb (gapRP m) T.pairTight &&
  gtb (gapMR m) T.spockGapMR &&
  thumbOut m.

Definition rulePaper (m : SignMetrics) : bool :=
  (extendedCount m =? 4)%nat &&
  ltb (cv m) T.paperCV &&
  leb (spockRatio m) T.spockRatio &&
  thumbAlong m.

Definition ruleRock (m : SignMetrics) : bool :=
  (extendedCount m <=? 1)%nat && negb (thumbOut m).

Definition ruleLizard (m : SignMetrics) : bool :=
  thumbOut m && negb (middleExt m) && negb (ringExt m) &&
  (indexExt m || pinkyExt m).

Definition tieSpock (m : SignMetrics) : bool :=
  (extendedCount m =? 4)%nat && thumbOut m &&
  gtb (spockRatio m) 1.35 && gtb (gapMR m) 0.20.

Definition tieLizard (m : SignMetrics) : bool :=
  (extendedCount m <=? 2)%nat && thumbOut m.

Section Classify.

Variable landmarks : list NormalizedLandmark.

(** [landmarks[i]], whose coordinates are then read. *)
Definition at_ (i : nat) : option NormalizedLandmark := nth_error landmarks i.

Definition dist (a b : nat) : option R :=
  la <- at_ a ;;
  lb <- at_ b ;;
  let dx := x la - x lb in
  let dy := y la - y lb in
  Some (hypot dx dy).

Definition bbox : BBox := fold_left bboxStep landmarks bboxInit.

Definition scale : R :=
  hypot (extent (minX bbox) (maxX bbox)) (extent (minY bbox) (maxY bbox)).

Definition norm (v : R) : option R := div v scale.

Definition fartherThan (tip pip : nat) : option bool :=
  dt <- dist tip WRIST ;;
  dp <- dist pip WRIST ;;
  n <- norm (dt - dp) ;;
  Some (gtb n 0.07).

Definition bent (tip pip : nat) : option bool :=
  dt <- dist tip WRIST ;;
  dp <- dist pip WRIST ;;
  n <- norm (dt - dp) ;;
  Some (ltb n 0.03).

(** The unit direction vector [v(tip, pip)]. *)
Definition v (tip pip : nat) : option (R * R) :=
  lt <- at_ tip ;;
  lp <- at_ pip ;;
  let dx := x lt - x lp in
  let dy := y lt - y lp in
  let len := orElse (hypot dx dy) 1e-6 in
  ux <- div dx len ;;
  uy <- div dy len ;;
  Some (ux, uy).

(** The condition of the scissors rule; [&&] evaluates [bent] only when the
    conjuncts before it hold. *)
Definition ruleScissors (m : SignMetrics) : option bool :=
  if indexExt m && middleExt m && negb (ringExt m) && negb (pinkyExt m) then
    bentR <- bent TIP_r PIP_r ;;
    if bentR then
      bentP <- bent TIP_p PIP_p ;;
      Some (bentP &&
            leb (gapIM m) T.scissorsIMMaxGap &&
            geb (cosIM m) T.scissorsCosMin)
    else Some false
  else Some false.

(** The ordered decision list. *)
Definition decide (m : SignMetrics) : option string :=
  scissors <- ruleScissors m ;;
  if scissors then Some "scissors"
  else if ruleSpock m then Some "spock"
  else if rulePaper m then Some "paper"
  else if ruleRock m then Some "rock"
  else if ruleLizard m then Some "lizard"
  else if tieSpock m then Some "spock"
  else if tieLizard m then Some "lizard"
  else Some "unknown".

(** The metrics bundle. *)
Definition extract : option SignMetrics :=
  indexExt <- fartherThan TIP_i PIP_i ;;
  middleExt <- fartherThan TIP_m PIP_m ;;
  ringExt <- fartherThan TIP_r PIP_r ;;
  pinkyExt <- fartherThan TIP_p PIP_p ;;
  let extendedCount :=
    (Number indexExt + Number middleExt + Number ringExt + Number pinkyExt)%nat in
  dThumb <- dist TIP_t INDEX_MCP ;;
  thumbToIndexMCP <- norm dThumb ;;
  let thumbOut := gtb thumbToIndexMCP 0.34 in
  let thumbAlong := ltb thumbToIndexMCP 0.28 in
  dIM <- dist TIP_i TIP_m ;;
  gapIM <- norm dIM ;;
  dMR <- dist TIP_m TIP_r ;;
  gapMR <- norm dMR ;;
  dRP <- dist TIP_r TIP_p ;;
  gapRP <- norm dRP ;;
  let mean := (gapIM + gapMR + gapRP) / 3 in
  let stdev :=
    sqrt (((gapIM - mean) ^ 2 + (gapMR - mean) ^ 2 + (gapRP - mean) ^ 2) / 3) in
  cv <- (if gtb mean 0 then div stdev mean else Some 1) ;;
  let pairAvg := (gapIM + gapRP) / 2 in
  spockRatio <- div gapMR (Rmax 1e-6 pairAvg) ;;
  vi <- v TIP_i PIP_i ;;
  vm <- v TIP_m PIP_m ;;
  let cosIM := clamp (fst vi * fst vm + snd vi * snd vm) (-1) 1 in
  Some {| gapIM := gapIM; gapMR := gapMR; gapRP := gapRP;
          spockRatio := spockRatio; cv := cv;
          thumbToIndexMCP := thumbToIndexMCP;
          thumbOut := thumbOut; thumbAlong := thumbAlong;
          indexExt := indexExt; middleExt := middleExt;
          ringExt := ringExt; pinkyExt := pinkyExt;
          extendedCount := extendedCount; cosIM := cosIM |}.

Definition classifySign : option (string * SignMetrics) :=
  metrics <- extract ;;
  label <- decide metrics ;;
  Some (label, metrics).

End Classify.

End ClassifySign.

(** ** classifySign.ts, the newer copy

    The second [classifySign] of the repository. Its types and its helpers
    [dist], [norm], [fartherThan], [bent] and [v] read as in the first copy;
    the thumb has two outward bounds, the table [T] has other values and the
    decision list has two more rules. *)

Module ClassifySignNewer.
Import Num.
Import ClassifySign.
Local Open Scope R_scope.
Local Open Scope string_scope.

Definition THUMB_OUT_HARD : R := 0.33.
Definition THUMB_OUT_SOFT : R := 0.31.
Definition THUMB_ALONG : R := 0.28.

(** The tunables [T]. *)
Module T.
Definition scissorsIMMaxGap : R := 0.28.
Definition scissorsCosMin : R := 0.80.
Definition paperCV : R := 0.35.
Definition spockRatio : R := 1.45.
Definition spockGapMR : R := 0.18.
Definition pairTight : R := 0.22.
End T.

(** [thumbOutSoft], the comparison of the thumb distance of the bundle with
    the soft bound; the bundle's [thumbOut] is [thumbOutHard]. *)
Definition thumbOutSoft (m : SignMetrics) : bool :=
  gtb (thumbToIndexMCP m) THUMB_OUT_SOFT.

(** [Math.max(gapIM, gapMR, gapRP)] and [Math.min(gapIM, gapMR, gapRP)]. *)
Definition maxGap (m : SignMetrics) : R :=
  Rmax (Rmax (gapIM m) (gapMR m)) (gapRP m).

Definition minGap (m : SignMetrics) : R :=
  Rmin (Rmin (gapIM m) (gapMR m)) (gapRP m).

Definition ruleSpock (m : SignMetrics) : bool :=
  (extendedCount m =? 4)%nat &&
  gtb (spockRatio m) T.spockRatio &&
  ltb (gapIM m) T.pairTight && ltb (gapRP m) T.pairTight &&
  gtb (gapMR m) T.spockGapMR &&
  thumbOut m.

Definition ruleSpockSoft (m : SignMetrics) : bool :=
  (extendedCount m =? 4)%nat &&
  ((gtb (spockRatio m) T.spockRatio &&
    gtb (gapMR m) (T.spockGapMR - 0.02)) ||
   gtb (spockRatio m) 1.70) &&
  ltb (gapIM m) (T.pairTight + 0.02) && ltb (gapRP m) (T.pairTight + 0.02) &&
  thumbOutSoft m.

Definition rulePaper (m : SignMetrics) : bool :=
  (extendedCount m =? 4)%nat &&
  thumbAlong m &&
  leb (spockRatio m) 1.35 &&
  ltb (cv m) T.paperCV &&
  ltb (gapIM m) 0.30 && ltb (gapMR m) 0.30 && ltb (gapRP m) 0.30.

Definition rulePaperLoose (m : SignMetrics) : bool :=
  (extendedCount m =? 4)%nat &&
  thumbAlong m &&
  leb (spockRatio m) 1.25 &&
  leb (maxGap m) 0.32 &&
  leb (maxGap m - minGap m) 0.18.

Definition ruleRock (m : SignMetrics) : bool :=
  (extendedCount m <=? 1)%nat && negb (thumbOutSoft m).

Definition ruleLizard (m : SignMetrics) : bool :=
  thumbOutSoft m && negb (middleExt m) && negb (ringExt m) &&
  (indexExt m || pinkyExt m).

Definition tieSpock (m : SignMetrics) : bool :=
  (extendedCount m =? 4)%nat && thumbOutSoft m &&
  gtb (spockRatio m) 1.35 && gtb (gapMR m) 0.16.

Definition tieLizard (m : SignMetrics) : bool :=
  (extendedCount m <=? 2)%nat && thumbOutSoft m.

Section Classify.

Variable landmarks : list NormalizedLandmark.

Definition at_ (i : nat) : option NormalizedLandmark := nth_error landmarks i.

Definition dist (a b : nat) : option R :=
  la <- at_ a ;;
  lb <- at_ b ;;
  let dx := x la - x lb in
  let dy := y la - y lb in
  Some (hypot dx dy).

Definition bbox : BBox := fold_left bboxStep landmarks bboxInit.

Definition scale : R :=
  hypot (extent (minX bbox) (maxX bbox)) (extent (minY bbox) (maxY bbox)).

Definition norm (v : R) : option R := div v scale.

Definition fartherThan (tip pip : nat) : option bool :=
  dt <- dist tip WRIST ;;
  dp <- dist pip WRIST ;;
  n <- norm (dt - dp) ;;
  Some (gtb n 0.07).

Definition bent (tip pip : nat) : option bool :=
  dt <- dist tip WRIST ;;
  dp <- dist pip WRIST ;;
  n <- norm (dt - dp) ;;
  Some (ltb n 0.03).

Definition v (tip pip : nat) : option (R * R) :=
  lt <- at_ tip ;;
  lp <- at_ pip ;;
  let dx := x lt - x lp in
  let dy := y lt - y lp in
  let len := orElse (hypot dx dy) 1e-6 in
  ux <- div dx len ;;
  uy <- div dy len ;;
  Some (ux, uy).

Definition ruleScissors (m : SignMetrics) : option bool :=
  if indexExt m && middleExt m && negb (ringExt m) && negb (pinkyExt m) then
    bentR <- bent TIP_r PIP_r ;;
    if bentR then
      bentP <- bent TIP_p PIP_p ;;
      Some (bentP &&
            leb (gapIM m) T.scissorsIMMaxGap &&
            geb (cosIM m) T.scissorsCosMin)
    else Some false
  else Some false.

(** The ordered decision list. *)
Definition decide (m : SignMetrics) : option string :=
  scissors <- ruleScissors m ;;
  if scissors then Some "scissors"
  else if ruleSpock m then Some "spock"
  else if ruleSpockSoft m then Some "spock"
  else if rulePaper m then Some "paper"
  else if rulePaperLoose m then Some "paper"
  else if ruleRock m then Some "rock"
  else if ruleLizard m then Some "lizard"
  else if tieSpock m then Some "spock"
  else if tieLizard m then Some "lizard"
  else Some "unknown".

(** The metrics bundle. *)
Definition extract : option SignMetrics :=
  indexExt <- fartherThan TIP_i PIP_i ;;
  middleExt <- fartherThan TIP_m PIP_m ;;
  ringExt <- fartherThan TIP_r PIP_r ;;
  pinkyExt <- fartherThan TIP_p PIP_p ;;
  let extendedCount :=
    (Number indexExt + Number middleExt + Number ringExt + Number pinkyExt)%nat in
  dThumb <- dist TIP_t INDEX_MCP ;;
  thumbToIndexMCP <- norm dThumb ;;
  let thumbOutHard := gtb thumbToIndexMCP THUMB_OUT_HARD in
  let thumbAlong := ltb thumbToIndexMCP THUMB_ALONG in
  dIM <- dist TIP_i TIP_m ;;
  gapIM <- norm dIM ;;
  dMR <- dist TIP_m TIP_r ;;
  gapMR <- norm dMR ;;
  dRP <- dist TIP_r TIP_p ;;
  gapRP <- norm dRP ;;
  let pairAvg := (gapIM + gapRP) / 2 in
  spockRatio <- div gapMR (Rmax pairAvg 1e-6) ;;
  let mean := (gapIM + gapMR + gapRP) / 3 in
  let stdev :=
    sqrt (((gapIM - mean) ^ 2 + (gapMR - mean) ^ 2 + (gapRP - mean) ^ 2) / 3) in
  cv <- (if gtb mean 0 then div stdev mean else Some 1) ;;
  vi <- v TIP_i PIP_i ;;
  vm <- v TIP_m PIP_m ;;
  let cosIM := clamp (fst vi * fst vm + snd vi * snd vm) (-1) 1 in
  Some {| gapIM := gapIM; gapMR := gapMR; gapRP := gapRP;
          spockRatio := spockRatio; cv := cv;
          thumbToIndexMCP := thumbToIndexMCP;
          thumbOut := thumbOutHard; thumbAlong := thumbAlong;
          indexExt := indexExt; middleExt := middleExt;
          ringExt := ringExt; pinkyExt := pinkyExt;
          extendedCount := extendedCount; cosIM := cosIM |}.

Definition classifySign : option (string * SignMetrics) :=
  metrics <- extract ;;
  label <- decide metrics ;;
  Some (label, metrics).

End Classify.

End ClassifySignNewer.

(** What a HandDetector imports from [../utils/classifySign]. *)
Definition Classifier : Type :=
  list ClassifySign.NormalizedLandmark ->
  option (string * ClassifySign.SignMetrics).

(** ** HandDetector.tsx: the part of the component state that the gesture
    path reads and writes *)

Record GestureView : Type := mkView {
  bufferRef : list string;
  gesture : string;
  metrics : option ClassifySign.SignMetrics
}.

(** The object [freq: Record<string, number>] and the array built from it.
    The keys stored are the classifier's labels; for such keys (no array
    index, no name inherited from [Object.prototype]) [Object.entries] lists
    the properties in the order in which they were created, which an
    association list in creation order records. *)
Module JsObject.

Definition Freq : Type := list (string * nat).

(** [freq[l]], [None] for [undefined]. *)
Fixpoint get (l : string) (freq : Freq) : option nat :=
  match freq with
  | [] => None
  | (k, c) :: rest => if String.eqb k l then Some c else get l rest
  end.

(** [freq[l] || 0]: [undefined] is falsy. *)
Definition getOrZero (l : string) (freq : Freq) : nat :=
  match get l freq with
  | Some c => c
  | None => 0
  end.

(** [freq[l] = c]: an existing property keeps its place, a new one is
    created after all the others. *)
Fixpoint set (l : string) (c : nat) (freq : Freq) : Freq :=
  match freq with
  | [] => [(l, c)]
  | (k, c0) :: rest =>
      if String.eqb k l then (k, c) :: rest else (k, c0) :: set l c rest
  end.

(** [Object.entries(freq)]. *)
Definition entries (freq : Freq) : list (string * nat) := freq.

(** [Array.prototype.sort(compare)], a stable sort: an element moves behind
    another one only when [compare] is positive. *)
Fixpoint insert {A : Type} (compare : A -> A -> Z) (e : A) (sorted : list A)
  : list A :=
  match sorted with
  | [] => [e]
  | s :: rest =>
      if (0 <? compare e s)%Z then s :: insert compare e rest
      else e :: s :: rest
  end.

Definition sort {A : Type} (compare : A -> A -> Z) (l : list A) : list A :=
  fold_right (insert compare) [] l.

End JsObject.

(** ** HandDetector.tsx, the detector *)

Module Detector.
Import JsObject.

(** [freq[l] = (freq[l] || 0) + 1]. *)
Definition tally (freq : Freq) (l : string) : Freq :=
  set l (getOrZero l freq + 1) freq.

(** [(a, b) => b[1] - a[1]]. *)
Definition byCountDesc (a b : string * nat) : Z :=
  (Z.of_nat (snd b) - Z.of_nat (snd a))%Z.

(** [stableGesture(label, n)] on the buffer held by [bufferRef]: the buffer
    afterwards and the label returned; [None] when [[0][0]] reads an entry
    that does not exist. *)
Definition stableGesture (buffer : list string) (label : string) (n : nat)
  : list string * option string :=
  let pushed := buffer ++ [label] in
  let current := if (n <? List.length pushed)%nat then tl pushed else pushed in
  let freq := fold_left tally current [] in
  (current,
   match sort byCountDesc (entries freq) with
   | [] => None
   | first :: _ => Some (fst first)
   end).

(** The default [n = 5]. *)
Definition defaultN : nat := 5.

(** One frame of the detection loop, from the detector's result on, with
    the [classifySign] that the import resolves to. *)
Definition onFrame (classifySign : Classifier) (s : GestureView)
  (result : list (list ClassifySign.NormalizedLandmark)) : option GestureView :=
  match result with
  | [] => Some s
  | landmarks :: _ =>
      r <- classifySign landmarks ;;
      let (buffer, stable) := stableGesture (bufferRef s) (fst r) defaultN in
      g <- stable ;;
      Some {| bufferRef := buffer; gesture := g; metrics := Some (snd r) |}
  end.

(** The buffer after the labels [ls] have been pushed one by one. *)
Definition feed (buffer : list string) (ls : list string) : list string :=
  fold_left (fun b l => fst (stableGesture b l defaultN)) ls buffer.

End Detector.

(** ** HandDetector.tsx, the detector with the game round *)

Module GameDetector.
Import JsObject.

Inductive Gesture : Type := rock | paper | scissors | lizard | spock.

Definition GESTURES : list Gesture := [rock; paper; scissors; lizard; spock].

Definition WIN_MAP (g : Gesture) : list Gesture :=
  match g with
  | rock => [scissors; lizard]
  | paper => [rock; spock]
  | scissors => [paper; lizard]
  | lizard => [spock; paper]
  | spock => [scissors; rock]
  end.

Inductive Outcome : Type := player | computer | tie.

(** [===] on gestures. *)
Definition same (a b : Gesture) : bool :=
  match a, b with
  | rock, rock | paper, paper | scissors, scissors
  | lizard, lizard | spock, spock => true
  | _, _ => false
  end.

(** [list.includes(g)]. *)
Definition includes (l : list Gesture) (g : Gesture) : bool :=
  existsb (fun e => same e g) l.

Definition decideOutcome (p c : Gesture) : Outcome :=
  if same p c then tie
  else if includes (WIN_MAP p) c then player else computer.

Definition tally (freq : Freq) (l : string) : Freq :=
  set l (getOrZero l freq + 1) freq.

Definition byCountDesc (a b : string * nat) : Z :=
  (Z.of_nat (snd b) - Z.of_nat (snd a))%Z.

Definition stableGesture (buffer : list string) (label : string) (n : nat)
  : list string * option string :=
  let pushed := buffer ++ [label] in
  let current := if (n <? List.length pushed)%nat then tl pushed else pushed in
  let freq := fold_left tally current [] in
  (current,
   match sort byCountDesc (entries freq) with
   | [] => None
   | first :: _ => Some (fst first)
   end).

Definition defaultN : nat := 5.

Definition onFrame (classifySign : Classifier) (s : GestureView)
  (result : list (list ClassifySign.NormalizedLandmark)) : option GestureView :=
  match result with
  | [] => Some s
  | landmarks :: _ =>
      r <- classifySign landmarks ;;
      let (buffer, stable) := stableGesture (bufferRef s) (fst r) defaultN in
      g <- stable ;;
      Some {| bufferRef := buffer; gesture := g; metrics := Some (snd r) |}
  end.

End GameDetector.

(** ** Total counterparts of the classifier's helpers

    On a pose that holds all 21 landmarks nothing fails; these are the values
    then computed, used to state and prove the properties below. *)

Module Geometry.
Import Num ClassifySign.
Local Open Scope R_scope.
Local Open Scope string_scope.

Section Total.

Variable landmarks : list NormalizedLandmark.

Definition pt (i : nat) : NormalizedLandmark := nth i landmarks (mkLandmark 0 0).

Definition distance (a b : nat) : R :=
  hypot (x (pt a) - x (pt b)) (y (pt a) - y (pt b)).

Definition normalized (d : R) : R := d / scale landmarks.

(** The quantity that [fartherThan] and [bent] compare with their bounds. *)
Definition margin (tip pip : nat) : R :=
  normalized (distance tip WRIST - distance pip WRIST).

Definition direction (tip pip : nat) : R * R :=
  let dx := x (pt tip) - x (pt pip) in
  let dy := y (pt tip) - y (pt pip) in
  let len := orElse (hypot dx dy) 1e-6 in
  (dx / len, dy / len).

Definition metricsOf : SignMetrics :=
  let indexExt := gtb (margin TIP_i PIP_i) 0.07 in
  let middleExt := gtb (margin TIP_m PIP_m) 0.07 in
  let ringExt := gtb (margin TIP_r PIP_r) 0.07 in
  let pinkyExt := gtb (margin TIP_p PIP_p) 0.07 in
  let thumbToIndexMCP := normalized (distance TIP_t INDEX_MCP) in
  let gapIM := normalized (distance TIP_i TIP_m) in
  let gapMR := normalized (distance TIP_m TIP_r) in
  let gapRP := normalized (distance TIP_r TIP_p) in
  let mean := (gapIM + gapMR + gapRP) / 3 in
  let stdev :=
    sqrt (((gapIM - mean) ^ 2 + (gapMR - mean) ^ 2 + (gapRP - mean) ^ 2) / 3) in
  let vi := direction TIP_i PIP_i in
  let vm := direction TIP_m PIP_m in
  {| gapIM := gapIM; gapMR := gapMR; gapRP := gapRP;
     spockRatio := gapMR / Rmax 1e-6 ((gapIM + gapRP) / 2);
     cv := if gtb mean 0 then stdev / mean else 1;
     thumbToIndexMCP := thumbToIndexMCP;
     thumbOut := gtb thumbToIndexMCP 0.34;
     thumbAlong := ltb thumbToIndexMCP 0.28;
     indexExt := indexExt; middleExt := middleExt;
     ringExt := ringExt; pinkyExt := pinkyExt;
     extendedCount :=
       (Number indexExt + Number middleExt + Number ringExt + Number pinkyExt)%nat;
     cosIM := clamp (fst vi * fst vm + snd vi * snd vm) (-1) 1 |}.

Definition scissorsOf (m : SignMetrics) : bool :=
  if indexExt m && middleExt m && negb (ringExt m) && negb (pinkyExt m) then
    if ltb (margin TIP_r PIP_r) 0.03 then
      ltb (margin TIP_p PIP_p) 0.03 &&
      leb (gapIM m) T.scissorsIMMaxGap &&
      geb (cosIM m) T.scissorsCosMin
    else false
  else false.

Definition labelOf (m : SignMetrics) : string :=
  if scissorsOf m then "scissors"
  else if ruleSpock m then "spock"
  else if rulePaper m then "paper"
  else if ruleRock m then "rock"
  else if ruleLizard m then "lizard"
  else if tieSpock m then "spock"
  else if tieLizard m then "lizard"
  else "unknown".

End Total.

(** The closed set of labels. *)
Definition labels : list string :=
  ["rock"; "paper"; "scissors"; "lizard"; "spock"; "unknown"].

Definition isLabel (s : string) : Prop := In s labels.

(** The metrics alone. *)
Definition metricsBundle (landmarks : list NormalizedLandmark)
  : option SignMetrics :=
  r <- classifySign landmarks ;; Some (snd r).

(** Uniform scaling by [k] followed by the translation [(tx, ty)]. *)
Definition move (k tx ty : R) (q : NormalizedLandmark) : NormalizedLandmark :=
  mkLandmark (k * x q + tx) (k * y q + ty).

Definition transform (k tx ty : R) (landmarks : list NormalizedLandmark)
  : list NormalizedLandmark :=
  map (move k tx ty) landmarks.

(** The image of a bounding box under that map, for [k > 0]. *)
Definition moveBound (k t : R) (b : option R) : option R :=
  match b with
  | Some c => Some (k * c + t)
  | None => None
  end.

Definition moveBBox (k tx ty : R) (b : BBox) : BBox :=
  {| minX := moveBound k tx (minX b);
     minY := moveBound k ty (minY b);
     maxX := moveBound k tx (maxX b);
     maxY := moveBound k ty (maxY b) |}.

(** Synthetic poses: the wrist at (0.5, 0.9), every joint on the vertical
    line above it, and two unused landmarks at the corners of a 0.6 by 0.8
    box, so that the hand scale is 1. *)
Definition hand (thumbTip indexTip middleTip ringTip pinkyTip : R)
  : list NormalizedLandmark :=
  let at_y := mkLandmark 0.5 in
  let wrist := at_y 0.9 in
  let pip := at_y 0.6 in
  [ wrist; mkLandmark 0.2 0.1; mkLandmark 0.8 0.9; wrist;
    at_y thumbTip;
    at_y 0.7; pip; pip; at_y indexTip;
    wrist; pip; pip; at_y middleTip;
    wrist; pip; pip; at_y ringTip;
    wrist; pip; pip; at_y pinkyTip ].

(** Index and middle up and together, ring and pinky curled, thumb out. *)
Definition poseScissors : list NormalizedLandmark := hand 0.3 0.4 0.4 0.6 0.6.

(** Index and pinky up, middle and ring curled, thumb out at 0.4. *)
Definition poseDuck : list NormalizedLandmark := hand 0.3 0.4 0.6 0.6 0.4.

(** The same with the thumb at distance 0.32 from the index knuckle. *)
Definition poseSoftThumb : list NormalizedLandmark := hand 0.38 0.4 0.6 0.6 0.4.

End Geometry.

(** ** Total counterparts for the newer copy *)

Module GeometryNewer.
Import Num ClassifySign Geometry.
Local Open Scope R_scope.
Local Open Scope string_scope.

Section Total.

Variable landmarks : list NormalizedLandmark.

Definition metricsOf : SignMetrics :=
  let indexExt := gtb (margin landmarks TIP_i PIP_i) 0.07 in
  let middleExt := gtb (margin landmarks TIP_m PIP_m) 0.07 in
  let ringExt := gtb (margin landmarks TIP_r PIP_r) 0.07 in
  let pinkyExt := gtb (margin landmarks TIP_p PIP_p) 0.07 in
  let thumbToIndexMCP :=
    normalized landmarks (distance landmarks TIP_t INDEX_MCP) in
  let gapIM := normalized landmarks (distance landmarks TIP_i TIP_m) in
  let gapMR := normalized landmarks (distance landmarks TIP_m TIP_r) in
  let gapRP := normalized landmarks (distance landmarks TIP_r TIP_p) in
  let mean := (gapIM + gapMR + gapRP) / 3 in
  let stdev :=
    sqrt (((gapIM - mean) ^ 2 + (gapMR - mean) ^ 2 + (gapRP - mean) ^ 2) / 3) in
  let vi := direction landmarks TIP_i PIP_i in
  let vm := direction landmarks TIP_m PIP_m in
  {| gapIM := gapIM; gapMR := gapMR; gapRP := gapRP;
     spockRatio := gapMR / Rmax ((gapIM + gapRP) / 2) 1e-6;
     cv := if gtb mean 0 then stdev / mean else 1;
     thumbToIndexMCP := thumbToIndexMCP;
     thumbOut := gtb thumbToIndexMCP ClassifySignNewer.THUMB_OUT_HARD;
     thumbAlong := ltb thumbToIndexMCP ClassifySignNewer.THUMB_ALONG;
     indexExt := indexExt; middleExt := middleExt;
     ringExt := ringExt; pinkyExt := pinkyExt;
     extendedCount :=
       (Number indexExt + Number middleExt + Number ringExt + Number pinkyExt)%nat;
     cosIM := clamp (fst vi * fst vm + snd vi * snd vm) (-1) 1 |}.

Definition scissorsOf (m : SignMetrics) : bool :=
  if indexExt m && middleExt m && negb (ringExt m) && negb (pinkyExt m) then
    if ltb (margin landmarks TIP_r PIP_r) 0.03 then
      ltb (margin landmarks TIP_p PIP_p) 0.03 &&
      leb (gapIM m) ClassifySignNewer.T.scissorsIMMaxGap &&
      geb (cosIM m) ClassifySignNewer.T.scissorsCosMin
    else false
  else false.

Definition labelOf (m : SignMetrics) : string :=
  if scissorsOf m then "scissors"
  else if ClassifySignNewer.ruleSpock m then "spock"
  else if ClassifySignNewer.ruleSpockSoft m then "spock"
  else if ClassifySignNewer.rulePaper m then "paper"
  else if ClassifySignNewer.rulePaperLoose m then "paper"
  else if ClassifySignNewer.ruleRock m then "rock"
  else if ClassifySignNewer.ruleLizard m then "lizard"
  else if ClassifySignNewer.tieSpock m then "spock"
  else if ClassifySignNewer.tieLizard m then "lizard"
  else "unknown".

End Total.

End GeometryNewer.

(** ** Poses used to state further properties of the classifier *)

Module Poses.
Import Num ClassifySign Geometry.
Local Open Scope R_scope.

(** The horizontal mirror of the normalized image, the one the display
    applies before drawing. *)
Definition mirror (q : NormalizedLandmark) : NormalizedLandmark :=
  mkLandmark (1 - x q) (y q).

Definition mirrored (landmarks : list NormalizedLandmark)
  : list NormalizedLandmark :=
  map mirror landmarks.

(** The degenerate pose: all 21 landmarks on one point. *)
Definition collapsed (q : NormalizedLandmark) : list NormalizedLandmark :=
  repeat q 21.

(** Further synthetic poses: a fist, an open hand with evenly spaced tips
    and the thumb tucked, a hand split between middle and ring with the
    thumb out, and a hand with index, middle and ring up. *)
Definition poseFist : list NormalizedLandmark := hand 0.6 0.6 0.6 0.6 0.6.

Definition poseOpen : list NormalizedLandmark := hand 0.6 0.2 0.3 0.4 0.5.

Definition poseSplit : list NormalizedLandmark := hand 0.3 0.2 0.25 0.5 0.52.

Definition poseThree : list NormalizedLandmark := hand 0.3 0.4 0.4 0.4 0.6.

End Poses.

(** ** HandDetector.tsx, the detector: drawing the skeleton and running the
    loop *)

Module Drawing.
Import ClassifySign.
Local Open Scope R_scope.

Definition HAND_CONNECTIONS : list (nat * nat) :=
  [ (0, 1); (1, 2); (2, 3); (3, 4);
    (0, 5); (5, 6); (6, 7); (7, 8);
    (0, 9); (9, 10); (10, 11); (11, 12);
    (0, 13); (13, 14); (14, 15); (15, 16);
    (0, 17); (17, 18); (18, 19); (19, 20) ]%nat.

(** The end points, in pixels, of the line drawn for one connection. *)
Definition connectionLine (landmarks : list NormalizedLandmark)
  (videoWidth videoHeight : R) (c : nat * nat) : option ((R * R) * (R * R)) :=
  li <- at_ landmarks (fst c) ;;
  lj <- at_ landmarks (snd c) ;;
  let x1 := x li * videoWidth in
  let y1 := y li * videoHeight in
  let x2 := x lj * videoWidth in
  let y2 := y lj * videoHeight in
  Some ((x1, y1), (x2, y2)).

(** The loop over [HAND_CONNECTIONS]: the lines drawn, or failure at the
    first connection that reads a landmark the pose does not hold. *)
Fixpoint drawConnections (landmarks : list NormalizedLandmark)
  (videoWidth videoHeight : R) (connections : list (nat * nat))
  : option (list ((R * R) * (R * R))) :=
  match connections with
  | [] => Some []
  | c :: rest =>
      line <- connectionLine landmarks videoWidth videoHeight c ;;
      lines <- drawConnections landmarks videoWidth videoHeight rest ;;
      Some (line :: lines)
  end.


(** The view when the component mounts. *)
Definition initialView : GestureView :=
  {| bufferRef := []; gesture := ""%string; metrics := None |}.



(** The buffer after the labels [ls] have been pushed with capacity [n]. *)
Definition feedWith (n : nat) (buffer : list string) (ls : list string)
  : list string :=
  fold_left (fun b l => fst (Detector.stableGesture b l n)) ls buffer.

End Drawing.

(** ** HandDetector.tsx, the game round *)

Module Score.

Record ScoreBoard : Type := mkScore {
  player : nat;
  computer : nat;
  ties : nat
}.

End Score.

Module Round.
Import GameDetector.
Local Open Scope string_scope.

(** The string that each member of [GESTURES] is. *)
Definition gestureName (g : Gesture) : string :=
  match g with
  | rock => "rock"
  | paper => "paper"
  | scissors => "scissors"
  | lizard => "lizard"
  | spock => "spock"
  end.

(** [isGesture(value)]: [GESTURES.includes(value)]. *)
Definition isGesture (value : string) : bool :=
  existsb (fun g => String.eqb (gestureName g) value) GESTURES.

(** A string that [isGesture] accepts, at type [Gesture]. *)
Definition asGesture (value : string) : option Gesture :=
  find (fun g => String.eqb (gestureName g) value) GESTURES.

(** [getRandomGesture()], given the number that [Math.random()] returns:
    [GESTURES[Math.floor(random * GESTURES.length)]]. *)
Definition getRandomGesture (random : R) : option Gesture :=
  let index := Int_part (random * INR (List.length GESTURES)) in
  if (index <? 0)%Z then None else nth_error GESTURES (Z.to_nat index).

(** The state of the round. [None] stands for the empty string of
    [computerGesture], for the outcome ["none"] and for the [null]
    countdown. *)
Record RoundView : Type := mkRound {
  running : bool;
  score : Score.ScoreBoard;
  computerGesture : option Gesture;
  playerGesture : string;
  roundOutcome : option Outcome;
  roundMessage : string;
  isCountingDown : bool;
  countdown : option string
}.

(** The countdown steps: label, delay, frequency. *)
Definition steps : list (string * nat * nat) :=
  [ ("3", 0, 540); ("2", 1000, 600); ("1", 2000, 660);
    ("Shoot!", 3000, 760) ]%nat.

Definition startRound (s : RoundView) : RoundView :=
  if negb (running s) || isCountingDown s then s
  else
    {| running := running s;
       score := score s;
       computerGesture := None;
       playerGesture := "";
       roundOutcome := None;
       roundMessage := "";
       isCountingDown := true;
       countdown := None |}.

(** [setScore(prev => ...)]. *)
Definition addOutcome (outcome : Outcome) (prev : Score.ScoreBoard)
  : Score.ScoreBoard :=
  {| Score.player :=
       Score.player prev + (match outcome with player => 1 | _ => 0 end);
     Score.computer :=
       Score.computer prev + (match outcome with computer => 1 | _ => 0 end);
     Score.ties :=
       Score.ties prev + (match outcome with tie => 1 | _ => 0 end) |}.

Definition outcomeMessage (outcome : Outcome) : string :=
  match outcome with
  | player => "You win this round!"
  | computer => "Computer wins this round."
  | tie => "It's a tie."
  end.

(** The callback of the timer of step [index], run with the gesture that
    [gestureRef] holds and the number that [Math.random()] returns. *)
Definition onTimer (index : nat) (currentGesture : string) (random : R)
  (s : RoundView) : option RoundView :=
  step <- nth_error steps index ;;
  let label := fst (fst step) in
  let isFinalStep := (index =? List.length steps - 1)%nat in
  if negb isFinalStep then
    Some {| running := running s;
            score := score s;
            computerGesture := computerGesture s;
            playerGesture := playerGesture s;
            roundOutcome := roundOutcome s;
            roundMessage := roundMessage s;
            isCountingDown := isCountingDown s;
            countdown := Some label |}
  else if String.eqb currentGesture "" || negb (isGesture currentGesture) then
    Some {| running := running s;
            score := score s;
            computerGesture := computerGesture s;
            playerGesture := "unknown";
            roundOutcome := None;
            roundMessage := "Couldn't read your gesture in time. Try again!";
            isCountingDown := false;
            countdown := Some label |}
  else
    playerMove <- asGesture currentGesture ;;
    computerMove <- getRandomGesture random ;;
    let outcome := decideOutcome playerMove computerMove in
    Some {| running := running s;
            score := addOutcome outcome (score s);
            computerGesture := Some computerMove;
            playerGesture := gestureName playerMove;
            roundOutcome := Some outcome;
            roundMessage := outcomeMessage outcome;
            isCountingDown := false;
            countdown := Some label |}.

(** A click on Play Round followed by the four timers in the order of their
    delays; a click that the guard of [startRound] refuses starts no
    timer. *)
Definition playRound (currentGesture : string) (random : R) (s : RoundView)
  : option RoundView :=
  if negb (running s) || isCountingDown s then Some s
  else
    s0 <- onTimer 0 currentGesture random (startRound s) ;;
    s1 <- onTimer 1 currentGesture random s0 ;;
    s2 <- onTimer 2 currentGesture random s1 ;;
    onTimer 3 currentGesture random s2.

(** Several rounds in a row, each with its gesture and random number. *)
Definition playRounds (rounds : list (string * R)) (s : RoundView)
  : option RoundView :=
  fold_left (fun acc r => v <- acc ;; playRound (fst r) (snd r) v)
    rounds (Some s).

(** The rounds in which the gesture shown was one of the five. *)
Definition counted (rounds : list (string * R)) : nat :=
  List.length (filter (fun r => isGesture (fst r)) rounds).

(** The rules as the panel beside the video lists them: winner, loser. *)
Definition rulesPanel : list (Gesture * Gesture) :=
  [ (scissors, paper); (paper, rock); (rock, lizard); (lizard, spock);
    (spock, scissors); (scissors, lizard); (lizard, paper); (paper, spock);
    (spock, rock); (rock, scissors) ].

End Round.

(** * Properties *)

(** ** Numbers *)

Module NumFacts.
Import Num.
Local Open Scope R_scope.

Lemma ltb_true (a b : R) : ltb a b = true <-> a < b.
Proof. unfold ltb. destruct (Rlt_dec a b); split; intros; try easy; lra. Qed.

Lemma ltb_false (a b : R) : ltb a b = false <-> b <= a.
Proof. unfold ltb. destruct (Rlt_dec a b); split; intros; try easy; lra. Qed.

Lemma leb_true (a b : R) : leb a b = true <-> a <= b.
Proof. unfold leb. destruct (Rle_dec a b); split; intros; try easy; lra. Qed.

Lemma leb_false (a b : R) : leb a b = false <-> b < a.
Proof. unfold leb. destruct (Rle_dec a b); split; intros; try easy; lra. Qed.

Lemma gtb_true (a b : R) : gtb a b = true <-> b < a.
Proof. apply ltb_true. Qed.

Lemma gtb_false (a b : R) : gtb a b = false <-> a <= b.
Proof. apply ltb_false. Qed.

Lemma geb_true (a b : R) : geb a b = true <-> b <= a.
Proof. apply leb_true. Qed.

Lemma hypot_nonneg (a b : R) : 0 <= hypot a b.
Proof. apply sqrt_pos. Qed.

Lemma hypot_pos (a b : R) : 0 < a -> 0 < hypot a b.
Proof. intros Ha. unfold hypot. apply sqrt_lt_R0. nra. Qed.

Lemma hypot_scale (k a b : R) : 0 <= k -> hypot (k * a) (k * b) = k * hypot a b.
Proof.
  intros Hk. unfold hypot.
  replace (k * a * (k * a) + k * b * (k * b)) with ((k * k) * (a * a + b * b))
    by ring.
  rewrite sqrt_mult_alt by nra.
  now rewrite sqrt_square.
Qed.

Lemma hypot_zero (a b : R) : hypot a b = 0 -> a = 0 /\ b = 0.
Proof.
  unfold hypot. intros H. apply sqrt_eq_0 in H; nra.
Qed.

Lemma hypot_value (a b c : R) : 0 <= c -> c * c = a * a + b * b -> hypot a b = c.
Proof. intros Hc H. unfold hypot. apply sqrt_lem_1; nra. Qed.

Lemma div_some (a b : R) : b <> 0 -> div a b = Some (a / b).
Proof. intros Hb. unfold div. now destruct (Req_dec_T b 0). Qed.

Lemma orElse_nonzero (h d : R) : d <> 0 -> orElse h d <> 0.
Proof. intros Hd. unfold orElse. now destruct (Req_dec_T h 0). Qed.

End NumFacts.

(** ** The classifier never fails on a 21-point pose *)

Module ClassifyFacts.
Import Num NumFacts ClassifySign Geometry.
Local Open Scope R_scope.
Local Open Scope string_scope.

Lemma extent_floor (lo hi : option R) : 1e-6 <= extent lo hi.
Proof.
  unfold extent. destruct lo, hi; try lra. apply Rmax_r.
Qed.

Lemma scale_pos (l : list NormalizedLandmark) : 0 < scale l.
Proof.
  unfold scale. apply hypot_pos.
  pose proof (extent_floor (minX (bbox l)) (maxX (bbox l))). lra.
Qed.

Lemma norm_some (l : list NormalizedLandmark) (d : R) :
  norm l d = Some (normalized l d).
Proof.
  unfold norm, normalized. apply div_some.
  pose proof (scale_pos l). lra.
Qed.

Lemma at_some (l : list NormalizedLandmark) (i : nat) :
  (i < List.length l)%nat -> at_ l i = Some (pt l i).
Proof.
  intros Hi. unfold at_, pt. now apply nth_error_nth'.
Qed.

Lemma dist_some (l : list NormalizedLandmark) (a b : nat) :
  (a < List.length l)%nat -> (b < List.length l)%nat ->
  dist l a b = Some (distance l a b).
Proof.
  intros Ha Hb. unfold dist. now rewrite !at_some.
Qed.

Lemma fartherThan_some (l : list NormalizedLandmark) (tip pip : nat) :
  (0 < List.length l)%nat ->
  (tip < List.length l)%nat -> (pip < List.length l)%nat ->
  fartherThan l tip pip = Some (gtb (margin l tip pip) 0.07).
Proof.
  intros H0 Ht Hp. unfold fartherThan, WRIST.
  rewrite !dist_some by assumption. cbn [bind].
  now rewrite norm_some.
Qed.

Lemma bent_some (l : list NormalizedLandmark) (tip pip : nat) :
  (0 < List.length l)%nat ->
  (tip < List.length l)%nat -> (pip < List.length l)%nat ->
  bent l tip pip = Some (ltb (margin l tip pip) 0.03).
Proof.
  intros H0 Ht Hp. unfold bent, WRIST.
  rewrite !dist_some by assumption. cbn [bind].
  now rewrite norm_some.
Qed.

Lemma v_some (l : list NormalizedLandmark) (tip pip : nat) :
  (tip < List.length l)%nat -> (pip < List.length l)%nat ->
  v l tip pip = Some (direction l tip pip).
Proof.
  intros Ht Hp. unfold v, direction.
  rewrite !at_some by assumption. cbn [bind].
  rewrite !div_some by (apply orElse_nonzero; lra).
  reflexivity.
Qed.

Ltac in_range H :=
  rewrite H; unfold WRIST, TIP_i, TIP_m, TIP_r, TIP_p, TIP_t,
    PIP_i, PIP_m, PIP_r, PIP_p, INDEX_MCP; lia.

Lemma extract_some (l : list NormalizedLandmark) :
  List.length l = 21%nat -> extract l = Some (metricsOf l).
Proof.
  intros Hlen. unfold extract.
  rewrite !fartherThan_some by in_range Hlen. cbn [bind].
  rewrite (@dist_some l TIP_t INDEX_MCP) by in_range Hlen. cbn [bind].
  rewrite norm_some. cbn [bind].
  rewrite (@dist_some l TIP_i TIP_m) by in_range Hlen. cbn [bind].
  rewrite norm_some. cbn [bind].
  rewrite (@dist_some l TIP_m TIP_r) by in_range Hlen. cbn [bind].
  rewrite norm_some. cbn [bind].
  rewrite (@dist_some l TIP_r TIP_p) by in_range Hlen. cbn [bind].
  rewrite norm_some. cbn [bind].
  rewrite !v_some by in_range Hlen.
  set (gIM := normalized l (distance l TIP_i TIP_m)).
  set (gMR := normalized l (distance l TIP_m TIP_r)).
  set (gRP := normalized l (distance l TIP_r TIP_p)).
  set (mean := (gIM + gMR + gRP) / 3).
  assert (Hden : Rmax 1e-6 ((gIM + gRP) / 2) <> 0).
  { pose proof (Rmax_l 1e-6 ((gIM + gRP) / 2)). lra. }
  unfold metricsOf. fold gIM gMR gRP. fold mean.
  destruct (gtb mean 0) eqn:Hmean.
  - apply gtb_true in Hmean.
    rewrite (@div_some _ mean) by lra. cbn [bind].
    rewrite div_some by exact Hden. reflexivity.
  - cbn [bind]. rewrite div_some by exact Hden. reflexivity.
Qed.

Lemma ruleScissors_some (l : list NormalizedLandmark) (m : SignMetrics) :
  List.length l = 21%nat -> ruleScissors l m = Some (scissorsOf l m).
Proof.
  intros Hlen. unfold ruleScissors, scissorsOf.
  destruct (indexExt m && middleExt m && negb (ringExt m) && negb (pinkyExt m));
    [ | reflexivity ].
  rewrite !bent_some by in_range Hlen. cbn [bind].
  destruct (ltb (margin l TIP_r PIP_r) 0.03); reflexivity.
Qed.

Lemma decide_some (l : list NormalizedLandmark) (m : SignMetrics) :
  List.length l = 21%nat -> decide l m = Some (labelOf l m).
Proof.
  intros Hlen. unfold decide, labelOf.
  rewrite ruleScissors_some by assumption. cbn [bind].
  destruct (scissorsOf l m); [ reflexivity | ].
  destruct (ruleSpock m); [ reflexivity | ].
  destruct (rulePaper m); [ reflexivity | ].
  destruct (ruleRock m); [ reflexivity | ].
  destruct (ruleLizard m); [ reflexivity | ].
  destruct (tieSpock m); [ reflexivity | ].
  destruct (tieLizard m); reflexivity.
Qed.

Lemma classifySign_some (l : list NormalizedLandmark) :
  List.length l = 21%nat ->
  classifySign l = Some (labelOf l (metricsOf l), metricsOf l).
Proof.
  intros Hlen. unfold classifySign.
  rewrite extract_some by assumption. cbn [bind].
  now rewrite decide_some.
Qed.

Lemma labelOf_closed (l : list NormalizedLandmark) (m : SignMetrics) :
  In (labelOf l m) labels.
Proof.
  unfold labelOf, labels.
  destruct (scissorsOf l m); [ simpl; tauto | ].
  destruct (ruleSpock m); [ simpl; tauto | ].
  destruct (rulePaper m); [ simpl; tauto | ].
  destruct (ruleRock m); [ simpl; tauto | ].
  destruct (ruleLizard m); [ simpl; tauto | ].
  destruct (tieSpock m); [ simpl; tauto | ].
  destruct (tieLizard m); simpl; tauto.
Qed.

(** C1. On every pose of 21 landmarks [classifySign] returns a result: no
    landmark read and none of the divisions (by the hand scale, by the floored
    gap-pair average, by the floored direction length, by the gap mean) fails,
    and the label returned is one of rock, paper, scissors, lizard, spock and
    unknown. *)
Theorem classifySign_total (l : list NormalizedLandmark) :
  List.length l = 21%nat ->
  exists label m, classifySign l = Some (label, m) /\ In label labels.
Proof.
  intros Hlen.
  exists (labelOf l (metricsOf l)), (metricsOf l). split.
  - now apply classifySign_some.
  - apply labelOf_closed.
Qed.

Lemma classifySign_total_witness :
  List.length poseScissors = 21%nat /\
  exists label m,
    classifySign poseScissors = Some (label, m) /\ In label labels.
Proof.
  split; [ reflexivity | ].
  apply (@classifySign_total poseScissors). reflexivity.
Defined.

(** ** The synthetic poses *)

Lemma hypot_vertical (c a b : R) : hypot (c - c) (a - b) = Rabs (a - b).
Proof.
  unfold hypot.
  replace ((c - c) * (c - c) + (a - b) * (a - b)) with ((a - b) * (a - b))
    by ring.
  fold (Rsqr (a - b)). apply sqrt_Rsqr_abs.
Qed.

Ltac compare_numbers :=
  repeat match goal with
  | |- context [ltb ?a ?b] =>
      first [ rewrite (proj2 (ltb_true a b)) by lra
            | rewrite (proj2 (ltb_false a b)) by lra ]
  | |- context [leb ?a ?b] =>
      first [ rewrite (proj2 (leb_true a b)) by lra
            | rewrite (proj2 (leb_false a b)) by lra ]
  end.

Ltac absolute_values :=
  repeat match goal with
  | |- context [Rabs ?a] =>
      first [ rewrite (Rabs_pos_eq a) by lra
            | rewrite (Rabs_left1 a) by lra ]
  end.

Lemma bboxStep_first (lm : NormalizedLandmark) :
  bboxStep bboxInit lm =
  {| minX := Some (x lm); minY := Some (y lm);
     maxX := Some (x lm); maxY := Some (y lm) |}.
Proof. reflexivity. Qed.

Lemma bboxStep_inside (x0 y0 x1 y1 a b : R) :
  x0 <= a <= x1 -> y0 <= b <= y1 ->
  bboxStep {| minX := Some x0; minY := Some y0;
              maxX := Some x1; maxY := Some y1 |} (mkLandmark a b) =
  {| minX := Some x0; minY := Some y0; maxX := Some x1; maxY := Some y1 |}.
Proof.
  intros Ha Hb. unfold bboxStep, lower, raise, gtb. cbn [minX minY maxX maxY x y].
  now compare_numbers.
Qed.

Section Hand.

Variables t i m r p : R.
Hypothesis Ht : 0.1 <= t <= 0.9.
Hypothesis Hi : 0.1 <= i <= 0.9.
Hypothesis Hm : 0.1 <= m <= 0.9.
Hypothesis Hr : 0.1 <= r <= 0.9.
Hypothesis Hp : 0.1 <= p <= 0.9.

Lemma hand_bbox :
  bbox (hand t i m r p) =
  {| minX := Some 0.2; minY := Some 0.1; maxX := Some 0.8; maxY := Some 0.9 |}.
Proof.
  unfold bbox, hand. cbv zeta. cbn [fold_left].
  rewrite bboxStep_first. cbn [x y].
  assert (H2 : bboxStep
            {| minX := Some 0.5; minY := Some 0.9;
               maxX := Some 0.5; maxY := Some 0.9 |} (mkLandmark 0.2 0.1) =
          {| minX := Some 0.2; minY := Some 0.1;
             maxX := Some 0.5; maxY := Some 0.9 |}).
  { unfold bboxStep, lower, raise, gtb. cbn [minX minY maxX maxY x y].
    now compare_numbers. }
  rewrite H2.
  assert (H3 : bboxStep
            {| minX := Some 0.2; minY := Some 0.1;
               maxX := Some 0.5; maxY := Some 0.9 |} (mkLandmark 0.8 0.9) =
          {| minX := Some 0.2; minY := Some 0.1;
             maxX := Some 0.8; maxY := Some 0.9 |}).
  { unfold bboxStep, lower, raise, gtb. cbn [minX minY maxX maxY x y].
    now compare_numbers. }
  rewrite H3.
  rewrite !bboxStep_inside by lra.
  reflexivity.
Qed.

Lemma hand_scale : scale (hand t i m r p) = 1.
Proof.
  unfold scale. rewrite hand_bbox. cbn [minX minY maxX maxY extent].
  rewrite !Rmax_left by lra.
  apply hypot_value; lra.
Qed.

Lemma hand_normalized (d : R) : normalized (hand t i m r p) d = d.
Proof. unfold normalized. rewrite hand_scale. field. Qed.

Ltac on_the_line :=
  unfold distance, pt, hand, WRIST, TIP_i, TIP_m, TIP_r, TIP_p, TIP_t,
    PIP_i, PIP_m, PIP_r, PIP_p, INDEX_MCP;
  cbv zeta; cbn [nth x y];
  rewrite ?hypot_vertical.

Lemma hand_index_wrist : distance (hand t i m r p) TIP_i WRIST = 0.9 - i.
Proof. on_the_line. rewrite Rabs_left1; lra. Qed.

Lemma hand_middle_wrist : distance (hand t i m r p) TIP_m WRIST = 0.9 - m.
Proof. on_the_line. rewrite Rabs_left1; lra. Qed.

Lemma hand_ring_wrist : distance (hand t i m r p) TIP_r WRIST = 0.9 - r.
Proof. on_the_line. rewrite Rabs_left1; lra. Qed.

Lemma hand_pinky_wrist : distance (hand t i m r p) TIP_p WRIST = 0.9 - p.
Proof. on_the_line. rewrite Rabs_left1; lra. Qed.

Lemma hand_pip_wrist (pip : nat) :
  In pip [PIP_i; PIP_m; PIP_r; PIP_p] ->
  distance (hand t i m r p) pip WRIST = 0.3.
Proof.
  intros [<- | [<- | [<- | [<- | []]]]];
    on_the_line; rewrite Rabs_left1; lra.
Qed.

Lemma hand_margin_index : margin (hand t i m r p) TIP_i PIP_i = 0.6 - i.
Proof.
  unfold margin. rewrite hand_normalized, hand_index_wrist.
  rewrite hand_pip_wrist by (simpl; tauto). lra.
Qed.

Lemma hand_margin_middle : margin (hand t i m r p) TIP_m PIP_m = 0.6 - m.
Proof.
  unfold margin. rewrite hand_normalized, hand_middle_wrist.
  rewrite hand_pip_wrist by (simpl; tauto). lra.
Qed.

Lemma hand_margin_ring : margin (hand t i m r p) TIP_r PIP_r = 0.6 - r.
Proof.
  unfold margin. rewrite hand_normalized, hand_ring_wrist.
  rewrite hand_pip_wrist by (simpl; tauto). lra.
Qed.

Lemma hand_margin_pinky : margin (hand t i m r p) TIP_p PIP_p = 0.6 - p.
Proof.
  unfold margin. rewrite hand_normalized, hand_pinky_wrist.
  rewrite hand_pip_wrist by (simpl; tauto). lra.
Qed.

Lemma hand_thumb :
  normalized (hand t i m r p) (distance (hand t i m r p) TIP_t INDEX_MCP) =
  Rabs (t - 0.7).
Proof. rewrite hand_normalized. now on_the_line. Qed.

Lemma hand_gapIM :
  normalized (hand t i m r p) (distance (hand t i m r p) TIP_i TIP_m) =
  Rabs (i - m).
Proof. rewrite hand_normalized. now on_the_line. Qed.

Lemma hand_gapMR :
  normalized (hand t i m r p) (distance (hand t i m r p) TIP_m TIP_r) =
  Rabs (m - r).
Proof. rewrite hand_normalized. now on_the_line. Qed.

Lemma hand_gapRP :
  normalized (hand t i m r p) (distance (hand t i m r p) TIP_r TIP_p) =
  Rabs (r - p).
Proof. rewrite hand_normalized. now on_the_line. Qed.

Lemma hand_direction_index :
  i < 0.6 -> direction (hand t i m r p) TIP_i PIP_i = (0, -1).
Proof.
  intros Hup. unfold direction, pt, hand, TIP_i, PIP_i.
  cbv zeta. cbn [nth x y].
  rewrite hypot_vertical, Rabs_left1 by lra.
  unfold orElse. destruct (Req_dec_T (- (i - 0.6)) 0); [ lra | ].
  f_equal; field; lra.
Qed.

Lemma hand_direction_middle :
  m < 0.6 -> direction (hand t i m r p) TIP_m PIP_m = (0, -1).
Proof.
  intros Hup. unfold direction, pt, hand, TIP_m, PIP_m.
  cbv zeta. cbn [nth x y].
  rewrite hypot_vertical, Rabs_left1 by lra.
  unfold orElse. destruct (Req_dec_T (- (m - 0.6)) 0); [ lra | ].
  f_equal; field; lra.
Qed.

(** The fields of the bundle of a synthetic pose that the rules read. *)
Lemma hand_flags :
  let M := metricsOf (hand t i m r p) in
  indexExt M = gtb (0.6 - i) 0.07 /\
  middleExt M = gtb (0.6 - m) 0.07 /\
  ringExt M = gtb (0.6 - r) 0.07 /\
  pinkyExt M = gtb (0.6 - p) 0.07 /\
  thumbToIndexMCP M = Rabs (t - 0.7) /\
  thumbOut M = gtb (Rabs (t - 0.7)) 0.34 /\
  thumbAlong M = ltb (Rabs (t - 0.7)) 0.28 /\
  gapIM M = Rabs (i - m) /\
  gapMR M = Rabs (m - r) /\
  gapRP M = Rabs (r - p).
Proof.
  unfold metricsOf.
  cbn [indexExt middleExt ringExt pinkyExt thumbToIndexMCP thumbOut thumbAlong
       gapIM gapMR gapRP].
  rewrite hand_margin_index, hand_margin_middle, hand_margin_ring,
    hand_margin_pinky, hand_thumb, hand_gapIM, hand_gapMR, hand_gapRP.
  repeat split.
Qed.

Lemma hand_count :
  extendedCount (metricsOf (hand t i m r p)) =
  (Number (gtb (0.6 - i) 0.07) + Number (gtb (0.6 - m) 0.07) +
   Number (gtb (0.6 - r) 0.07) + Number (gtb (0.6 - p) 0.07))%nat.
Proof.
  unfold metricsOf. cbn [extendedCount].
  now rewrite hand_margin_index, hand_margin_middle, hand_margin_ring,
    hand_margin_pinky.
Qed.

End Hand.

(** ** What a returned bundle and label satisfy *)

Ltac unbind H :=
  repeat match type of H with
  | bind ?e _ = Some _ =>
      let E := fresh "E" in
      destruct e eqn:E; cbn [bind] in H; [ | discriminate H ]
  end.

Lemma classifySign_inv (l : list NormalizedLandmark) (label : string)
  (m : SignMetrics) :
  classifySign l = Some (label, m) ->
  extract l = Some m /\ decide l m = Some label.
Proof.
  unfold classifySign. intros H. unbind H.
  injection H as <- <-. now split.
Qed.

Lemma extract_fields (l : list NormalizedLandmark) (m : SignMetrics) :
  extract l = Some m ->
  thumbOut m = gtb (thumbToIndexMCP m) 0.34 /\
  thumbAlong m = ltb (thumbToIndexMCP m) 0.28 /\
  extendedCount m =
    (Number (indexExt m) + Number (middleExt m) +
     Number (ringExt m) + Number (pinkyExt m))%nat.
Proof.
  unfold extract. intros H. unbind H.
  injection H as <-. cbn. repeat split.
Qed.

(** C9. In a bundle returned by [classifySign], [thumbOut] holds exactly when
    the normalized thumb distance exceeds 0.34 and [thumbAlong] exactly when
    it is below 0.28; the two are never both true, and both are false on the
    band from 0.28 to 0.34. *)
Theorem thumb_flags_exclusive (l : list NormalizedLandmark) (label : string)
  (m : SignMetrics) :
  classifySign l = Some (label, m) ->
  (thumbOut m = true <-> 0.34 < thumbToIndexMCP m) /\
  (thumbAlong m = true <-> thumbToIndexMCP m < 0.28) /\
  ~ (thumbOut m = true /\ thumbAlong m = true) /\
  (0.28 <= thumbToIndexMCP m <= 0.34 ->
   thumbOut m = false /\ thumbAlong m = false).
Proof.
  intros H. apply classifySign_inv in H as [Hm _].
  apply extract_fields in Hm as (Hout & Halong & _).
  rewrite Hout, Halong.
  repeat split.
  - apply gtb_true.
  - apply gtb_true.
  - apply ltb_true.
  - apply ltb_true.
  - intros [Ho Ha]. apply gtb_true in Ho. apply ltb_true in Ha. lra.
  - apply gtb_false. lra.
  - apply ltb_false. lra.
Qed.

Lemma thumb_flags_exclusive_witness :
  let m := metricsOf poseScissors in
  classifySign poseScissors = Some (labelOf poseScissors m, m) /\
  ~ (thumbOut m = true /\ thumbAlong m = true).
Proof.
  intros m.
  assert (H : classifySign poseScissors = Some (labelOf poseScissors m, m))
    by (apply classifySign_some; reflexivity).
  split; [ exact H | ].
  exact (proj1 (proj2 (proj2 (@thumb_flags_exclusive _ _ _ H)))).
Defined.

Lemma decide_scissors (l : list NormalizedLandmark) (m : SignMetrics)
  (label : string) :
  decide l m = Some label -> ruleScissors l m = Some true ->
  label = "scissors".
Proof.
  unfold decide. intros H Hs. rewrite Hs in H. cbn [bind] in H.
  now injection H as <-.
Qed.

(** C5. When the bundle of a pose satisfies the scissors predicate (index and
    middle extended, ring and pinky not extended and definitely bent,
    index-middle gap at most 0.28, direction cosine at least 0.80) and also
    the lizard tie-break (at most two fingers extended, thumb outward),
    [classifySign] returns scissors: the first rule that matches wins. *)
Theorem scissors_before_lizard (l : list NormalizedLandmark) (label : string)
  (m : SignMetrics) :
  classifySign l = Some (label, m) ->
  indexExt m = true -> middleExt m = true ->
  ringExt m = false -> pinkyExt m = false ->
  bent l TIP_r PIP_r = Some true -> bent l TIP_p PIP_p = Some true ->
  gapIM m <= 0.28 -> 0.80 <= cosIM m ->
  tieLizard m = true ->
  label = "scissors".
Proof.
  intros H Hi Hm Hr Hp HbR HbP Hgap Hcos _.
  apply classifySign_inv in H as [_ Hd].
  apply (decide_scissors _ _ Hd).
  unfold ruleScissors. rewrite Hi, Hm, Hr, Hp, HbR, HbP. cbn.
  rewrite (proj2 (leb_true _ _)) by exact Hgap.
  unfold geb. rewrite (proj2 (leb_true _ _)) by exact Hcos.
  reflexivity.
Qed.

Lemma poseScissors_cos : cosIM (metricsOf poseScissors) = 1.
Proof.
  unfold metricsOf. cbn [cosIM]. unfold poseScissors.
  rewrite hand_direction_index, hand_direction_middle by lra.
  cbn [fst snd]. unfold clamp.
  replace (0 * 0 + -1 * -1) with 1 by ring.
  rewrite Rmin_left by lra. rewrite Rmax_right by lra. reflexivity.
Qed.

Ltac evaluate_flags :=
  unfold gtb; absolute_values; compare_numbers.

Lemma poseScissors_flags :
  let M := metricsOf poseScissors in
  indexExt M = true /\ middleExt M = true /\
  ringExt M = false /\ pinkyExt M = false /\
  thumbOut M = true /\ gapIM M = 0 /\ extendedCount M = 2%nat.
Proof.
  unfold poseScissors.
  destruct (@hand_flags 0.3 0.4 0.4 0.6 0.6)
    as (Hi & Hm & Hr & Hp & _ & Ho & _ & G1 & _ & _); try lra.
  cbv zeta. rewrite Hi, Hm, Hr, Hp, Ho, G1, hand_count by lra.
  evaluate_flags. cbn [Number Nat.add].
  repeat split. lra.
Qed.

Lemma poseScissors_bent :
  bent poseScissors TIP_r PIP_r = Some true /\
  bent poseScissors TIP_p PIP_p = Some true.
Proof.
  rewrite !bent_some by (cbn; unfold TIP_r, PIP_r, TIP_p, PIP_p; lia).
  unfold poseScissors.
  rewrite hand_margin_ring, hand_margin_pinky by lra.
  evaluate_flags. now split.
Qed.

Lemma scissors_before_lizard_witness :
  let m := metricsOf poseScissors in
  classifySign poseScissors = Some (labelOf poseScissors m, m) /\
  tieLizard m = true /\
  labelOf poseScissors m = "scissors".
Proof.
  intros m.
  assert (H : classifySign poseScissors = Some (labelOf poseScissors m, m))
    by (apply classifySign_some; reflexivity).
  destruct poseScissors_flags as (Hi & Hm & Hr & Hp & Ho & Hg & Hc).
  destruct poseScissors_bent as (HbR & HbP).
  fold m in Hi, Hm, Hr, Hp, Ho, Hg, Hc.
  assert (Htie : tieLizard m = true).
  { unfold tieLizard. rewrite Hc, Ho. reflexivity. }
  split; [ exact H | split; [ exact Htie | ] ].
  apply (@scissors_before_lizard _ _ _ H Hi Hm Hr Hp HbR HbP).
  - rewrite Hg. lra.
  - unfold m. rewrite poseScissors_cos. lra.
  - exact Htie.
Defined.

(** ** The lizard rule *)

Lemma poseSoftThumb_flags :
  let M := metricsOf poseSoftThumb in
  indexExt M = true /\ middleExt M = false /\
  ringExt M = false /\ pinkyExt M = true /\
  thumbToIndexMCP M = 0.32 /\ thumbOut M = false /\
  extendedCount M = 2%nat.
Proof.
  unfold poseSoftThumb.
  destruct (@hand_flags 0.38 0.4 0.6 0.6 0.4)
    as (Hi & Hm & Hr & Hp & Hd & Ho & _); try lra.
  cbv zeta. rewrite Hi, Hm, Hr, Hp, Hd, Ho, hand_count by lra.
  evaluate_flags. cbn [Number Nat.add].
  repeat split. lra.
Qed.

(** In this copy the thumb has one outward bound, 0.34: with index and
    pinky extended, middle and ring not extended and the thumb at normalized
    distance 0.32, none of scissors, spock, paper and rock matches, and the
    label is unknown. *)
Lemma soft_thumb_is_not_lizard :
  exists (label : string) (m : SignMetrics),
    List.length poseSoftThumb = 21%nat /\
    classifySign poseSoftThumb = Some (label, m) /\
    middleExt m = false /\ ringExt m = false /\
    (indexExt m || pinkyExt m) = true /\
    0.31 < thumbToIndexMCP m /\
    ruleScissors poseSoftThumb m = Some false /\ ruleSpock m = false /\
    rulePaper m = false /\ ruleRock m = false /\
    label = "unknown" /\ label <> "lizard".
Proof.
  set (m := metricsOf poseSoftThumb).
  destruct poseSoftThumb_flags as (Hi & Hm & Hr & Hp & Hd & Ho & Hc).
  fold m in Hi, Hm, Hr, Hp, Hd, Ho, Hc.
  assert (Hs : scissorsOf poseSoftThumb m = false).
  { unfold scissorsOf. now rewrite Hi, Hm. }
  assert (Hspock : ruleSpock m = false).
  { unfold ruleSpock. now rewrite Hc. }
  assert (Hpaper : rulePaper m = false).
  { unfold rulePaper. now rewrite Hc. }
  assert (Hrock : ruleRock m = false).
  { unfold ruleRock. now rewrite Hc. }
  assert (Hlabel : labelOf poseSoftThumb m = "unknown").
  { unfold labelOf. rewrite Hs, Hspock, Hpaper, Hrock.
    unfold ruleLizard, tieSpock, tieLizard. now rewrite Ho, Hc. }
  exists (labelOf poseSoftThumb m), m.
  repeat split.
  - now apply classifySign_some.
  - exact Hm.
  - exact Hr.
  - now rewrite Hi.
  - rewrite Hd. lra.
  - rewrite ruleScissors_some by reflexivity. now rewrite Hs.
  - exact Hspock.
  - exact Hpaper.
  - exact Hrock.
  - exact Hlabel.
  - rewrite Hlabel. discriminate.
Qed.

(** The lizard rule of this copy. When middle and ring are both not
    extended, at least one of index and pinky is extended and the normalized
    thumb distance exceeds 0.34, none of scissors, spock, paper and rock
    matches and [classifySign] returns lizard. *)
Lemma lizard_rule (l : list NormalizedLandmark) (label : string)
  (m : SignMetrics) :
  classifySign l = Some (label, m) ->
  middleExt m = false -> ringExt m = false ->
  (indexExt m || pinkyExt m) = true ->
  0.34 < thumbToIndexMCP m ->
  ruleScissors l m = Some false /\ ruleSpock m = false /\
  rulePaper m = false /\ ruleRock m = false /\
  label = "lizard".
Proof.
  intros H Hm Hr Hip Hd.
  apply classifySign_inv in H as [He Hdec].
  apply extract_fields in He as (Hout & _ & Hcount).
  assert (Ho : thumbOut m = true) by (rewrite Hout; now apply gtb_true).
  assert (Hs : ruleScissors l m = Some false).
  { unfold ruleScissors. rewrite Hm, andb_false_r. reflexivity. }
  assert (H4 : (extendedCount m =? 4)%nat = false).
  { rewrite Hcount, Hm, Hr. apply Nat.eqb_neq.
    destruct (indexExt m), (pinkyExt m); cbn; lia. }
  assert (Hspock : ruleSpock m = false) by (unfold ruleSpock; now rewrite H4).
  assert (Hpaper : rulePaper m = false) by (unfold rulePaper; now rewrite H4).
  assert (Hrock : ruleRock m = false).
  { unfold ruleRock. rewrite Ho. apply andb_false_r. }
  repeat split; try assumption.
  unfold decide in Hdec. rewrite Hs in Hdec. cbn [bind] in Hdec.
  rewrite Hspock, Hpaper, Hrock in Hdec.
  unfold ruleLizard in Hdec. rewrite Ho, Hm, Hr, Hip in Hdec. cbn in Hdec.
  now injection Hdec as <-.
Qed.

Lemma poseDuck_flags :
  let M := metricsOf poseDuck in
  indexExt M = true /\ middleExt M = false /\
  ringExt M = false /\ pinkyExt M = true /\
  thumbToIndexMCP M = 0.4.
Proof.
  unfold poseDuck.
  destruct (@hand_flags 0.3 0.4 0.6 0.6 0.4)
    as (Hi & Hm & Hr & Hp & Hd & _); try lra.
  cbv zeta. rewrite Hi, Hm, Hr, Hp, Hd.
  evaluate_flags.
  repeat split. lra.
Qed.

Lemma lizard_rule_witness :
  let m := metricsOf poseDuck in
  classifySign poseDuck = Some (labelOf poseDuck m, m) /\
  0.34 < thumbToIndexMCP m /\
  labelOf poseDuck m = "lizard".
Proof.
  intros m.
  assert (H : classifySign poseDuck = Some (labelOf poseDuck m, m))
    by (apply classifySign_some; reflexivity).
  destruct poseDuck_flags as (Hi & Hm & Hr & Hp & Hd).
  fold m in Hi, Hm, Hr, Hp, Hd.
  assert (Hthumb : 0.34 < thumbToIndexMCP m) by (rewrite Hd; lra).
  assert (Hip : (indexExt m || pinkyExt m) = true) by now rewrite Hi.
  split; [ exact H | split; [ exact Hthumb | ] ].
  exact (proj2 (proj2 (proj2 (proj2
    (@lizard_rule _ _ _ H Hm Hr Hip Hthumb))))).
Defined.

(** ** Translation and uniform scaling *)

Section Similarity.

Variables k tx ty : R.
Hypothesis Hk : 0 < k.

Lemma lower_move (t : R) (b : option R) (c : R) :
  lower (moveBound k t b) (k * c + t) = moveBound k t (lower b c).
Proof.
  destruct b as [b0 | ]; cbn [moveBound lower]; [ | reflexivity ].
  destruct (ltb c b0) eqn:E.
  - apply ltb_true in E. rewrite (proj2 (ltb_true _ _)) by nra. reflexivity.
  - apply ltb_false in E. rewrite (proj2 (ltb_false _ _)) by nra. reflexivity.
Qed.

Lemma raise_move (t : R) (b : option R) (c : R) :
  raise (moveBound k t b) (k * c + t) = moveBound k t (raise b c).
Proof.
  destruct b as [b0 | ]; cbn [moveBound raise]; [ | reflexivity ].
  destruct (gtb c b0) eqn:E.
  - apply gtb_true in E. rewrite (proj2 (gtb_true _ _)) by nra. reflexivity.
  - apply gtb_false in E. rewrite (proj2 (gtb_false _ _)) by nra. reflexivity.
Qed.

Lemma bboxStep_move (b : BBox) (q : NormalizedLandmark) :
  bboxStep (moveBBox k tx ty b) (move k tx ty q) =
  moveBBox k tx ty (bboxStep b q).
Proof.
  unfold bboxStep, moveBBox, move. cbn [minX minY maxX maxY x y].
  now rewrite !lower_move, !raise_move.
Qed.

Lemma bbox_fold_move (l : list NormalizedLandmark) (b : BBox) :
  fold_left bboxStep (transform k tx ty l) (moveBBox k tx ty b) =
  moveBBox k tx ty (fold_left bboxStep l b).
Proof.
  revert b. induction l as [ | q l IH]; intros b; [ reflexivity | ].
  cbn [transform map fold_left].
  rewrite bboxStep_move. apply IH.
Qed.

Lemma bbox_transform (l : list NormalizedLandmark) :
  bbox (transform k tx ty l) = moveBBox k tx ty (bbox l).
Proof.
  unfold bbox. rewrite <- bbox_fold_move. reflexivity.
Qed.

Lemma transform_length (l : list NormalizedLandmark) :
  List.length (transform k tx ty l) = List.length l.
Proof. apply length_map. Qed.

Lemma pt_transform (l : list NormalizedLandmark) (j : nat) :
  (j < List.length l)%nat ->
  pt (transform k tx ty l) j = move k tx ty (pt l j).
Proof.
  intros Hj. unfold pt, transform.
  rewrite (nth_indep _ _ (move k tx ty (mkLandmark 0 0)))
    by (rewrite length_map; exact Hj).
  apply (map_nth (move k tx ty)).
Qed.

Lemma distance_transform (l : list NormalizedLandmark) (a b : nat) :
  (a < List.length l)%nat -> (b < List.length l)%nat ->
  distance (transform k tx ty l) a b = k * distance l a b.
Proof.
  intros Ha Hb. unfold distance. rewrite !pt_transform by assumption.
  unfold move. cbn [x y].
  rewrite <- hypot_scale by lra. f_equal; ring.
Qed.

Lemma direction_transform (l : list NormalizedLandmark) (a b : nat) :
  (a < List.length l)%nat -> (b < List.length l)%nat ->
  direction (transform k tx ty l) a b = direction l a b.
Proof.
  intros Ha Hb. unfold direction. rewrite !pt_transform by assumption.
  unfold move. cbn [x y]. cbv zeta.
  set (dx := x (pt l a) - x (pt l b)).
  set (dy := y (pt l a) - y (pt l b)).
  replace (k * x (pt l a) + tx - (k * x (pt l b) + tx)) with (k * dx)
    by (unfold dx; ring).
  replace (k * y (pt l a) + ty - (k * y (pt l b) + ty)) with (k * dy)
    by (unfold dy; ring).
  rewrite hypot_scale by lra.
  unfold orElse.
  destruct (Req_dec_T (hypot dx dy) 0) as [E | E].
  - destruct (hypot_zero _ _ E) as [-> ->].
    destruct (Req_dec_T (k * hypot 0 0) 0) as [_ | E']; [ | nra ].
    f_equal; field.
  - destruct (Req_dec_T (k * hypot dx dy) 0) as [E' | _]; [ nra | ].
    f_equal; field; split; lra.
Qed.

Section Box.

Variable l : list NormalizedLandmark.
Variables x0 y0 x1 y1 : R.
Hypothesis Hlen : List.length l = 21%nat.
Hypothesis Hbox :
  bbox l =
  {| minX := Some x0; minY := Some y0; maxX := Some x1; maxY := Some y1 |}.
Hypothesis Hw : 1e-6 <= x1 - x0.
Hypothesis Hh : 1e-6 <= y1 - y0.
Hypothesis Hkw : 1e-6 <= k * (x1 - x0).
Hypothesis Hkh : 1e-6 <= k * (y1 - y0).

Lemma scale_transform : scale (transform k tx ty l) = k * scale l.
Proof.
  unfold scale. rewrite bbox_transform, Hbox.
  cbn [moveBBox moveBound minX minY maxX maxY extent].
  rewrite !Rmax_left by lra.
  rewrite <- hypot_scale by lra. f_equal; ring.
Qed.

Lemma normalized_transform (d : R) :
  normalized (transform k tx ty l) (k * d) = normalized l d.
Proof.
  unfold normalized. rewrite scale_transform.
  pose proof (scale_pos l). field. split; lra.
Qed.

Lemma gap_transform (a b : nat) :
  (a < 21)%nat -> (b < 21)%nat ->
  normalized (transform k tx ty l) (distance (transform k tx ty l) a b) =
  normalized l (distance l a b).
Proof.
  intros Ha Hb. rewrite distance_transform by (rewrite Hlen; assumption).
  apply normalized_transform.
Qed.

Lemma margin_transform (tip pip : nat) :
  (tip < 21)%nat -> (pip < 21)%nat ->
  margin (transform k tx ty l) tip pip = margin l tip pip.
Proof.
  intros Ht Hp. unfold margin, WRIST.
  rewrite !distance_transform by (rewrite Hlen; lia).
  rewrite <- Rmult_minus_distr_l. apply normalized_transform.
Qed.

Lemma metricsOf_transform : metricsOf (transform k tx ty l) = metricsOf l.
Proof.
  unfold metricsOf.
  rewrite !margin_transform
    by (unfold TIP_i, TIP_m, TIP_r, TIP_p, PIP_i, PIP_m, PIP_r, PIP_p; lia).
  rewrite !gap_transform
    by (unfold TIP_i, TIP_m, TIP_r, TIP_p, TIP_t, INDEX_MCP; lia).
  rewrite !direction_transform
    by (rewrite Hlen; unfold TIP_i, TIP_m, PIP_i, PIP_m; lia).
  reflexivity.
Qed.

End Box.

End Similarity.

Lemma metricsBundle_some (l : list NormalizedLandmark) :
  List.length l = 21%nat -> metricsBundle l = Some (metricsOf l).
Proof.
  intros Hlen. unfold metricsBundle.
  now rewrite classifySign_some.
Qed.

(** C3, as stated, fails: the synthetic scissors pose has a 0.6 by 0.8
    bounding box, yet scaling it by 1e-7 changes the bundle, because the
    scaled box falls below the 1e-6 floor of the hand scale. *)
Lemma tiny_scaling_changes_metrics :
  List.length poseScissors = 21%nat /\
  bbox poseScissors =
    {| minX := Some 0.2; minY := Some 0.1;
       maxX := Some 0.8; maxY := Some 0.9 |} /\
  1e-6 <= 0.8 - 0.2 /\ 1e-6 <= 0.9 - 0.1 /\ 0 < 1e-7 /\
  metricsBundle (transform 1e-7 0 0 poseScissors) <>
  metricsBundle poseScissors.
Proof.
  assert (Hbox : bbox poseScissors =
    {| minX := Some 0.2; minY := Some 0.1;
       maxX := Some 0.8; maxY := Some 0.9 |})
    by (apply hand_bbox; lra).
  repeat split; try lra; try exact Hbox.
  rewrite !metricsBundle_some by reflexivity.
  intros Heq.
  apply (f_equal (fun o => match o with
                           | Some m => thumbToIndexMCP m
                           | None => 0
                           end)) in Heq.
  cbv beta iota in Heq.
  unfold metricsOf in Heq. cbn [thumbToIndexMCP] in Heq.
  rewrite distance_transform in Heq
    by (try lra; cbn; unfold TIP_t, INDEX_MCP; lia).
  unshelve epose proof (@hand_thumb 0.3 0.4 0.4 0.6 0.6 _ _ _ _ _) as Hd;
    try lra.
  fold poseScissors in Hd. rewrite Hd in Heq.
  unfold poseScissors in Hd. rewrite hand_normalized in Hd by lra.
  fold poseScissors in Hd. rewrite Hd in Heq.
  rewrite Rabs_left1 in Heq by lra.
  unfold normalized, scale in Heq.
  rewrite bbox_transform, Hbox in Heq by lra.
  cbn [moveBBox moveBound minX minY maxX maxY extent] in Heq.
  rewrite !Rmax_right in Heq by lra.
  set (s := hypot 1e-6 1e-6) in Heq.
  assert (Hs : 0 < s) by (apply hypot_pos; lra).
  assert (Hss : s * s = 1e-6 * 1e-6 + 1e-6 * 1e-6).
  { unfold s, hypot. apply sqrt_sqrt. lra. }
  assert (Hmul : 1e-7 * - (0.3 - 0.7) / s * s = 1e-7 * - (0.3 - 0.7))
    by (field; lra).
  rewrite Heq in Hmul.
  assert (Hval : s = 1e-7) by lra.
  rewrite Hval in Hss. lra.
Qed.

(** C3, amended. For a pose of 21 landmarks whose bounding box has extent at
    least 1e-6 in each axis, a translation combined with a uniform scaling by
    [k > 0] that keeps the extent of the box at least 1e-6 in each axis leaves
    every field of the bundle unchanged. *)
Theorem metrics_similarity_invariant (l : list NormalizedLandmark)
  (k tx ty x0 y0 x1 y1 : R) :
  List.length l = 21%nat ->
  bbox l =
    {| minX := Some x0; minY := Some y0; maxX := Some x1; maxY := Some y1 |} ->
  1e-6 <= x1 - x0 -> 1e-6 <= y1 - y0 ->
  0 < k ->
  1e-6 <= k * (x1 - x0) -> 1e-6 <= k * (y1 - y0) ->
  exists m,
    metricsBundle l = Some m /\
    metricsBundle (transform k tx ty l) = Some m.
Proof.
  intros Hlen Hbox Hw Hh Hk Hkw Hkh.
  exists (metricsOf l). split.
  - now apply metricsBundle_some.
  - rewrite metricsBundle_some by (now rewrite transform_length).
    f_equal. now apply (@metricsOf_transform k tx ty Hk l x0 y0 x1 y1).
Qed.

Lemma metrics_similarity_invariant_witness :
  bbox poseScissors =
    {| minX := Some 0.2; minY := Some 0.1;
       maxX := Some 0.8; maxY := Some 0.9 |} /\
  exists m,
    metricsBundle poseScissors = Some m /\
    metricsBundle (transform (1 / 2) 0.1 0.2 poseScissors) = Some m.
Proof.
  assert (Hbox : bbox poseScissors =
    {| minX := Some 0.2; minY := Some 0.1;
       maxX := Some 0.8; maxY := Some 0.9 |})
    by (apply hand_bbox; lra).
  split; [ exact Hbox | ].
  apply (@metrics_similarity_invariant poseScissors (1 / 2) 0.1 0.2
           0.2 0.1 0.8 0.9); try lra.
  - reflexivity.
  - exact Hbox.
Defined.

End ClassifyFacts.

(** ** The frequency object and the sort *)

Module JsObjectFacts.
Import JsObject.

Lemma set_keys (l : string) (c : nat) (freq : Freq) (k : string) :
  In k (map fst (set l c freq)) <-> In k (map fst freq) \/ k = l.
Proof.
  induction freq as [ | [k0 c0] rest IH]; cbn [set map fst In].
  - intuition congruence.
  - destruct (String.eqb k0 l) eqn:E; cbn [map fst In].
    + apply String.eqb_eq in E. subst k0. intuition congruence.
    + rewrite IH. tauto.
Qed.

Lemma set_nonempty (l : string) (c : nat) (freq : Freq) : set l c freq <> [].
Proof.
  destruct freq as [ | [k0 c0] rest]; cbn [set]; [ discriminate | ].
  destruct (String.eqb k0 l); discriminate.
Qed.

Lemma insert_In {A : Type} (compare : A -> A -> Z) (e a : A) (sorted : list A) :
  In a (insert compare e sorted) <-> a = e \/ In a sorted.
Proof.
  induction sorted as [ | s rest IH]; cbn [insert In].
  - intuition congruence.
  - destruct (0 <? compare e s)%Z; cbn [In].
    + rewrite IH. intuition congruence.
    + intuition congruence.
Qed.

Lemma sort_In {A : Type} (compare : A -> A -> Z) (a : A) (l : list A) :
  In a (sort compare l) <-> In a l.
Proof.
  induction l as [ | e l IH]; cbn [sort fold_right In]; [ tauto | ].
  fold (sort compare l). rewrite insert_In, IH. intuition congruence.
Qed.

Lemma sort_nonempty {A : Type} (compare : A -> A -> Z) (l : list A) :
  l <> [] -> sort compare l <> [].
Proof.
  destruct l as [ | e l]; [ congruence | ]. intros _ H.
  assert (Hin : In e (sort compare (e :: l))) by (apply sort_In; now left).
  rewrite H in Hin. destruct Hin.
Qed.

Lemma get_set_same (l : string) (c : nat) (freq : Freq) :
  get l (set l c freq) = Some c.
Proof.
  induction freq as [ | [k0 c0] rest IH]; cbn [set get].
  - now rewrite String.eqb_refl.
  - destruct (String.eqb k0 l) eqn:E; cbn [get]; rewrite E; auto.
Qed.

Lemma get_set_other (k l : string) (c : nat) (freq : Freq) :
  k <> l -> get k (set l c freq) = get k freq.
Proof.
  intros Hkl.
  induction freq as [ | [k0 c0] rest IH]; cbn [set get].
  - apply not_eq_sym in Hkl. apply String.eqb_neq in Hkl. now rewrite Hkl.
  - destruct (String.eqb k0 l) eqn:E; cbn [get].
    + apply String.eqb_eq in E. subst k0.
      apply not_eq_sym in Hkl. apply String.eqb_neq in Hkl. now rewrite Hkl.
    + now rewrite IH.
Qed.

Lemma get_none (l : string) (freq : Freq) :
  get l freq = None <-> ~ In l (map fst freq).
Proof.
  induction freq as [ | [k0 c0] rest IH]; cbn [get map fst In]; [ tauto | ].
  destruct (String.eqb k0 l) eqn:E.
  - apply String.eqb_eq in E. split; [ discriminate | tauto ].
  - apply String.eqb_neq in E. rewrite IH. tauto.
Qed.

Lemma get_In (k : string) (c : nat) (freq : Freq) :
  NoDup (map fst freq) -> In (k, c) freq -> get k freq = Some c.
Proof.
  induction freq as [ | [k0 c0] rest IH]; cbn [get map fst In]; [ tauto | ].
  intros Hnd [Heq | Hin].
  - injection Heq as -> ->. now rewrite String.eqb_refl.
  - inversion Hnd as [ | ? ? Hnotin Hnd']; subst.
    destruct (String.eqb k0 k) eqn:E.
    + apply String.eqb_eq in E. subst k0.
      exfalso. apply Hnotin. now apply (in_map fst) in Hin.
    + now apply IH.
Qed.

(** Assigning to a property that exists keeps the list of keys; creating
    one appends its key. *)
Lemma set_key_list (l : string) (c : nat) (freq : Freq) :
  map fst (set l c freq) =
  match get l freq with
  | Some _ => map fst freq
  | None => map fst freq ++ [l]
  end.
Proof.
  induction freq as [ | [k0 c0] rest IH]; cbn [set get map fst app];
    [ reflexivity | ].
  destruct (String.eqb k0 l) eqn:E; cbn [map fst]; [ reflexivity | ].
  rewrite IH. now destruct (get l rest).
Qed.

End JsObjectFacts.

(** ** The stabilizer *)

Module StabilizerFacts.
Import JsObject JsObjectFacts Detector.
Import Geometry.

Lemma tally_keys (freq : Freq) (l k : string) :
  In k (map fst (tally freq l)) <-> In k (map fst freq) \/ k = l.
Proof. apply set_keys. Qed.

Lemma tally_fold_keys (buffer : list string) (freq : Freq) (k : string) :
  In k (map fst (fold_left tally buffer freq)) <->
  In k (map fst freq) \/ In k buffer.
Proof.
  revert freq. induction buffer as [ | l buffer IH]; intros freq;
    cbn [fold_left In]; [ tauto | ].
  rewrite IH, tally_keys. intuition congruence.
Qed.

Lemma tally_fold_nonempty (buffer : list string) (freq : Freq) :
  freq <> [] -> fold_left tally buffer freq <> [].
Proof.
  revert freq. induction buffer as [ | l buffer IH]; intros freq Hf;
    cbn [fold_left]; [ exact Hf | ].
  apply IH. apply set_nonempty.
Qed.

(** The buffer after a push: the label appended, the oldest entry dropped
    when the buffer has grown beyond [n]. *)
Lemma stableGesture_buffer (buffer : list string) (label : string) (n : nat) :
  fst (stableGesture buffer label n) =
  if (n <? List.length (buffer ++ [label]))%nat
  then tl (buffer ++ [label]) else buffer ++ [label].
Proof. reflexivity. Qed.

(** A push answers with a label of the buffer it leaves, unless that buffer
    is empty. *)
Lemma stableGesture_member (buffer : list string) (label : string) (n : nat) :
  fst (stableGesture buffer label n) <> [] ->
  exists g, snd (stableGesture buffer label n) = Some g /\
            In g (fst (stableGesture buffer label n)).
Proof.
  unfold stableGesture. cbn [fst snd].
  set (current := if (n <? List.length (buffer ++ [label]))%nat
                  then tl (buffer ++ [label]) else buffer ++ [label]).
  intros Hne.
  destruct (sort byCountDesc (entries (fold_left tally current []))) as [ | e s]
    eqn:E.
  - exfalso. revert E. apply sort_nonempty. unfold entries.
    destruct current as [ | l0 rest]; [ congruence | ].
    cbn [fold_left]. apply tally_fold_nonempty. apply set_nonempty.
  - exists (fst e). split; [ reflexivity | ].
    assert (Hin : In e (entries (fold_left tally current []))).
    { apply (sort_In byCountDesc). rewrite E. now left. }
    unfold entries in Hin.
    apply (in_map fst) in Hin. apply tally_fold_keys in Hin.
    destruct Hin as [[] | Hin]. exact Hin.
Qed.

Lemma feed_snoc (buffer ls : list string) (l : string) :
  feed buffer (ls ++ [l]) = fst (stableGesture (feed buffer ls) l defaultN).
Proof. unfold feed. now rewrite fold_left_app. Qed.

(** The buffer always holds the last five labels pushed. *)
Lemma feed_window (ls : list string) :
  feed [] ls = skipn (List.length ls - 5) ls.
Proof.
  induction ls as [ | l ls IH] using rev_ind; [ reflexivity | ].
  rewrite feed_snoc, stableGesture_buffer, IH. unfold defaultN.
  rewrite !length_app, length_skipn. cbn [List.length].
  destruct (Nat.ltb_spec 5 (List.length ls - (List.length ls - 5) + 1)) as [H | H].
  - assert (Hlen : (5 <= List.length ls)%nat) by lia.
    replace (List.length ls + 1 - 5)%nat with (S (List.length ls - 5)) by lia.
    rewrite skipn_app.
    replace (S (List.length ls - 5) - List.length ls)%nat with 0%nat by lia.
    change (skipn 0 [l]) with [l].
    destruct (skipn (List.length ls - 5) ls) as [ | h0 rest] eqn:E.
    + apply (f_equal (@List.length string)) in E.
      rewrite length_skipn in E. cbn in E. lia.
    + cbn [app tl].
      replace (S (List.length ls - 5)) with (1 + (List.length ls - 5))%nat
        by lia.
      rewrite <- skipn_skipn, E. reflexivity.
  - replace (List.length ls - 5)%nat with 0%nat by lia.
    replace (List.length ls + 1 - 5)%nat with 0%nat by lia.
    reflexivity.
Qed.

Lemma feed_length (ls : list string) : (List.length (feed [] ls) <= 5)%nat.
Proof. rewrite feed_window, length_skipn. lia. Qed.

(** *** The answer is the first mode of the window *)

Lemma getOrZero_tally (freq : Freq) (l k : string) :
  getOrZero k (tally freq l) =
  (getOrZero k freq + count_occ string_dec [l] k)%nat.
Proof.
  unfold tally, getOrZero at 1 3. cbn [count_occ].
  destruct (string_dec l k) as [-> | Hne].
  - now rewrite get_set_same.
  - rewrite get_set_other by congruence. lia.
Qed.

Lemma tally_NoDup (freq : Freq) (l : string) :
  NoDup (map fst freq) -> NoDup (map fst (tally freq l)).
Proof.
  intros Hnd. unfold tally. rewrite set_key_list.
  destruct (get l freq) eqn:E; [ exact Hnd | ].
  apply get_none in E.
  apply NoDup_app; [ exact Hnd | repeat constructor; intros [] | ].
  intros a Ha [<- | []]. contradiction.
Qed.

Lemma snoc_split {A : Type} (ks before after : list A) (l g : A) :
  ks ++ [l] = before ++ g :: after ->
  (after = [] /\ g = l /\ before = ks) \/
  (exists after', after = after' ++ [l] /\ ks = before ++ g :: after').
Proof.
  intros H. destruct after as [ | a0 after0].
  - left. apply app_inj_tail in H as [-> ->]. auto.
  - right.
    destruct (@exists_last _ (a0 :: after0)) as (after' & a & Hlast);
      [ discriminate | ].
    rewrite Hlast in *. exists after'.
    change (before ++ g :: after' ++ [a])
      with (before ++ (g :: after') ++ [a]) in H.
    rewrite app_assoc in H. apply app_inj_tail in H as [-> ->]. auto.
Qed.

(** What the frequency object holds once the window has been scanned: one
    entry per label, with its number of occurrences, in the order in which
    the labels first occur. *)
Lemma tally_fold_spec (w : list string) :
  let es := fold_left tally w [] in
  NoDup (map fst es) /\
  (forall k, getOrZero k es = count_occ string_dec w k) /\
  (forall before g after,
     map fst es = before ++ g :: after ->
     exists w1 w2, w = w1 ++ g :: w2 /\ forall k, In k w1 -> In k before).
Proof.
  induction w as [ | l w IH] using rev_ind; cbv zeta.
  - cbn. split; [ constructor | split; [ reflexivity | ] ].
    intros [ | ? ?] g after H; discriminate H.
  - destruct IH as (Hnd & Hcount & Horder).
    rewrite fold_left_app. cbn [fold_left].
    set (es := fold_left tally w []) in *.
    split; [ now apply tally_NoDup | ].
    split.
    + intros k. rewrite getOrZero_tally, Hcount, count_occ_app. reflexivity.
    + intros before g after Hsplit.
      unfold tally in Hsplit. rewrite set_key_list in Hsplit.
      destruct (get l es) eqn:E.
      * destruct (Horder _ _ _ Hsplit) as (w1 & w2 & -> & Hincl).
        exists w1, (w2 ++ [l]). split; [ | exact Hincl ].
        now rewrite <- app_assoc.
      * apply snoc_split in Hsplit
          as [(-> & -> & ->) | (after' & -> & Hsplit)].
        -- exists w, []. split; [ reflexivity | ].
           intros k Hk. apply (tally_fold_keys w [] k). now right.
        -- destruct (Horder _ _ _ Hsplit) as (w1 & w2 & -> & Hincl).
           exists w1, (w2 ++ [l]). split; [ | exact Hincl ].
           now rewrite <- app_assoc.
Qed.

(** The stable sort puts in front the first entry of greatest count. *)
Lemma sort_first_max (es : list (string * nat)) (e : string * nat)
  (s : list (string * nat)) :
  sort byCountDesc es = e :: s ->
  exists before after,
    es = before ++ e :: after /\
    (forall e', In e' before -> (snd e' < snd e)%nat) /\
    (forall e', In e' after -> (snd e' <= snd e)%nat).
Proof.
  revert e s. induction es as [ | a es IH]; intros e s H;
    [ discriminate H | ].
  cbn [sort fold_right] in H. fold (sort byCountDesc es) in H.
  destruct (sort byCountDesc es) as [ | e0 s0] eqn:E.
  - destruct es as [ | b es'].
    + cbn in H. injection H as <- <-.
      exists [], []. repeat split; intros ? [].
    + exfalso. revert E. apply sort_nonempty. discriminate.
  - destruct (IH _ _ eq_refl) as (before & after & -> & Hb & Ha).
    cbn [insert] in H. unfold byCountDesc at 1 in H.
    destruct (0 <? Z.of_nat (snd e0) - Z.of_nat (snd a))%Z eqn:C.
    + injection H as <- <-. apply Z.ltb_lt in C.
      exists (a :: before), after. split; [ reflexivity | ].
      split; [ | exact Ha ].
      intros e' [<- | Hin]; [ lia | now apply Hb ].
    + injection H as <- <-. apply Z.ltb_ge in C.
      exists [], (before ++ e0 :: after). split; [ reflexivity | ].
      split; [ intros ? [] | ].
      intros e' Hin. apply in_app_or in Hin as [Hin | [<- | Hin]].
      * specialize (Hb _ Hin). lia.
      * lia.
      * specialize (Ha _ Hin). lia.
Qed.

(** A push answers with a mode of the window, and among the modes with the
    one that occurs first: every label met before it, scanning the window
    from its oldest entry, occurs strictly less often. *)
Lemma stableGesture_first_mode (buffer : list string) (label : string)
  (n : nat) (g : string) :
  snd (stableGesture buffer label n) = Some g ->
  let w := fst (stableGesture buffer label n) in
  (forall k, (count_occ string_dec w k <= count_occ string_dec w g)%nat) /\
  (exists w1 w2,
     w = w1 ++ g :: w2 /\
     forall k, In k w1 ->
       (count_occ string_dec w k < count_occ string_dec w g)%nat).
Proof.
  unfold stableGesture. cbn [fst snd].
  set (w := if (n <? List.length (buffer ++ [label]))%nat
            then tl (buffer ++ [label]) else buffer ++ [label]).
  destruct (tally_fold_spec w) as (Hnd & Hcount & Horder).
  unfold entries.
  set (es := fold_left tally w []) in *.
  destruct (sort byCountDesc es) as [ | e s] eqn:E; [ discriminate | ].
  intros Hg. injection Hg as <-.
  destruct (@sort_first_max es e s E) as (before & after & Hes & Hb & Ha).
  assert (Hentry : forall k c, In (k, c) es -> c = count_occ string_dec w k).
  { intros k c Hin. rewrite <- Hcount. unfold getOrZero.
    now rewrite (@get_In k c es Hnd Hin). }
  assert (He : snd e = count_occ string_dec w (fst e)).
  { apply Hentry. rewrite Hes, <- surjective_pairing.
    apply in_or_app. right. now left. }
  split.
  - intros k. rewrite <- He.
    destruct (in_dec string_dec k w) as [Hk | Hk].
    + assert (Hkey : In k (map fst es))
        by (apply (tally_fold_keys w [] k); now right).
      apply in_map_iff in Hkey as ([k' c] & Hfst & Hin).
      cbn in Hfst. subst k'.
      rewrite <- (Hentry _ _ Hin).
      rewrite Hes in Hin. apply in_app_or in Hin as [Hin | [Heq | Hin]].
      * specialize (Hb _ Hin). cbn in Hb. lia.
      * rewrite Heq. cbn. lia.
      * specialize (Ha _ Hin). cbn in Ha. lia.
    + apply (count_occ_not_In string_dec) in Hk. rewrite Hk. lia.
  - assert (Hkeys : map fst es = map fst before ++ fst e :: map fst after)
      by (rewrite Hes, map_app; reflexivity).
    destruct (Horder _ _ _ Hkeys) as (w1 & w2 & Hw & Hincl).
    exists w1, w2. split; [ exact Hw | ].
    intros k Hk. apply Hincl in Hk.
    apply in_map_iff in Hk as ([k' c] & Hfst & Hin).
    cbn in Hfst. subst k'.
    rewrite <- He. specialize (Hb _ Hin). cbn in Hb.
    rewrite <- (Hentry k c); [ exact Hb | ].
    rewrite Hes. apply in_or_app. now left.
Qed.

End StabilizerFacts.

Module StabilizerClaims.
Import JsObject JsObjectFacts Detector StabilizerFacts.
Import Geometry.

Lemma tally_new (l : string) : tally [] l = [(l, 1%nat)].
Proof. reflexivity. Qed.

Lemma tally_head (l : string) (c : nat) (rest : Freq) :
  tally ((l, c) :: rest) l = (l, (c + 1)%nat) :: rest.
Proof.
  unfold tally, getOrZero. cbn [get set]. now rewrite String.eqb_refl.
Qed.

Lemma tally_skip (k l : string) (c : nat) (rest : Freq) :
  k <> l -> tally ((k, c) :: rest) l = (k, c) :: tally rest l.
Proof.
  intros Hkl. unfold tally, getOrZero. cbn [get set].
  apply String.eqb_neq in Hkl. now rewrite Hkl.
Qed.

(** C4. From an empty history and with capacity 4, pushing a, b, a, b (two
    distinct labels) leaves the window [a; b; a; b], in which both labels
    occur twice, and the fourth push answers a.  In general a push answers
    with a label of greatest frequency in the window, and every label met
    before its first occurrence, scanning the window from the oldest entry,
    is strictly less frequent: of the labels tied at the maximum the one
    that appears first wins. *)
Theorem tie_goes_to_first_seen (a b : string) :
  isLabel a -> isLabel b -> a <> b ->
  (let s1 := stableGesture [] a 4 in
   let s2 := stableGesture (fst s1) b 4 in
   let s3 := stableGesture (fst s2) a 4 in
   let s4 := stableGesture (fst s3) b 4 in
   fst s4 = [a; b; a; b] /\ snd s4 = Some a) /\
  (forall (buffer : list string) (label : string) (n : nat) (g : string),
     Forall isLabel buffer -> isLabel label ->
     snd (stableGesture buffer label n) = Some g ->
     let w := fst (stableGesture buffer label n) in
     (forall k, (count_occ string_dec w k <= count_occ string_dec w g)%nat) /\
     (exists w1 w2,
        w = w1 ++ g :: w2 /\
        forall k, In k w1 ->
          (count_occ string_dec w k < count_occ string_dec w g)%nat)).
Proof.
  intros _ _ Hab. split.
  - cbv zeta.
    rewrite !stableGesture_buffer. cbn [app List.length Nat.ltb Nat.leb tl].
    split; [ reflexivity | ].
    unfold stableGesture.
    cbn [app List.length Nat.ltb Nat.leb tl snd fold_left].
    rewrite tally_new, (tally_skip _ _ Hab), tally_new.
    rewrite tally_head.
    rewrite (tally_skip _ _ Hab), tally_head.
    reflexivity.
  - intros buffer label n g _ _. apply stableGesture_first_mode.
Qed.

Lemma five_pushes_from (h : list string) (l : string) :
  (List.length h <= 5)%nat ->
  let s1 := stableGesture h l defaultN in
  let s2 := stableGesture (fst s1) l defaultN in
  let s3 := stableGesture (fst s2) l defaultN in
  let s4 := stableGesture (fst s3) l defaultN in
  let s5 := stableGesture (fst s4) l defaultN in
  fst s5 = [l; l; l; l; l] /\ snd s5 = Some l.
Proof.
  intros Hlen. cbv zeta.
  assert (Hfive : fst (stableGesture (fst (stableGesture (fst (stableGesture
            (fst (stableGesture (fst (stableGesture h l defaultN)) l defaultN))
            l defaultN)) l defaultN)) l defaultN) = [l; l; l; l; l]).
  { rewrite !stableGesture_buffer. unfold defaultN.
    do 6 (destruct h as [ | ? h]; [ reflexivity | ]).
    cbn in Hlen. lia. }
  split; [ exact Hfive | ].
  unfold stableGesture at 1. cbn [snd].
  unfold stableGesture at 1 in Hfive. cbn [fst] in Hfive. rewrite Hfive.
  cbn [fold_left]. rewrite tally_new, !tally_head. reflexivity.
Qed.

(** C6. Whatever labels were pushed before, pushing the label l five times
    in a row leaves a window that holds l only, and the fifth push answers
    l. *)
Theorem five_pushes_settle (ls : list string) (l : string) :
  Forall isLabel ls -> isLabel l ->
  let s1 := stableGesture (feed [] ls) l defaultN in
  let s2 := stableGesture (fst s1) l defaultN in
  let s3 := stableGesture (fst s2) l defaultN in
  let s4 := stableGesture (fst s3) l defaultN in
  let s5 := stableGesture (fst s4) l defaultN in
  fst s5 = [l; l; l; l; l] /\ snd s5 = Some l.
Proof.
  intros _ _. apply five_pushes_from. apply feed_length.
Qed.

Lemma five_pushes_settle_witness :
  let ls := ["rock"; "rock"; "paper"; "rock"; "unknown"; "rock"; "spock"]%string in
  let l := "lizard"%string in
  Forall isLabel ls /\ isLabel l /\
  snd (stableGesture (fst (stableGesture (fst (stableGesture (fst
    (stableGesture (fst (stableGesture (feed [] ls) l defaultN)) l defaultN))
    l defaultN)) l defaultN)) l defaultN) = Some l.
Proof.
  intros ls l.
  assert (Hls : Forall isLabel ls)
    by (repeat constructor; unfold isLabel, labels; cbn; tauto).
  assert (Hl : isLabel l) by (unfold isLabel, labels; cbn; tauto).
  split; [ exact Hls | split; [ exact Hl | ] ].
  exact (proj2 (@five_pushes_settle ls l Hls Hl)).
Defined.

Lemma tie_goes_to_first_seen_witness :
  isLabel "rock"%string /\ isLabel "paper"%string /\
  snd (stableGesture (fst (stableGesture (fst (stableGesture (fst
    (stableGesture [] "rock" 4)) "paper" 4)) "rock" 4)) "paper" 4)
  = Some "rock"%string.
Proof.
  assert (Ha : isLabel "rock"%string) by (unfold isLabel, labels; cbn; tauto).
  assert (Hb : isLabel "paper"%string) by (unfold isLabel, labels; cbn; tauto).
  split; [ exact Ha | split; [ exact Hb | ] ].
  refine (proj2 (proj1 (@tie_goes_to_first_seen "rock" "paper" Ha Hb _))).
  discriminate.
Defined.

(** C8. After every push the buffer holds at most five labels, namely the
    last five pushed, and the label answered is one of them; the first push
    answers its own argument. *)
Theorem stable_label_in_window (ls : list string) (l : string) :
  Forall isLabel ls -> isLabel l ->
  let s := stableGesture (feed [] ls) l defaultN in
  (List.length (fst s) <= 5)%nat /\
  fst s = skipn (List.length (ls ++ [l]) - 5) (ls ++ [l]) /\
  (exists g, snd s = Some g /\ In g (fst s)) /\
  stableGesture [] l defaultN = ([l], Some l).
Proof.
  intros _ _. cbv zeta.
  rewrite <- feed_snoc.
  split; [ apply feed_length | ].
  split; [ apply feed_window | ].
  split; [ | reflexivity ].
  rewrite feed_snoc. apply stableGesture_member.
  rewrite <- feed_snoc, feed_window.
  intros H. apply (f_equal (@List.length string)) in H.
  rewrite length_skipn, length_app in H. cbn in H. lia.
Qed.

Lemma stable_label_in_window_witness :
  let ls := ["rock"; "paper"; "paper"; "spock"; "rock"; "lizard"]%string in
  let l := "scissors"%string in
  Forall isLabel ls /\ isLabel l /\
  fst (stableGesture (feed [] ls) l defaultN) =
  ["paper"; "spock"; "rock"; "lizard"; "scissors"]%string.
Proof.
  intros ls l.
  assert (Hls : Forall isLabel ls)
    by (repeat constructor; unfold isLabel, labels; cbn; tauto).
  assert (Hl : isLabel l) by (unfold isLabel, labels; cbn; tauto).
  split; [ exact Hls | split; [ exact Hl | ] ].
  exact (proj1 (proj2 (@stable_label_in_window ls l Hls Hl))).
Defined.

End StabilizerClaims.

(** ** The two versions of the detector *)

Module PipelineFacts.

Lemma stableGesture_same (buffer : list string) (label : string) (n : nat) :
  Detector.stableGesture buffer label n =
  GameDetector.stableGesture buffer label n.
Proof. reflexivity. Qed.

(** With the same [classifySign] imported, the gesture paths of the two
    versions of the detector agree on every input. *)
Lemma onFrame_same (classifySign : Classifier) (s : GestureView)
  (result : list (list ClassifySign.NormalizedLandmark)) :
  Detector.onFrame classifySign s result =
  GameDetector.onFrame classifySign s result.
Proof.
  destruct result as [ | landmarks rest]; [ reflexivity | ].
  cbn [Detector.onFrame GameDetector.onFrame].
  destruct (classifySign landmarks) as [[label m] | ];
    [ | reflexivity ].
  cbn [bind fst snd].
  now rewrite stableGesture_same.
Qed.

End PipelineFacts.

(** ** The round outcome *)

Module GameFacts.
Import GameDetector.

(** C10. [decideOutcome] is a strict tournament on the five gestures: a
    gesture ties with itself, and of two distinct gestures exactly one wins,
    the player winning one way round exactly when the computer wins the
    other way round. *)
Theorem decideOutcome_tournament (g1 g2 : Gesture) :
  decideOutcome g1 g1 = tie /\
  (g1 <> g2 ->
   decideOutcome g1 g2 <> tie /\
   (decideOutcome g1 g2 = player <-> decideOutcome g2 g1 = computer)).
Proof.
  split.
  - destruct g1; reflexivity.
  - intros Hne.
    destruct g1, g2; try congruence; cbv; (split; [ | split ]); congruence.
Qed.

Lemma decideOutcome_tournament_witness :
  rock <> paper /\
  decideOutcome rock paper <> tie /\
  (decideOutcome rock paper = player <-> decideOutcome paper rock = computer).
Proof.
  assert (Hne : rock <> paper) by discriminate.
  split; [ exact Hne | ].
  exact (proj2 (decideOutcome_tournament rock paper) Hne).
Defined.

End GameFacts.

(** * Further properties *)

(** ** The classifier on poses of any length *)

Module ClassifyMore.
Import Num NumFacts ClassifySign Geometry ClassifyFacts Poses.
Local Open Scope R_scope.
Local Open Scope string_scope.

Ltac indices :=
  unfold WRIST, TIP_i, TIP_m, TIP_r, TIP_p, TIP_t,
    PIP_i, PIP_m, PIP_r, PIP_p, INDEX_MCP; lia.

Lemma extract_defined (l : list NormalizedLandmark) :
  (21 <= List.length l)%nat -> extract l = Some (metricsOf l).
Proof.
  intros Hlen. unfold extract.
  rewrite !fartherThan_some by indices. cbn [bind].
  rewrite (@dist_some l TIP_t INDEX_MCP) by indices. cbn [bind].
  rewrite norm_some. cbn [bind].
  rewrite (@dist_some l TIP_i TIP_m) by indices. cbn [bind].
  rewrite norm_some. cbn [bind].
  rewrite (@dist_some l TIP_m TIP_r) by indices. cbn [bind].
  rewrite norm_some. cbn [bind].
  rewrite (@dist_some l TIP_r TIP_p) by indices. cbn [bind].
  rewrite norm_some. cbn [bind].
  rewrite !v_some by indices.
  set (gIM := normalized l (distance l TIP_i TIP_m)).
  set (gMR := normalized l (distance l TIP_m TIP_r)).
  set (gRP := normalized l (distance l TIP_r TIP_p)).
  set (mean := (gIM + gMR + gRP) / 3).
  assert (Hden : Rmax 1e-6 ((gIM + gRP) / 2) <> 0).
  { pose proof (Rmax_l 1e-6 ((gIM + gRP) / 2)). lra. }
  unfold metricsOf. fold gIM gMR gRP. fold mean.
  destruct (gtb mean 0) eqn:Hmean.
  - apply gtb_true in Hmean.
    rewrite (@div_some _ mean) by lra. cbn [bind].
    rewrite div_some by exact Hden. reflexivity.
  - cbn [bind]. rewrite div_some by exact Hden. reflexivity.
Qed.

Lemma decide_defined (l : list NormalizedLandmark) (m : SignMetrics) :
  (21 <= List.length l)%nat -> decide l m = Some (labelOf l m).
Proof.
  intros Hlen. unfold decide, labelOf.
  assert (Hs : ruleScissors l m = Some (scissorsOf l m)).
  { unfold ruleScissors, scissorsOf.
    destruct (indexExt m && middleExt m && negb (ringExt m) &&
              negb (pinkyExt m)); [ | reflexivity ].
    rewrite !bent_some by indices. cbn [bind].
    destruct (ltb (margin l TIP_r PIP_r) 0.03); reflexivity. }
  rewrite Hs. cbn [bind].
  destruct (scissorsOf l m); [ reflexivity | ].
  destruct (ruleSpock m); [ reflexivity | ].
  destruct (rulePaper m); [ reflexivity | ].
  destruct (ruleRock m); [ reflexivity | ].
  destruct (ruleLizard m); [ reflexivity | ].
  destruct (tieSpock m); [ reflexivity | ].
  destruct (tieLizard m); reflexivity.
Qed.

Lemma classifySign_defined (l : list NormalizedLandmark) :
  (21 <= List.length l)%nat ->
  classifySign l = Some (labelOf l (metricsOf l), metricsOf l).
Proof.
  intros Hlen. unfold classifySign.
  rewrite extract_defined by assumption. cbn [bind].
  now rewrite decide_defined.
Qed.

Lemma classifySign_short (l : list NormalizedLandmark) :
  (List.length l < 21)%nat -> classifySign l = None.
Proof.
  intros Hlen. unfold classifySign, extract.
  destruct (fartherThan l TIP_i PIP_i); [ cbn [bind] | reflexivity ].
  destruct (fartherThan l TIP_m PIP_m); [ cbn [bind] | reflexivity ].
  destruct (fartherThan l TIP_r PIP_r); [ cbn [bind] | reflexivity ].
  assert (Hp : fartherThan l TIP_p PIP_p = None).
  { unfold fartherThan, dist, at_, TIP_p.
    assert (Hnone : nth_error l 20 = None) by (apply nth_error_None; lia).
    now rewrite Hnone. }
  now rewrite Hp.
Qed.

(** X1. [classifySign] fails exactly on the poses of fewer than 21
    landmarks: a pose of 21 landmarks or more is always classified, with
    the bundle and the label of the total counterparts. *)
Theorem classifySign_fails_iff_short (l : list NormalizedLandmark) :
  (classifySign l = None <-> (List.length l < 21)%nat) /\
  ((21 <= List.length l)%nat ->
   classifySign l = Some (labelOf l (metricsOf l), metricsOf l)).
Proof.
  split; [ | apply classifySign_defined ].
  split.
  - intros Hnone.
    destruct (Nat.lt_ge_cases (List.length l) 21) as [H | H]; [ exact H | ].
    rewrite classifySign_defined in Hnone by exact H. discriminate.
  - apply classifySign_short.
Qed.

Lemma classifySign_fails_iff_short_witness :
  (21 <= List.length (poseDuck ++ [mkLandmark 0 0]))%nat /\
  exists r, classifySign (poseDuck ++ [mkLandmark 0 0]) = Some r.
Proof.
  assert (H : (21 <= List.length (poseDuck ++ [mkLandmark 0 0]))%nat)
    by (cbn; lia).
  split; [ exact H | ].
  eexists.
  exact (proj2 (classifySign_fails_iff_short (poseDuck ++ [mkLandmark 0 0])) H).
Defined.

Lemma classifySign_result (l : list NormalizedLandmark) (label : string)
  (m : SignMetrics) :
  classifySign l = Some (label, m) ->
  (21 <= List.length l)%nat /\ m = metricsOf l /\ label = labelOf l m.
Proof.
  intros H.
  destruct (Nat.lt_ge_cases (List.length l) 21) as [Hs | Hs].
  - rewrite classifySign_short in H by exact Hs. discriminate.
  - rewrite classifySign_defined in H by exact Hs.
    injection H as <- <-. auto.
Qed.

Lemma distance_nonneg (l : list NormalizedLandmark) (a b : nat) :
  0 <= distance l a b.
Proof. apply hypot_nonneg. Qed.

Lemma normalized_nonneg (l : list NormalizedLandmark) (d : R) :
  0 <= d -> 0 <= normalized l d.
Proof.
  intros Hd. unfold normalized. pose proof (scale_pos l).
  apply Rmult_le_pos; [ exact Hd | ].
  apply Rlt_le. now apply Rinv_0_lt_compat.
Qed.

Lemma clamp_range (v a b : R) : a <= b -> a <= clamp v a b <= b.
Proof.
  intros Hab. unfold clamp. split.
  - apply Rmax_l.
  - apply Rmax_lub; [ exact Hab | apply Rmin_l ].
Qed.

(** X2. Every bundle that [classifySign] returns has non-negative gaps,
    thumb distance, spread ratio and coefficient of variation, a direction
    cosine between -1 and 1, and an [extendedCount] that is the number of
    extension flags set, hence at most 4. *)
Theorem bundle_ranges (l : list NormalizedLandmark) (label : string)
  (m : SignMetrics) :
  classifySign l = Some (label, m) ->
  0 <= gapIM m /\ 0 <= gapMR m /\ 0 <= gapRP m /\
  0 <= thumbToIndexMCP m /\ 0 <= spockRatio m /\ 0 <= cv m /\
  -1 <= cosIM m <= 1 /\
  (extendedCount m <= 4)%nat /\
  extendedCount m =
    (Number (indexExt m) + Number (middleExt m) +
     Number (ringExt m) + Number (pinkyExt m))%nat.
Proof.
  intros H. apply classifySign_result in H as (_ & -> & _).
  unfold metricsOf.
  cbn [gapIM gapMR gapRP thumbToIndexMCP spockRatio cv cosIM extendedCount
       indexExt middleExt ringExt pinkyExt].
  set (gIM := normalized l (distance l TIP_i TIP_m)).
  set (gMR := normalized l (distance l TIP_m TIP_r)).
  set (gRP := normalized l (distance l TIP_r TIP_p)).
  assert (HIM : 0 <= gIM) by (apply normalized_nonneg, distance_nonneg).
  assert (HMR : 0 <= gMR) by (apply normalized_nonneg, distance_nonneg).
  assert (HRP : 0 <= gRP) by (apply normalized_nonneg, distance_nonneg).
  repeat split; try assumption.
  - apply normalized_nonneg, distance_nonneg.
  - pose proof (Rmax_l 1e-6 ((gIM + gRP) / 2)).
    apply Rmult_le_pos; [ exact HMR | ].
    apply Rlt_le, Rinv_0_lt_compat. lra.
  - destruct (gtb ((gIM + gMR + gRP) / 3) 0) eqn:E; [ | lra ].
    apply gtb_true in E.
    apply Rmult_le_pos; [ apply sqrt_pos | ].
    apply Rlt_le. now apply Rinv_0_lt_compat.
  - apply clamp_range. lra.
  - apply clamp_range. lra.
  - destruct (gtb (margin l TIP_i PIP_i) 0.07),
      (gtb (margin l TIP_m PIP_m) 0.07),
      (gtb (margin l TIP_r PIP_r) 0.07),
      (gtb (margin l TIP_p PIP_p) 0.07); cbn; lia.
Qed.

Lemma bundle_ranges_witness :
  exists label m,
    classifySign poseDuck = Some (label, m) /\ -1 <= cosIM m <= 1.
Proof.
  exists (labelOf poseDuck (metricsOf poseDuck)), (metricsOf poseDuck).
  assert (H : classifySign poseDuck =
              Some (labelOf poseDuck (metricsOf poseDuck), metricsOf poseDuck))
    by (apply classifySign_some; reflexivity).
  split; [ exact H | ].
  exact (proj1 (proj2 (proj2 (proj2 (proj2 (proj2 (proj2
    (@bundle_ranges _ _ _ H)))))))).
Defined.

(** ** What each label means *)

Ltac to_props :=
  repeat match goal with
  | H : _ && _ = true |- _ => apply andb_true_iff in H; destruct H
  | H : _ || _ = false |- _ => apply orb_false_iff in H; destruct H
  | H : negb _ = true |- _ => apply negb_true_iff in H
  | H : negb _ = false |- _ => apply negb_false_iff in H
  | H : ltb _ _ = true |- _ => apply ltb_true in H
  | H : ltb _ _ = false |- _ => apply ltb_false in H
  | H : leb _ _ = true |- _ => apply leb_true in H
  | H : leb _ _ = false |- _ => apply leb_false in H
  | H : gtb _ _ = true |- _ => apply gtb_true in H
  | H : gtb _ _ = false |- _ => apply gtb_false in H
  | H : geb _ _ = true |- _ => apply geb_true in H
  | H : (_ =? _)%nat = true |- _ => apply Nat.eqb_eq in H
  | H : (_ =? _)%nat = false |- _ => apply Nat.eqb_neq in H
  | H : (_ <=? _)%nat = true |- _ => apply Nat.leb_le in H
  | H : (_ <=? _)%nat = false |- _ => apply Nat.leb_gt in H
  end.

Ltac split_false :=
  repeat match goal with
  | H : _ && _ = false |- _ => apply andb_false_iff in H; destruct H
  | H : _ || _ = true |- _ => apply orb_true_iff in H; destruct H
  end.

Ltac by_cases :=
  repeat match goal with
  | |- context [if ?b then _ else _] => destruct b eqn:?
  end.

Ltac thresholds :=
  unfold T.scissorsIMMaxGap, T.scissorsCosMin, T.paperCV, T.spockRatio,
    T.spockGapMR, T.pairTight in *.

(** The flags of a returned bundle, as facts about its numbers. *)
Lemma bundle_flags (l : list NormalizedLandmark) (label : string)
  (m : SignMetrics) :
  classifySign l = Some (label, m) ->
  thumbOut m = gtb (thumbToIndexMCP m) 0.34 /\
  thumbAlong m = ltb (thumbToIndexMCP m) 0.28 /\
  extendedCount m =
    (Number (indexExt m) + Number (middleExt m) +
     Number (ringExt m) + Number (pinkyExt m))%nat /\
  exists sc, ruleScissors l m = Some sc /\
    (sc = true ->
     indexExt m = true /\ middleExt m = true /\
     ringExt m = false /\ pinkyExt m = false) /\
    label =
      if sc then "scissors"
      else if ruleSpock m then "spock"
      else if rulePaper m then "paper"
      else if ruleRock m then "rock"
      else if ruleLizard m then "lizard"
      else if tieSpock m then "spock"
      else if tieLizard m then "lizard"
      else "unknown".
Proof.
  intros H. apply classifySign_inv in H as [He Hd].
  apply extract_fields in He as (Ho & Ha & Hc).
  repeat split; try assumption.
  unfold decide in Hd.
  destruct (ruleScissors l m) as [sc | ] eqn:Hs; [ | discriminate Hd ].
  cbn [bind] in Hd. exists sc. split; [ reflexivity | ]. split.
  - intros ->. unfold ruleScissors in Hs.
    destruct (indexExt m), (middleExt m), (ringExt m), (pinkyExt m);
      cbn in Hs; try discriminate Hs; auto.
  - destruct sc; [ congruence | ].
    by_cases; congruence.
Qed.

(** The list of rules with the primary spock rule and the dedicated lizard
    rule left out gives the same label. *)
Lemma label_cases (l : list NormalizedLandmark) (label : string)
  (m : SignMetrics) :
  classifySign l = Some (label, m) ->
  exists sc, ruleScissors l m = Some sc /\
    (sc = true -> extendedCount m = 2%nat) /\
    label =
      if sc then "scissors"
      else if (extendedCount m =? 4)%nat && gtb (thumbToIndexMCP m) 0.34 &&
              gtb (spockRatio m) 1.35 && gtb (gapMR m) 0.20 then "spock"
      else if (extendedCount m =? 4)%nat && ltb (cv m) 0.22 &&
              leb (spockRatio m) 1.6 && ltb (thumbToIndexMCP m) 0.28
           then "paper"
      else if (extendedCount m <=? 1)%nat && leb (thumbToIndexMCP m) 0.34
           then "rock"
      else if (extendedCount m <=? 2)%nat && gtb (thumbToIndexMCP m) 0.34
           then "lizard"
      else "unknown".
Proof.
  intros H.
  destruct (@bundle_flags _ _ _ H)
    as (Ho & Ha & Hc & sc & Hs & Hflags & Hlabel).
  exists sc. split; [ exact Hs | ]. split.
  - intros Hsc. destruct (Hflags Hsc) as (Hi & Hm & Hr & Hp).
    rewrite Hc, Hi, Hm, Hr, Hp. reflexivity.
  - rewrite Hlabel. destruct sc; [ reflexivity | ].
    unfold ruleSpock, rulePaper, ruleRock, ruleLizard, tieSpock, tieLizard.
    rewrite Ho, Ha, Hc. thresholds.
    destruct (indexExt m), (middleExt m), (ringExt m), (pinkyExt m);
      cbn [Number Nat.add Nat.eqb Nat.leb andb orb negb];
      by_cases; try reflexivity; to_props; split_false; to_props;
      try lra; try discriminate.
Qed.

Ltac settle_label H :=
  let sc := fresh "sc" in
  let Hs := fresh "Hs" in
  let Hsc := fresh "Hsc" in
  destruct (@label_cases _ _ _ H) as (sc & Hs & Hsc & ->);
  destruct sc;
  [ specialize (Hsc eq_refl) | clear Hsc; by_cases; to_props ].

(** X3. The label is rock exactly when at most one finger is extended and
    the normalized thumb distance is at most 0.34. *)
Theorem rock_iff (l : list NormalizedLandmark) (label : string)
  (m : SignMetrics) :
  classifySign l = Some (label, m) ->
  (label = "rock" <->
   (extendedCount m <= 1)%nat /\ thumbToIndexMCP m <= 0.34).
Proof.
  intros H. settle_label H;
    (split; [ intros E; try discriminate E | intros [Hc Ht] ]);
    try (split; assumption); try reflexivity;
    split_false; to_props; try lia; try lra.
Qed.

(** X4. The label is paper exactly when all four fingers are extended, the
    coefficient of variation of the gaps is below 0.22, the spread ratio is
    at most 1.6 and the normalized thumb distance is below 0.28. *)
Theorem paper_iff (l : list NormalizedLandmark) (label : string)
  (m : SignMetrics) :
  classifySign l = Some (label, m) ->
  (label = "paper" <->
   extendedCount m = 4%nat /\ cv m < 0.22 /\ spockRatio m <= 1.6 /\
   thumbToIndexMCP m < 0.28).
Proof.
  intros H. settle_label H;
    (split; [ intros E; try discriminate E | intros (Hc & Hv & Hr & Ht) ]);
    try (repeat split; assumption); try reflexivity;
    split_false; to_props; try lia; try lra.
Qed.

(** X5. The label is spock exactly when all four fingers are extended, the
    normalized thumb distance exceeds 0.34, the spread ratio exceeds 1.35
    and the middle-ring gap exceeds 0.20: the primary spock rule, with its
    bounds 1.6, 0.24 and 0.23, never decides a label that the spock
    tie-break would not give. *)
Theorem spock_iff (l : list NormalizedLandmark) (label : string)
  (m : SignMetrics) :
  classifySign l = Some (label, m) ->
  (label = "spock" <->
   extendedCount m = 4%nat /\ 0.34 < thumbToIndexMCP m /\
   1.35 < spockRatio m /\ 0.20 < gapMR m).
Proof.
  intros H. settle_label H;
    (split; [ intros E; try discriminate E | intros (Hc & Ht & Hr & Hg) ]);
    try (repeat split; assumption); try reflexivity;
    split_false; to_props; try lia; try lra.
Qed.

(** X6. The label is lizard exactly when the scissors rule does not match,
    at most two fingers are extended and the normalized thumb distance
    exceeds 0.34: which of the fingers are extended does not matter. *)
Theorem lizard_iff (l : list NormalizedLandmark) (label : string)
  (m : SignMetrics) :
  classifySign l = Some (label, m) ->
  (label = "lizard" <->
   ruleScissors l m = Some false /\
   (extendedCount m <= 2)%nat /\ 0.34 < thumbToIndexMCP m).
Proof.
  intros H.
  destruct (@label_cases _ _ _ H) as (sc & Hs & Hsc & ->).
  rewrite Hs.
  destruct sc;
    [ | clear Hsc; by_cases; to_props ];
    (split; [ intros E; try discriminate E | intros (Hc & Hn & Ht) ]);
    try discriminate Hc;
    try (repeat split; assumption); try reflexivity;
    split_false; to_props; try lia; try lra.
Qed.

(** X7. A pose with exactly three fingers extended is never recognised:
    the label is unknown. *)
Theorem three_fingers_unknown (l : list NormalizedLandmark) (label : string)
  (m : SignMetrics) :
  classifySign l = Some (label, m) ->
  extendedCount m = 3%nat -> label = "unknown".
Proof.
  intros H Hc. settle_label H; try reflexivity;
    split_false; to_props; try lia; try lra.
Qed.

(** X8. While the normalized thumb distance lies in the band from 0.28 to
    0.34 the label is scissors, rock or unknown, and it is rock exactly when
    at most one finger is extended. *)
Theorem thumb_band_labels (l : list NormalizedLandmark) (label : string)
  (m : SignMetrics) :
  classifySign l = Some (label, m) ->
  0.28 <= thumbToIndexMCP m <= 0.34 ->
  (label = "scissors" \/ label = "rock" \/ label = "unknown") /\
  (label = "rock" <-> (extendedCount m <= 1)%nat).
Proof.
  intros H Hband. settle_label H;
    (split; [ | split; [ intros E; try discriminate E | intros Hc ] ]);
    try tauto; try reflexivity;
    split_false; to_props; try lia; try lra.
Qed.

Ltac hand_values :=
  unfold metricsOf;
  cbn [gapIM gapMR gapRP thumbToIndexMCP spockRatio cv cosIM extendedCount
       indexExt middleExt ringExt pinkyExt thumbOut thumbAlong];
  rewrite ?hand_margin_index, ?hand_margin_middle, ?hand_margin_ring,
    ?hand_margin_pinky, ?hand_thumb, ?hand_gapIM, ?hand_gapMR, ?hand_gapRP
    by lra;
  absolute_values.

Lemma classified (l : list NormalizedLandmark) :
  List.length l = 21%nat ->
  classifySign l = Some (labelOf l (metricsOf l), metricsOf l).
Proof. apply classifySign_some. Qed.

Lemma rock_iff_witness :
  classifySign poseFist =
    Some (labelOf poseFist (metricsOf poseFist), metricsOf poseFist) /\
  labelOf poseFist (metricsOf poseFist) = "rock".
Proof.
  assert (H := @classified poseFist eq_refl).
  split; [ exact H | ].
  apply (proj2 (@rock_iff _ _ _ H)).
  unfold poseFist. hand_values. evaluate_flags. cbn [Number Nat.add].
  split; [ lia | lra ].
Defined.

Lemma paper_iff_witness :
  classifySign poseOpen =
    Some (labelOf poseOpen (metricsOf poseOpen), metricsOf poseOpen) /\
  labelOf poseOpen (metricsOf poseOpen) = "paper".
Proof.
  assert (H := @classified poseOpen eq_refl).
  split; [ exact H | ].
  apply (proj2 (@paper_iff _ _ _ H)).
  unfold poseOpen. hand_values. evaluate_flags. cbn [Number Nat.add].
  replace ((- (0.2 - 0.3) + - (0.3 - 0.4) + - (0.4 - 0.5)) / 3) with 0.1
    by lra.
  replace ((- (0.2 - 0.3) - 0.1) ^ 2 + (- (0.3 - 0.4) - 0.1) ^ 2 +
           (- (0.4 - 0.5) - 0.1) ^ 2) with 0 by (simpl; lra).
  replace (0 / 3) with 0 by lra. rewrite sqrt_0.
  replace ((- (0.2 - 0.3) + - (0.4 - 0.5)) / 2) with 0.1 by lra.
  rewrite Rmax_right by lra.
  split; [ reflexivity | ]. repeat split; lra.
Defined.

Lemma spock_iff_witness :
  classifySign poseSplit =
    Some (labelOf poseSplit (metricsOf poseSplit), metricsOf poseSplit) /\
  labelOf poseSplit (metricsOf poseSplit) = "spock".
Proof.
  assert (H := @classified poseSplit eq_refl).
  split; [ exact H | ].
  apply (proj2 (@spock_iff _ _ _ H)).
  unfold poseSplit. hand_values. evaluate_flags. cbn [Number Nat.add].
  replace ((- (0.2 - 0.25) + - (0.5 - 0.52)) / 2) with 0.035 by lra.
  rewrite Rmax_right by lra.
  split; [ reflexivity | ]. repeat split; lra.
Defined.

Lemma lizard_iff_witness :
  classifySign poseDuck =
    Some (labelOf poseDuck (metricsOf poseDuck), metricsOf poseDuck) /\
  labelOf poseDuck (metricsOf poseDuck) = "lizard".
Proof.
  assert (H := @classified poseDuck eq_refl).
  split; [ exact H | ].
  apply (proj2 (@lizard_iff _ _ _ H)).
  destruct poseDuck_flags as (Hi & Hm & Hr & Hp & Hd).
  split; [ | split ].
  - rewrite ruleScissors_some by reflexivity.
    unfold scissorsOf. now rewrite Hi, Hm.
  - unfold poseDuck. hand_values. evaluate_flags. cbn [Number Nat.add]. lia.
  - rewrite Hd. lra.
Defined.

Lemma three_fingers_unknown_witness :
  classifySign poseThree =
    Some (labelOf poseThree (metricsOf poseThree), metricsOf poseThree) /\
  extendedCount (metricsOf poseThree) = 3%nat /\
  labelOf poseThree (metricsOf poseThree) = "unknown".
Proof.
  assert (H := @classified poseThree eq_refl).
  assert (Hc : extendedCount (metricsOf poseThree) = 3%nat).
  { unfold poseThree. hand_values. evaluate_flags. reflexivity. }
  split; [ exact H | split; [ exact Hc | ] ].
  exact (@three_fingers_unknown _ _ _ H Hc).
Defined.

Lemma thumb_band_labels_witness :
  classifySign poseSoftThumb =
    Some (labelOf poseSoftThumb (metricsOf poseSoftThumb),
          metricsOf poseSoftThumb) /\
  0.28 <= thumbToIndexMCP (metricsOf poseSoftThumb) <= 0.34 /\
  labelOf poseSoftThumb (metricsOf poseSoftThumb) <> "rock".
Proof.
  assert (H := @classified poseSoftThumb eq_refl).
  destruct poseSoftThumb_flags as (_ & _ & _ & _ & Hd & _ & Hc).
  assert (Hband : 0.28 <= thumbToIndexMCP (metricsOf poseSoftThumb) <= 0.34)
    by (rewrite Hd; lra).
  split; [ exact H | split; [ exact Hband | ] ].
  intros E.
  apply (proj2 (@thumb_band_labels _ _ _ H Hband)) in E.
  rewrite Hc in E. lia.
Defined.

End ClassifyMore.

(** ** Bent fingers, and poses that are classified alike *)

Module Invariance.
Import Num NumFacts ClassifySign Geometry ClassifyFacts Poses ClassifyMore.
Local Open Scope R_scope.
Local Open Scope string_scope.

(** X9. A finger that [bent] finds definitely bent is not extended, and an
    extended finger is not bent: in the scissors rule the tests that ring
    and pinky are not extended follow from the tests that they are bent. *)
Theorem bent_excludes_extended (l : list NormalizedLandmark) (label : string)
  (m : SignMetrics) :
  classifySign l = Some (label, m) ->
  (bent l TIP_i PIP_i = Some true -> indexExt m = false) /\
  (bent l TIP_m PIP_m = Some true -> middleExt m = false) /\
  (bent l TIP_r PIP_r = Some true -> ringExt m = false) /\
  (bent l TIP_p PIP_p = Some true -> pinkyExt m = false) /\
  (indexExt m = true -> bent l TIP_i PIP_i = Some false) /\
  (middleExt m = true -> bent l TIP_m PIP_m = Some false) /\
  (ringExt m = true -> bent l TIP_r PIP_r = Some false) /\
  (pinkyExt m = true -> bent l TIP_p PIP_p = Some false).
Proof.
  intros H. apply classifySign_result in H as (Hlen & -> & _).
  rewrite !bent_some by indices.
  unfold metricsOf. cbn [indexExt middleExt ringExt pinkyExt].
  repeat split; intros E.
  1-4: injection E as E; apply ltb_true in E; apply gtb_false; lra.
  all: apply gtb_true in E; f_equal; apply ltb_false; lra.
Qed.

Lemma bent_excludes_extended_witness :
  classifySign poseScissors =
    Some (labelOf poseScissors (metricsOf poseScissors),
          metricsOf poseScissors) /\
  bent poseScissors TIP_r PIP_r = Some true /\
  ringExt (metricsOf poseScissors) = false.
Proof.
  assert (H := @classified poseScissors eq_refl).
  destruct poseScissors_bent as (HbR & _).
  split; [ exact H | split; [ exact HbR | ] ].
  exact (proj1 (proj2 (proj2 (@bent_excludes_extended _ _ _ H))) HbR).
Defined.

Section Alike.

Variables l l' : list NormalizedLandmark.
Variable k : R.
Hypothesis Hk : 0 < k.
Hypothesis Hlen : (21 <= List.length l)%nat.
Hypothesis Hlen' : List.length l' = List.length l.
Hypothesis Hscale : scale l' = k * scale l.
Hypothesis Hdist :
  forall a b, (a < 21)%nat -> (b < 21)%nat ->
    distance l' a b = k * distance l a b.
Hypothesis Hcos :
  fst (direction l' TIP_i PIP_i) * fst (direction l' TIP_m PIP_m) +
  snd (direction l' TIP_i PIP_i) * snd (direction l' TIP_m PIP_m) =
  fst (direction l TIP_i PIP_i) * fst (direction l TIP_m PIP_m) +
  snd (direction l TIP_i PIP_i) * snd (direction l TIP_m PIP_m).

Lemma alike_normalized (d : R) : normalized l' (k * d) = normalized l d.
Proof.
  unfold normalized. rewrite Hscale.
  pose proof (scale_pos l). field. split; lra.
Qed.

Lemma alike_gap (a b : nat) :
  (a < 21)%nat -> (b < 21)%nat ->
  normalized l' (distance l' a b) = normalized l (distance l a b).
Proof.
  intros Ha Hb. rewrite Hdist by assumption. apply alike_normalized.
Qed.

Lemma alike_margin (tip pip : nat) :
  (tip < 21)%nat -> (pip < 21)%nat -> margin l' tip pip = margin l tip pip.
Proof.
  intros Ht Hp. unfold margin, WRIST.
  rewrite !Hdist by lia.
  rewrite <- Rmult_minus_distr_l. apply alike_normalized.
Qed.

Lemma alike_metrics : metricsOf l' = metricsOf l.
Proof.
  unfold metricsOf.
  rewrite !alike_margin by indices.
  rewrite !alike_gap by indices.
  rewrite Hcos. reflexivity.
Qed.

Lemma alike_result : classifySign l' = classifySign l.
Proof.
  rewrite !classifySign_defined by lia.
  rewrite alike_metrics.
  unfold labelOf, scissorsOf.
  rewrite !alike_margin by indices.
  reflexivity.
Qed.

End Alike.

Lemma short_alike (l l' : list NormalizedLandmark) :
  List.length l' = List.length l -> (List.length l < 21)%nat ->
  classifySign l' = classifySign l.
Proof.
  intros Hlen Hshort. rewrite !classifySign_short by lia. reflexivity.
Qed.

Lemma extent_translated (t : R) (lo hi : option R) :
  extent (moveBound 1 t lo) (moveBound 1 t hi) = extent lo hi.
Proof.
  destruct lo, hi; cbn [moveBound extent]; try reflexivity.
  f_equal. ring.
Qed.

Lemma scale_translated (tx ty : R) (l : list NormalizedLandmark) :
  scale (transform 1 tx ty l) = 1 * scale l.
Proof.
  unfold scale. rewrite bbox_transform by lra.
  cbn [moveBBox minX minY maxX maxY].
  rewrite !extent_translated. ring.
Qed.

(** X10. A translation of the pose alone never changes the result of
    [classifySign], label and bundle alike, whatever the pose: no bound on
    the bounding box is needed, and a pose too short to classify stays so. *)
Theorem translation_invariant (tx ty : R) (l : list NormalizedLandmark) :
  classifySign (transform 1 tx ty l) = classifySign l.
Proof.
  assert (Hlen : List.length (transform 1 tx ty l) = List.length l)
    by apply transform_length.
  destruct (Nat.lt_ge_cases (List.length l) 21) as [Hs | Hs].
  - now apply short_alike.
  - apply (@alike_result l (transform 1 tx ty l) 1); try assumption; try lra.
    + apply scale_translated.
    + intros a b Ha Hb. apply distance_transform; [ lra | lia | lia ].
    + rewrite !direction_transform by (try lra; indices). reflexivity.
Qed.

(** X11. In exact arithmetic, under a uniform scaling by [k > 0] and a
    translation that keep the extents of the bounding box at least 1e-6
    before and after, the label that [classifySign] returns is unchanged as
    well as the bundle. *)
Theorem similarity_keeps_label (l : list NormalizedLandmark)
  (k tx ty x0 y0 x1 y1 : R) :
  bbox l =
    {| minX := Some x0; minY := Some y0; maxX := Some x1; maxY := Some y1 |} ->
  1e-6 <= x1 - x0 -> 1e-6 <= y1 - y0 ->
  0 < k ->
  1e-6 <= k * (x1 - x0) -> 1e-6 <= k * (y1 - y0) ->
  classifySign (transform k tx ty l) = classifySign l.
Proof.
  intros Hbox Hw Hh Hk Hkw Hkh.
  assert (Hlen : List.length (transform k tx ty l) = List.length l)
    by apply transform_length.
  destruct (Nat.lt_ge_cases (List.length l) 21) as [Hs | Hs].
  - now apply short_alike.
  - apply (@alike_result l (transform k tx ty l) k); try assumption.
    + now apply (@scale_transform k tx ty Hk l x0 y0 x1 y1).
    + intros a b Ha Hb. apply distance_transform; [ lra | lia | lia ].
    + rewrite !direction_transform by (try lra; indices). reflexivity.
Qed.

Lemma similarity_keeps_label_witness :
  classifySign (transform (1 / 2) 0.3 0.05 poseDuck) = classifySign poseDuck.
Proof.
  apply (@similarity_keeps_label poseDuck (1 / 2) 0.3 0.05 0.2 0.1 0.8 0.9);
    try lra.
  apply hand_bbox; lra.
Defined.

(** *** The mirrored pose *)

Lemma lower_mirror (c v : option R) (a : R) :
  c = option_map (fun t => 1 - t) v ->
  lower c (1 - a) = option_map (fun t => 1 - t) (raise v a).
Proof.
  intros ->. destruct v as [b | ]; cbn [option_map lower raise];
    [ | reflexivity ].
  destruct (gtb a b) eqn:E.
  - apply gtb_true in E. rewrite (proj2 (ltb_true _ _)) by lra. reflexivity.
  - apply gtb_false in E. rewrite (proj2 (ltb_false _ _)) by lra. reflexivity.
Qed.

Lemma raise_mirror (c v : option R) (a : R) :
  c = option_map (fun t => 1 - t) v ->
  raise c (1 - a) = option_map (fun t => 1 - t) (lower v a).
Proof.
  intros ->. destruct v as [b | ]; cbn [option_map lower raise];
    [ | reflexivity ].
  destruct (ltb a b) eqn:E.
  - apply ltb_true in E. rewrite (proj2 (gtb_true _ _)) by lra. reflexivity.
  - apply ltb_false in E. rewrite (proj2 (gtb_false _ _)) by lra. reflexivity.
Qed.

Lemma bbox_fold_mirror (l : list NormalizedLandmark) (b b' : BBox) :
  minX b' = option_map (fun t => 1 - t) (maxX b) ->
  maxX b' = option_map (fun t => 1 - t) (minX b) ->
  minY b' = minY b -> maxY b' = maxY b ->
  let r := fold_left bboxStep l b in
  let r' := fold_left bboxStep (mirrored l) b' in
  minX r' = option_map (fun t => 1 - t) (maxX r) /\
  maxX r' = option_map (fun t => 1 - t) (minX r) /\
  minY r' = minY r /\ maxY r' = maxY r.
Proof.
  revert b b'. induction l as [ | q l IH]; intros b b' H1 H2 H3 H4;
    cbv zeta; cbn [mirrored map fold_left]; [ auto | ].
  apply IH; unfold bboxStep, mirror; cbn [minX minY maxX maxY x y].
  - now apply lower_mirror.
  - now apply raise_mirror.
  - now rewrite H3.
  - now rewrite H4.
Qed.

Lemma scale_mirrored (l : list NormalizedLandmark) :
  scale (mirrored l) = 1 * scale l.
Proof.
  destruct (@bbox_fold_mirror l bboxInit bboxInit)
    as (H1 & H2 & H3 & H4); try reflexivity.
  unfold scale, bbox. rewrite H1, H2, H3, H4.
  assert (E : extent (option_map (fun t => 1 - t)
                        (maxX (fold_left bboxStep l bboxInit)))
                (option_map (fun t => 1 - t)
                   (minX (fold_left bboxStep l bboxInit))) =
              extent (minX (fold_left bboxStep l bboxInit))
                (maxX (fold_left bboxStep l bboxInit))).
  { destruct (minX (fold_left bboxStep l bboxInit)),
      (maxX (fold_left bboxStep l bboxInit));
      cbn [option_map extent]; try reflexivity.
    f_equal. ring. }
  rewrite E. ring.
Qed.

Lemma pt_mirrored (l : list NormalizedLandmark) (j : nat) :
  (j < List.length l)%nat -> pt (mirrored l) j = mirror (pt l j).
Proof.
  intros Hj. unfold pt, mirrored.
  rewrite (nth_indep _ _ (mirror (mkLandmark 0 0)))
    by (rewrite length_map; exact Hj).
  apply (map_nth mirror).
Qed.

Lemma hypot_flip (a b d : R) : hypot (1 - a - (1 - b)) d = hypot (a - b) d.
Proof. unfold hypot. f_equal. ring. Qed.

Lemma distance_mirrored (l : list NormalizedLandmark) (a b : nat) :
  (a < List.length l)%nat -> (b < List.length l)%nat ->
  distance (mirrored l) a b = 1 * distance l a b.
Proof.
  intros Ha Hb. unfold distance. rewrite !pt_mirrored by assumption.
  unfold mirror. cbn [x y]. rewrite hypot_flip. ring.
Qed.

Lemma direction_mirrored (l : list NormalizedLandmark) (a b : nat) :
  (a < List.length l)%nat -> (b < List.length l)%nat ->
  direction (mirrored l) a b =
  (- fst (direction l a b), snd (direction l a b)).
Proof.
  intros Ha Hb. unfold direction. rewrite !pt_mirrored by assumption.
  unfold mirror. cbn [x y fst snd]. cbv zeta.
  rewrite hypot_flip. cbn [fst snd].
  f_equal. unfold Rdiv. ring.
Qed.

(** X12. Mirroring the pose horizontally, as the display does, never
    changes the result of [classifySign]: a left and a right hand making the
    same sign get the same label and the same bundle. *)
Theorem mirror_invariant (l : list NormalizedLandmark) :
  classifySign (mirrored l) = classifySign l.
Proof.
  assert (Hlen : List.length (mirrored l) = List.length l)
    by apply length_map.
  destruct (Nat.lt_ge_cases (List.length l) 21) as [Hs | Hs].
  - now apply short_alike.
  - apply (@alike_result l (mirrored l) 1); try assumption; try lra.
    + apply scale_mirrored.
    + intros a b Ha Hb. apply distance_mirrored; lia.
    + rewrite !direction_mirrored by indices. cbn [fst snd]. ring.
Qed.

(** *** The degenerate pose *)

Lemma collapsed_bbox_fold (q : NormalizedLandmark) (n : nat) :
  fold_left bboxStep (repeat q n)
    {| minX := Some (x q); minY := Some (y q);
       maxX := Some (x q); maxY := Some (y q) |} =
  {| minX := Some (x q); minY := Some (y q);
     maxX := Some (x q); maxY := Some (y q) |}.
Proof.
  induction n as [ | n IH]; [ reflexivity | ].
  cbn [repeat fold_left].
  replace (bboxStep _ q) with
    {| minX := Some (x q); minY := Some (y q);
       maxX := Some (x q); maxY := Some (y q) |}; [ exact IH | ].
  unfold bboxStep, lower, raise, gtb. cbn [minX minY maxX maxY].
  now compare_numbers.
Qed.

Lemma collapsed_scale (q : NormalizedLandmark) :
  scale (collapsed q) = hypot 1e-6 1e-6.
Proof.
  unfold scale, bbox, collapsed.
  change (repeat q 21) with (q :: repeat q 20).
  cbn [fold_left]. rewrite bboxStep_first, collapsed_bbox_fold.
  cbn [minX minY maxX maxY extent].
  now rewrite !Rmax_right by lra.
Qed.

Lemma collapsed_distance (q : NormalizedLandmark) (a b : nat) :
  (a < 21)%nat -> (b < 21)%nat -> distance (collapsed q) a b = 0.
Proof.
  intros Ha Hb. unfold distance, pt, collapsed.
  rewrite !nth_repeat_lt by assumption.
  apply hypot_value; lra.
Qed.

Lemma collapsed_normalized (q : NormalizedLandmark) :
  normalized (collapsed q) 0 = 0.
Proof. unfold normalized, Rdiv. ring. Qed.

Lemma collapsed_direction (q : NormalizedLandmark) (a b : nat) :
  (a < 21)%nat -> (b < 21)%nat -> direction (collapsed q) a b = (0, 0).
Proof.
  intros Ha Hb. unfold direction, pt, collapsed.
  rewrite !nth_repeat_lt by assumption. cbv zeta.
  f_equal; unfold Rdiv; ring.
Qed.

(** X13. The pose whose 21 landmarks all coincide is classified without
    failure, as rock: no finger is extended, every gap and the thumb
    distance are 0, the thumb counts as tucked, the spread ratio and the
    direction cosine are 0 and the coefficient of variation is 1. *)
Theorem collapsed_is_rock (q : NormalizedLandmark) :
  classifySign (collapsed q) =
  Some ("rock",
        {| gapIM := 0; gapMR := 0; gapRP := 0; spockRatio := 0; cv := 1;
           thumbToIndexMCP := 0; thumbOut := false; thumbAlong := true;
           indexExt := false; middleExt := false;
           ringExt := false; pinkyExt := false;
           extendedCount := 0; cosIM := 0 |}).
Proof.
  rewrite classifySign_defined by (unfold collapsed; rewrite repeat_length; lia).
  assert (Hm : metricsOf (collapsed q) =
    {| gapIM := 0; gapMR := 0; gapRP := 0; spockRatio := 0; cv := 1;
       thumbToIndexMCP := 0; thumbOut := false; thumbAlong := true;
       indexExt := false; middleExt := false;
       ringExt := false; pinkyExt := false;
       extendedCount := 0; cosIM := 0 |}).
  { unfold metricsOf, margin.
    rewrite !collapsed_distance by indices.
    rewrite !collapsed_direction by indices.
    replace (0 - 0) with 0 by ring.
    rewrite !collapsed_normalized. cbn [fst snd].
    replace ((0 + 0 + 0) / 3) with 0 by lra.
    replace ((0 + 0) / 2) with 0 by lra.
    replace (0 * 0 + 0 * 0) with 0 by ring.
    unfold gtb, clamp. compare_numbers.
    rewrite (Rmax_left 1e-6 0) by lra.
    rewrite (Rmin_right 1 0) by lra. rewrite (Rmax_right (-1) 0) by lra.
    cbn [Number Nat.add].
    f_equal. unfold Rdiv. ring. }
  rewrite Hm. reflexivity.
Qed.

End Invariance.

(** ** More on the stabilizer *)

Module StabilizerMore.
Import JsObject JsObjectFacts Detector StabilizerFacts Geometry Drawing.

Lemma count_two (w : list string) (g k : string) :
  g <> k ->
  (count_occ string_dec w g + count_occ string_dec w k <= List.length w)%nat.
Proof.
  intros Hne. induction w as [ | a w IH]; cbn [count_occ List.length];
    [ lia | ].
  destruct (string_dec a g), (string_dec a k); try lia. congruence.
Qed.

Lemma majority_answer (buffer : list string) (label : string)
  (n : nat) (k : string) :
  (List.length (fst (stableGesture buffer label n)) <
   2 * count_occ string_dec (fst (stableGesture buffer label n)) k)%nat ->
  snd (stableGesture buffer label n) = Some k.
Proof.
  set (w := fst (stableGesture buffer label n)). intros Hmaj.
  assert (Hne : w <> []).
  { intros E. rewrite E in Hmaj. cbn in Hmaj. lia. }
  destruct (stableGesture_member buffer label n Hne) as (g & Hg & _).
  rewrite Hg. f_equal.
  destruct (string_dec g k) as [E | E]; [ exact E | exfalso ].
  destruct (stableGesture_first_mode buffer label n Hg) as [Hmode _].
  fold w in Hmode. specialize (Hmode k).
  pose proof (count_two w E). lia.
Qed.

(** X14. A label that fills more than half of the window after a push is
    the label that the push answers, wherever it stands in the window. *)
Theorem strict_majority_wins (buffer : list string) (label : string)
  (n : nat) (k : string) :
  Forall isLabel buffer -> isLabel label ->
  let w := fst (stableGesture buffer label n) in
  (List.length w < 2 * count_occ string_dec w k)%nat ->
  snd (stableGesture buffer label n) = Some k.
Proof.
  intros _ _ w. apply majority_answer.
Qed.

Lemma strict_majority_wins_witness :
  let buffer := ["paper"; "rock"; "paper"; "rock"]%string in
  Forall isLabel buffer /\ isLabel "rock"%string /\
  snd (stableGesture buffer "rock" 5) = Some "rock"%string.
Proof.
  intros buffer.
  assert (Hb : Forall isLabel buffer)
    by (repeat constructor; unfold isLabel, labels; cbn; tauto).
  assert (Hl : isLabel "rock"%string) by (unfold isLabel, labels; cbn; tauto).
  split; [ exact Hb | split; [ exact Hl | ] ].
  apply (@strict_majority_wins buffer "rock" 5 "rock" Hb Hl).
  cbn. lia.
Defined.

(** X15. Once the window holds the label l five times, a different label x
    needs three frames in a row to replace it: the first two pushes of x
    still answer l, the third answers x. *)
Theorem change_takes_three_frames (l x : string) :
  isLabel l -> isLabel x -> l <> x ->
  let s1 := stableGesture [l; l; l; l; l] x defaultN in
  let s2 := stableGesture (fst s1) x defaultN in
  let s3 := stableGesture (fst s2) x defaultN in
  snd s1 = Some l /\ snd s2 = Some l /\ snd s3 = Some x /\
  fst s3 = [l; l; x; x; x].
Proof.
  intros Hl Hx Hne. cbv zeta.
  rewrite !stableGesture_buffer. unfold defaultN.
  cbn [app List.length Nat.ltb Nat.leb tl].
  repeat split.
  - apply majority_answer.
    rewrite stableGesture_buffer.
    cbn [app List.length Nat.ltb Nat.leb tl count_occ].
    destruct (string_dec l l); [ | congruence ].
    destruct (string_dec x l); [ congruence | ]. lia.
  - apply majority_answer.
    rewrite stableGesture_buffer.
    cbn [app List.length Nat.ltb Nat.leb tl count_occ].
    destruct (string_dec l l); [ | congruence ].
    destruct (string_dec x l); [ congruence | ]. lia.
  - apply majority_answer.
    rewrite stableGesture_buffer.
    cbn [app List.length Nat.ltb Nat.leb tl count_occ].
    destruct (string_dec x x); [ | congruence ].
    destruct (string_dec l x); [ congruence | ]. lia.
Qed.

Lemma change_takes_three_frames_witness :
  isLabel "rock"%string /\ isLabel "paper"%string /\
  snd (stableGesture ["rock"; "rock"; "rock"; "rock"; "rock"]%string
         "paper" defaultN) = Some "rock"%string.
Proof.
  assert (Hl : isLabel "rock"%string) by (unfold isLabel, labels; cbn; tauto).
  assert (Hx : isLabel "paper"%string) by (unfold isLabel, labels; cbn; tauto).
  split; [ exact Hl | split; [ exact Hx | ] ].
  refine (proj1 (@change_takes_three_frames "rock" "paper" Hl Hx _)).
  discriminate.
Defined.

(** X16. A push fails to answer exactly when it is made with capacity 0 on
    an empty buffer, the one case in which the window is empty after the
    push. *)
Theorem stableGesture_fails_iff (buffer : list string) (label : string)
  (n : nat) :
  Forall isLabel buffer -> isLabel label ->
  (snd (stableGesture buffer label n) = None <-> buffer = [] /\ n = 0%nat).
Proof.
  intros _ _. split.
  - intros Hnone.
    assert (Hw : fst (stableGesture buffer label n) = []).
    { destruct (fst (stableGesture buffer label n)) as [ | a w] eqn:E;
        [ reflexivity | ].
      destruct (@stableGesture_member buffer label n) as (g & Hg & _);
        [ rewrite E; discriminate | congruence ]. }
    rewrite stableGesture_buffer in Hw.
    destruct buffer as [ | b0 rest].
    + cbn in Hw. destruct n; [ auto | discriminate Hw ].
    + exfalso. cbn [app List.length tl] in Hw.
      destruct (n <? S (List.length (rest ++ [label])))%nat;
        [ | discriminate Hw ].
      destruct rest; discriminate Hw.
  - intros [-> ->]. reflexivity.
Qed.

Lemma stableGesture_fails_iff_witness :
  Forall isLabel [] /\ isLabel "rock"%string /\
  snd (stableGesture [] "rock" 0) = None.
Proof.
  assert (Hl : isLabel "rock"%string) by (unfold isLabel, labels; cbn; tauto).
  split; [ apply Forall_nil | split; [ exact Hl | ] ].
  apply (proj2 (@stableGesture_fails_iff [] "rock" 0 (Forall_nil _) Hl)).
  split; reflexivity.
Defined.

Lemma feedWith_snoc (n : nat) (buffer ls : list string) (l : string) :
  feedWith n buffer (ls ++ [l]) =
  fst (stableGesture (feedWith n buffer ls) l n).
Proof. unfold feedWith. now rewrite fold_left_app. Qed.

(** X17. For every capacity, the buffer reached from the empty one holds
    exactly the last [n] labels pushed, in the order of arrival. *)
Theorem window_is_last_n (n : nat) (ls : list string) :
  feedWith n [] ls = skipn (List.length ls - n) ls /\
  (List.length (feedWith n [] ls) <= n)%nat.
Proof.
  assert (Hw : feedWith n [] ls = skipn (List.length ls - n) ls).
  { induction ls as [ | l ls IH] using rev_ind; [ reflexivity | ].
    rewrite feedWith_snoc, stableGesture_buffer, IH.
    rewrite !length_app, length_skipn. cbn [List.length].
    destruct (Nat.ltb_spec n (List.length ls - (List.length ls - n) + 1))
      as [H | H].
    - assert (Hlen : (n <= List.length ls)%nat) by lia.
      destruct (Nat.eq_dec n 0) as [-> | Hn].
      + rewrite !Nat.sub_0_r.
        rewrite (skipn_all2 ls) by lia.
        rewrite (skipn_all2 (ls ++ [l]))
          by (rewrite length_app; cbn [List.length]; lia).
        reflexivity.
      + replace (List.length ls + 1 - n)%nat with (S (List.length ls - n))
          by lia.
        rewrite skipn_app.
        replace (S (List.length ls - n) - List.length ls)%nat with 0%nat
          by lia.
        change (skipn 0 [l]) with [l].
        destruct (skipn (List.length ls - n) ls) as [ | h0 rest] eqn:E.
        * apply (f_equal (@List.length string)) in E.
          rewrite length_skipn in E. cbn in E. lia.
        * cbn [app tl].
          change (S (List.length ls - n))
            with (1 + (List.length ls - n))%nat.
          rewrite <- skipn_skipn, E. reflexivity.
    - replace (List.length ls - n)%nat with 0%nat by lia.
      replace (List.length ls + 1 - n)%nat with 0%nat by lia.
      reflexivity. }
  split; [ exact Hw | ].
  rewrite Hw, length_skipn. lia.
Qed.

End StabilizerMore.

(** ** The newer copy of the classifier *)

Module NewerFacts.
Import Num NumFacts ClassifySign Geometry ClassifyFacts ClassifyMore.
Local Open Scope R_scope.
Local Open Scope string_scope.

Lemma newer_dist_some (l : list NormalizedLandmark) (a b : nat) :
  (a < List.length l)%nat -> (b < List.length l)%nat ->
  ClassifySignNewer.dist l a b = Some (distance l a b).
Proof. exact (@dist_some l a b). Qed.

Lemma newer_norm_some (l : list NormalizedLandmark) (d : R) :
  ClassifySignNewer.norm l d = Some (normalized l d).
Proof. exact (norm_some l d). Qed.

Lemma newer_fartherThan_some (l : list NormalizedLandmark) (tip pip : nat) :
  (0 < List.length l)%nat ->
  (tip < List.length l)%nat -> (pip < List.length l)%nat ->
  ClassifySignNewer.fartherThan l tip pip = Some (gtb (margin l tip pip) 0.07).
Proof. exact (@fartherThan_some l tip pip). Qed.

Lemma newer_bent_some (l : list NormalizedLandmark) (tip pip : nat) :
  (0 < List.length l)%nat ->
  (tip < List.length l)%nat -> (pip < List.length l)%nat ->
  ClassifySignNewer.bent l tip pip = Some (ltb (margin l tip pip) 0.03).
Proof. exact (@bent_some l tip pip). Qed.

Lemma newer_v_some (l : list NormalizedLandmark) (tip pip : nat) :
  (tip < List.length l)%nat -> (pip < List.length l)%nat ->
  ClassifySignNewer.v l tip pip = Some (direction l tip pip).
Proof. exact (@v_some l tip pip). Qed.

Lemma newer_extract_defined (l : list NormalizedLandmark) :
  (21 <= List.length l)%nat -> ClassifySignNewer.extract l = Some (GeometryNewer.metricsOf l).
Proof.
  intros Hlen. unfold ClassifySignNewer.extract.
  rewrite !newer_fartherThan_some by indices. cbn [bind].
  rewrite (@newer_dist_some l TIP_t INDEX_MCP) by indices. cbn [bind].
  rewrite newer_norm_some. cbn [bind].
  rewrite (@newer_dist_some l TIP_i TIP_m) by indices. cbn [bind].
  rewrite newer_norm_some. cbn [bind].
  rewrite (@newer_dist_some l TIP_m TIP_r) by indices. cbn [bind].
  rewrite newer_norm_some. cbn [bind].
  rewrite (@newer_dist_some l TIP_r TIP_p) by indices. cbn [bind].
  rewrite newer_norm_some. cbn [bind].
  rewrite !newer_v_some by indices.
  set (gIM := normalized l (distance l TIP_i TIP_m)).
  set (gMR := normalized l (distance l TIP_m TIP_r)).
  set (gRP := normalized l (distance l TIP_r TIP_p)).
  set (mean := (gIM + gMR + gRP) / 3).
  assert (Hden : Rmax ((gIM + gRP) / 2) 1e-6 <> 0).
  { pose proof (Rmax_r ((gIM + gRP) / 2) 1e-6). lra. }
  rewrite div_some by exact Hden. cbn [bind].
  unfold GeometryNewer.metricsOf. fold gIM gMR gRP. fold mean.
  destruct (gtb mean 0) eqn:Hmean.
  - apply gtb_true in Hmean.
    rewrite (@div_some _ mean) by lra. reflexivity.
  - reflexivity.
Qed.

Lemma newer_decide_defined (l : list NormalizedLandmark) (m : SignMetrics) :
  (21 <= List.length l)%nat -> ClassifySignNewer.decide l m = Some (GeometryNewer.labelOf l m).
Proof.
  intros Hlen. unfold ClassifySignNewer.decide, GeometryNewer.labelOf.
  assert (Hs : ClassifySignNewer.ruleScissors l m = Some (GeometryNewer.scissorsOf l m)).
  { unfold ClassifySignNewer.ruleScissors, GeometryNewer.scissorsOf.
    destruct (indexExt m && middleExt m && negb (ringExt m) &&
              negb (pinkyExt m)); [ | reflexivity ].
    rewrite !newer_bent_some by indices. cbn [bind].
    destruct (ltb (margin l TIP_r PIP_r) 0.03); reflexivity. }
  rewrite Hs. cbn [bind].
  destruct (GeometryNewer.scissorsOf l m); [ reflexivity | ].
  destruct (ClassifySignNewer.ruleSpock m); [ reflexivity | ].
  destruct (ClassifySignNewer.ruleSpockSoft m); [ reflexivity | ].
  destruct (ClassifySignNewer.rulePaper m); [ reflexivity | ].
  destruct (ClassifySignNewer.rulePaperLoose m); [ reflexivity | ].
  destruct (ClassifySignNewer.ruleRock m); [ reflexivity | ].
  destruct (ClassifySignNewer.ruleLizard m); [ reflexivity | ].
  destruct (ClassifySignNewer.tieSpock m); [ reflexivity | ].
  destruct (ClassifySignNewer.tieLizard m); reflexivity.
Qed.

Lemma newer_classifySign_defined (l : list NormalizedLandmark) :
  (21 <= List.length l)%nat ->
  ClassifySignNewer.classifySign l = Some (GeometryNewer.labelOf l (GeometryNewer.metricsOf l), GeometryNewer.metricsOf l).
Proof.
  intros Hlen. unfold ClassifySignNewer.classifySign.
  rewrite newer_extract_defined by assumption. cbn [bind].
  now rewrite newer_decide_defined.
Qed.

Lemma newer_classifySign_short (l : list NormalizedLandmark) :
  (List.length l < 21)%nat -> ClassifySignNewer.classifySign l = None.
Proof.
  intros Hlen. unfold ClassifySignNewer.classifySign, ClassifySignNewer.extract.
  destruct (ClassifySignNewer.fartherThan l TIP_i PIP_i); [ cbn [bind] | reflexivity ].
  destruct (ClassifySignNewer.fartherThan l TIP_m PIP_m); [ cbn [bind] | reflexivity ].
  destruct (ClassifySignNewer.fartherThan l TIP_r PIP_r); [ cbn [bind] | reflexivity ].
  assert (Hp : ClassifySignNewer.fartherThan l TIP_p PIP_p = None).
  { unfold ClassifySignNewer.fartherThan, ClassifySignNewer.dist, ClassifySignNewer.at_, TIP_p.
    assert (Hnone : nth_error l 20 = None) by (apply nth_error_None; lia).
    now rewrite Hnone. }
  now rewrite Hp.
Qed.

Lemma newer_labelOf_closed (l : list NormalizedLandmark) (m : SignMetrics) :
  In (GeometryNewer.labelOf l m) labels.
Proof.
  unfold GeometryNewer.labelOf, labels.
  destruct (GeometryNewer.scissorsOf l m); [ simpl; tauto | ].
  destruct (ClassifySignNewer.ruleSpock m); [ simpl; tauto | ].
  destruct (ClassifySignNewer.ruleSpockSoft m); [ simpl; tauto | ].
  destruct (ClassifySignNewer.rulePaper m); [ simpl; tauto | ].
  destruct (ClassifySignNewer.rulePaperLoose m); [ simpl; tauto | ].
  destruct (ClassifySignNewer.ruleRock m); [ simpl; tauto | ].
  destruct (ClassifySignNewer.ruleLizard m); [ simpl; tauto | ].
  destruct (ClassifySignNewer.tieSpock m); [ simpl; tauto | ].
  destruct (ClassifySignNewer.tieLizard m); simpl; tauto.
Qed.

Lemma newer_inv (l : list NormalizedLandmark) (label : string)
  (m : SignMetrics) :
  ClassifySignNewer.classifySign l = Some (label, m) ->
  ClassifySignNewer.extract l = Some m /\ ClassifySignNewer.decide l m = Some label.
Proof.
  unfold ClassifySignNewer.classifySign. intros H. unbind H.
  injection H as <- <-. now split.
Qed.

Lemma newer_extract_fields (l : list NormalizedLandmark) (m : SignMetrics) :
  ClassifySignNewer.extract l = Some m ->
  thumbOut m = gtb (thumbToIndexMCP m) ClassifySignNewer.THUMB_OUT_HARD /\
  thumbAlong m = ltb (thumbToIndexMCP m) ClassifySignNewer.THUMB_ALONG /\
  extendedCount m =
    (Number (indexExt m) + Number (middleExt m) +
     Number (ringExt m) + Number (pinkyExt m))%nat.
Proof.
  unfold ClassifySignNewer.extract. intros H. unbind H.
  injection H as <-. cbn. repeat split.
Qed.


Lemma newer_hand_flags (t i m r p : R) :
  0.1 <= t <= 0.9 -> 0.1 <= i <= 0.9 -> 0.1 <= m <= 0.9 ->
  0.1 <= r <= 0.9 -> 0.1 <= p <= 0.9 ->
  let M := GeometryNewer.metricsOf (hand t i m r p) in
  indexExt M = gtb (0.6 - i) 0.07 /\
  middleExt M = gtb (0.6 - m) 0.07 /\
  ringExt M = gtb (0.6 - r) 0.07 /\
  pinkyExt M = gtb (0.6 - p) 0.07 /\
  thumbToIndexMCP M = Rabs (t - 0.7) /\
  thumbOut M = gtb (Rabs (t - 0.7)) 0.33.
Proof.
  intros Ht Hi Hm Hr Hp. unfold GeometryNewer.metricsOf.
  cbn [indexExt middleExt ringExt pinkyExt thumbToIndexMCP thumbOut].
  rewrite hand_margin_index, hand_margin_middle, hand_margin_ring,
    hand_margin_pinky, hand_thumb by assumption.
  repeat split.
Qed.

Lemma poseSoftThumb_newer_flags :
  let M := GeometryNewer.metricsOf poseSoftThumb in
  indexExt M = true /\ middleExt M = false /\
  ringExt M = false /\ pinkyExt M = true /\
  thumbToIndexMCP M = 0.32 /\ thumbOut M = false.
Proof.
  unfold poseSoftThumb.
  destruct (@newer_hand_flags 0.38 0.4 0.6 0.6 0.4)
    as (Hi & Hm & Hr & Hp & Hd & Ho); try lra.
  cbv zeta. rewrite Hi, Hm, Hr, Hp, Hd, Ho.
  evaluate_flags.
  repeat split. lra.
Qed.


End NewerFacts.

(** ** The detection loop *)

Module LoopFacts.
Import JsObject Detector StabilizerFacts Geometry Drawing.
Import ClassifySign ClassifyFacts ClassifyMore.










End LoopFacts.

(** ** The game round *)

Module RoundFacts.
Import GameDetector Round Geometry.
Local Open Scope string_scope.

(** X19. The win table is balanced: every gesture beats exactly two of the
    five gestures, loses to exactly two and ties with one, itself. *)
Theorem win_map_balanced (g : Gesture) :
  List.length (filter (fun c => match decideOutcome g c with
                                | player => true | _ => false end)
                 GESTURES) = 2%nat /\
  List.length (filter (fun c => match decideOutcome g c with
                                | computer => true | _ => false end)
                 GESTURES) = 2%nat /\
  filter (fun c => match decideOutcome g c with
                   | tie => true | _ => false end) GESTURES = [g] /\
  List.length (WIN_MAP g) = 2%nat /\ ~ In g (WIN_MAP g).
Proof.
  destruct g; cbv; repeat split; intuition discriminate.
Qed.

(** X20. The rules listed in the panel beside the video are the win table:
    a pair winner, loser is listed exactly when [decideOutcome] lets the
    player win with the first gesture against the second. *)
Theorem rules_panel_is_win_map (w l : Gesture) :
  In (w, l) rulesPanel <-> decideOutcome w l = player.
Proof.
  destruct w, l; cbv; split; intros H;
    try discriminate H; try reflexivity;
    intuition (try discriminate; auto).
Qed.

Lemma isGesture_name (g : Gesture) :
  isGesture (gestureName g) = true /\ asGesture (gestureName g) = Some g.
Proof. destruct g; split; reflexivity. Qed.

Lemma isGesture_inv (value : string) :
  isGesture value = true -> exists g, value = gestureName g.
Proof.
  unfold isGesture. intros H. apply existsb_exists in H as (g & _ & E).
  apply String.eqb_eq in E. now exists g.
Qed.

(** X21. [isGesture] accepts exactly the five gesture names, and the
    gesture read back from an accepted string has that string as its name.
    Of the six labels of the classifier it refuses unknown only; it also
    refuses the empty string. *)
Theorem isGesture_spec (value : string) :
  (isGesture value = true <-> exists g, value = gestureName g) /\
  (forall g, asGesture value = Some g <-> value = gestureName g) /\
  (isLabel value -> (isGesture value = false <-> value = "unknown")) /\
  isGesture "" = false.
Proof.
  split; [ | split; [ | split; [ | reflexivity ] ] ].
  - split; [ apply isGesture_inv | ].
    intros (g & ->). apply isGesture_name.
  - intros g. split.
    + unfold asGesture. intros H. apply find_some in H as [_ E].
      apply String.eqb_eq in E. now symmetry.
    + intros ->. apply isGesture_name.
  - unfold isLabel, labels. cbn [In].
    intros [<- | [<- | [<- | [<- | [<- | [<- | []]]]]]];
      cbv; split; intros H; try discriminate H; reflexivity.
Qed.

Lemma isGesture_spec_witness :
  isLabel "lizard" /\ (isGesture "lizard" = false <-> "lizard" = "unknown").
Proof.
  assert (H : isLabel "lizard") by (unfold isLabel, labels; cbn; tauto).
  split; [ exact H | ].
  exact (proj1 (proj2 (proj2 (isGesture_spec "lizard"))) H).
Defined.

Local Open Scope R_scope.

Lemma five_gestures : INR (List.length GESTURES) = 5.
Proof. cbn. lra. Qed.

Lemma random_index (random : R) (i : nat) :
  INR i / 5 <= random < (INR i + 1) / 5 ->
  Int_part (random * INR (List.length GESTURES)) = Z.of_nat i.
Proof.
  intros [Hlo Hhi]. rewrite five_gestures.
  symmetry. apply Int_part_spec.
  rewrite <- INR_IZR_INZ. split; lra.
Qed.

Lemma random_index_range (random : R) :
  0 <= random < 1 ->
  let z := Int_part (random * INR (List.length GESTURES)) in
  (0 <= z <= 4)%Z /\
  INR (Z.to_nat z) / 5 <= random < (INR (Z.to_nat z) + 1) / 5 /\
  getRandomGesture random = nth_error GESTURES (Z.to_nat z).
Proof.
  intros [Hlo Hhi] z.
  destruct (base_Int_part (random * INR (List.length GESTURES)))
    as [Hb1 Hb2].
  fold z in Hb1, Hb2. rewrite five_gestures in Hb1, Hb2.
  assert (H1 : (-1 < z)%Z) by (apply lt_IZR; lra).
  assert (H2 : (z < 5)%Z) by (apply lt_IZR; lra).
  split; [ lia | split ].
  - rewrite INR_IZR_INZ, Z2Nat.id by lia. split; lra.
  - unfold getRandomGesture. fold z.
    destruct (Z.ltb_spec z 0); [ lia | reflexivity ].
Qed.

Lemma random_gesture_defined (random : R) :
  0 <= random < 1 -> exists g, getRandomGesture random = Some g.
Proof.
  intros Hr. destruct (random_index_range Hr) as (Hz & _ & Hget).
  set (z := Int_part (random * INR (List.length GESTURES))) in *.
  rewrite Hget.
  destruct (nth_error GESTURES (Z.to_nat z)) as [g | ] eqn:E;
    [ now exists g | ].
  apply nth_error_None in E.
  assert (Hfive : List.length GESTURES = 5%nat) by reflexivity.
  rewrite Hfive in E. lia.
Qed.

(** X22. For every number that [Math.random] can return, from 0 inclusive
    to 1 exclusive, [getRandomGesture] returns a gesture; the i-th of the
    five gestures is drawn exactly on the interval from i/5 inclusive to
    (i+1)/5 exclusive, so each gesture gets one fifth of the range. *)
Theorem random_gesture_uniform (random : R) :
  0 <= random < 1 ->
  (exists g, getRandomGesture random = Some g) /\
  (forall i : nat, (i < 5)%nat ->
     (getRandomGesture random = nth_error GESTURES i <->
      INR i / 5 <= random < (INR i + 1) / 5)).
Proof.
  intros Hr. split; [ now apply random_gesture_defined | ].
  destruct (random_index_range Hr) as (Hz & Hrange & Hget).
  set (z := Int_part (random * INR (List.length GESTURES))) in *.
  intros i Hi. split.
  - intros Heq. rewrite Hget in Heq.
    assert (Hsame : Z.to_nat z = i).
    { assert (Hzi : (Z.to_nat z < 5)%nat) by lia.
      revert Heq. generalize (Z.to_nat z) Hzi. intros j Hj.
      do 5 (destruct j as [ | j];
            [ do 5 (destruct i as [ | i];
                    [ cbn; intros E; try discriminate E; reflexivity | ]);
              lia | ]).
      lia. }
    rewrite <- Hsame. exact Hrange.
  - intros Hin. unfold getRandomGesture.
    rewrite (@random_index random i Hin).
    destruct (Z.ltb_spec (Z.of_nat i) 0); [ lia | ].
    now rewrite Nat2Z.id.
Qed.

Lemma random_gesture_uniform_witness :
  0 <= 0.5 < 1 /\ getRandomGesture 0.5 = Some scissors.
Proof.
  assert (H : 0 <= 0.5 < 1) by lra.
  split; [ exact H | ].
  apply (proj2 (proj2 (@random_gesture_uniform 0.5 H) 2%nat (ltac:(lia)))).
  cbn. lra.
Defined.

Local Open Scope nat_scope.

Lemma addOutcome_total (outcome : Outcome) (prev : Score.ScoreBoard) :
  Score.player (addOutcome outcome prev) +
  Score.computer (addOutcome outcome prev) +
  Score.ties (addOutcome outcome prev) =
  Score.player prev + Score.computer prev + Score.ties prev + 1 /\
  Score.player prev <= Score.player (addOutcome outcome prev) /\
  Score.computer prev <= Score.computer (addOutcome outcome prev) /\
  Score.ties prev <= Score.ties (addOutcome outcome prev).
Proof. destruct outcome; cbn; lia. Qed.

Lemma final_step_unread (currentGesture : string) (random : R)
  (s : RoundView) :
  isGesture currentGesture = false ->
  onTimer 3 currentGesture random s =
  Some {| running := running s;
          score := score s;
          computerGesture := computerGesture s;
          playerGesture := "unknown";
          roundOutcome := None;
          roundMessage := "Couldn't read your gesture in time. Try again!";
          isCountingDown := false;
          countdown := Some "Shoot!"%string |}.
Proof.
  intros Hg. unfold onTimer. cbn [nth_error steps bind fst snd].
  cbn [List.length Nat.sub Nat.eqb negb].
  rewrite Hg. cbn [negb]. now rewrite orb_true_r.
Qed.

Lemma final_step_read (g c : Gesture) (random : R) (s : RoundView) :
  getRandomGesture random = Some c ->
  onTimer 3 (gestureName g) random s =
  Some {| running := running s;
          score := addOutcome (decideOutcome g c) (score s);
          computerGesture := Some c;
          playerGesture := gestureName g;
          roundOutcome := Some (decideOutcome g c);
          roundMessage := outcomeMessage (decideOutcome g c);
          isCountingDown := false;
          countdown := Some "Shoot!"%string |}.
Proof.
  intros Hc. unfold onTimer. cbn [nth_error steps bind fst snd].
  cbn [List.length Nat.sub Nat.eqb negb].
  destruct (isGesture_name g) as [Hg Ha]. rewrite Hg, Ha, Hc.
  assert (Hne : String.eqb (gestureName g) "" = false)
    by (destruct g; reflexivity).
  rewrite Hne. reflexivity.
Qed.

(** X23. The last timer of a round ends the countdown and updates the
    score by the outcome alone. When the gesture held is not one of the
    five, the score and the computer's gesture stay as they are, the
    player's gesture is shown as unknown and there is no outcome. When it
    is one of the five, the computer's gesture is drawn, the outcome is the
    one [decideOutcome] gives, the message is the one of that outcome, and
    exactly one of the three counters grows, by one. *)
Theorem final_step_accounts (currentGesture : string) (random : R)
  (s : RoundView) :
  (0 <= random < 1)%R ->
  exists s',
    onTimer 3 currentGesture random s = Some s' /\
    isCountingDown s' = false /\ running s' = running s /\
    (isGesture currentGesture = false ->
     score s' = score s /\ computerGesture s' = computerGesture s /\
     playerGesture s' = "unknown"%string /\ roundOutcome s' = None) /\
    (isGesture currentGesture = true ->
     exists p c,
       currentGesture = gestureName p /\
       getRandomGesture random = Some c /\
       playerGesture s' = currentGesture /\
       computerGesture s' = Some c /\
       roundOutcome s' = Some (decideOutcome p c) /\
       roundMessage s' = outcomeMessage (decideOutcome p c) /\
       score s' = addOutcome (decideOutcome p c) (score s) /\
       Score.player (score s') + Score.computer (score s') +
       Score.ties (score s') =
       Score.player (score s) + Score.computer (score s) +
       Score.ties (score s) + 1).
Proof.
  intros Hr.
  destruct (@random_gesture_defined random Hr) as (c & Hc).
  destruct (isGesture currentGesture) eqn:Hg.
  - destruct (@isGesture_inv _ Hg) as (p & ->).
    eexists. split; [ apply (@final_step_read p c random s Hc) | ].
    cbn [isCountingDown running score computerGesture playerGesture
         roundOutcome roundMessage].
    repeat split; try discriminate.
    intros _. exists p, c. repeat split.
    + exact Hc.
    + apply addOutcome_total.
  - eexists. split; [ apply (@final_step_unread currentGesture random s Hg) | ].
    cbn [isCountingDown running score computerGesture playerGesture
         roundOutcome roundMessage].
    repeat split; discriminate.
Qed.

Lemma final_step_accounts_witness :
  (0 <= 0.5 < 1)%R /\
  exists s',
    onTimer 3 "rock" 0.5
      {| running := true; score := Score.mkScore 0 0 0;
         computerGesture := None; playerGesture := "";
         roundOutcome := None; roundMessage := "";
         isCountingDown := true; countdown := None |} = Some s' /\
    isCountingDown s' = false.
Proof.
  assert (H : (0 <= 0.5 < 1)%R) by lra.
  split; [ exact H | ].
  destruct (@final_step_accounts "rock" 0.5
              {| running := true; score := Score.mkScore 0 0 0;
                 computerGesture := None; playerGesture := "";
                 roundOutcome := None; roundMessage := "";
                 isCountingDown := true; countdown := None |} H)
    as (s' & Hs & Hc & _).
  exists s'. split; [ exact Hs | exact Hc ].
Defined.

Lemma playRound_idle (currentGesture : string) (random : R) (s : RoundView) :
  running s = true -> isCountingDown s = false ->
  playRound currentGesture random s =
  onTimer 3 currentGesture random
    {| running := true; score := score s;
       computerGesture := None; playerGesture := "";
       roundOutcome := None; roundMessage := "";
       isCountingDown := true; countdown := Some "1"%string |}.
Proof.
  intros Hrun Hidle. unfold playRound, startRound.
  rewrite Hrun, Hidle. cbn [negb orb].
  unfold onTimer at 4. cbn [nth_error steps bind fst snd].
  cbn [List.length Nat.sub Nat.eqb negb]. cbn [bind].
  unfold onTimer at 3. cbn [nth_error steps bind fst snd].
  cbn [List.length Nat.sub Nat.eqb negb]. cbn [bind].
  unfold onTimer at 2. cbn [nth_error steps bind fst snd].
  cbn [List.length Nat.sub Nat.eqb negb]. cbn [bind].
  cbn [running score computerGesture playerGesture roundOutcome
       roundMessage isCountingDown].
  reflexivity.
Qed.

Lemma playRound_counts (currentGesture : string) (random : R)
  (s : RoundView) :
  (0 <= random < 1)%R ->
  running s = true -> isCountingDown s = false ->
  exists s',
    playRound currentGesture random s = Some s' /\
    running s' = true /\ isCountingDown s' = false /\
    Score.player (score s') + Score.computer (score s') +
    Score.ties (score s') =
    Score.player (score s) + Score.computer (score s) + Score.ties (score s) +
    (if isGesture currentGesture then 1 else 0) /\
    Score.player (score s) <= Score.player (score s') /\
    Score.computer (score s) <= Score.computer (score s') /\
    Score.ties (score s) <= Score.ties (score s').
Proof.
  intros Hr Hrun Hidle. rewrite playRound_idle by assumption.
  destruct (@random_gesture_defined random Hr) as (c & Hc).
  destruct (isGesture currentGesture) eqn:Hg.
  - destruct (@isGesture_inv _ Hg) as (p & ->).
    eexists. split; [ apply (@final_step_read p c random _ Hc) | ].
    cbn [isCountingDown running score].
    pose proof (addOutcome_total (decideOutcome p c) (score s)).
    repeat split; try lia.
  - eexists. split; [ apply (@final_step_unread currentGesture random _ Hg) | ].
    cbn [isCountingDown running score].
    repeat split; lia.
Qed.

Lemma playRounds_snoc (rounds : list (string * R)) (r : string * R)
  (s : RoundView) :
  playRounds (rounds ++ [r]) s =
  bind (playRounds rounds s) (fun v => playRound (fst r) (snd r) v).
Proof. unfold playRounds. now rewrite fold_left_app. Qed.

(** X24. A click on Play Round while the camera is off or a countdown is
    running changes nothing. From a view with the camera on and no
    countdown running, any number of rounds leaves the camera on and no
    countdown running, never lowers a counter, and makes the three counters
    grow together by the number of rounds in which the gesture held at the
    last timer was one of the five. *)
Theorem rounds_are_counted (rounds : list (string * R)) (s : RoundView) :
  (forall g u v,
     running v = false \/ isCountingDown v = true ->
     startRound v = v /\ playRound g u v = Some v) /\
  (running s = true -> isCountingDown s = false ->
   Forall (fun r => (0 <= snd r < 1)%R) rounds ->
   exists s',
     playRounds rounds s = Some s' /\
     running s' = true /\ isCountingDown s' = false /\
     Score.player (score s') + Score.computer (score s') +
     Score.ties (score s') =
     Score.player (score s) + Score.computer (score s) +
     Score.ties (score s) + counted rounds /\
     Score.player (score s) <= Score.player (score s') /\
     Score.computer (score s) <= Score.computer (score s') /\
     Score.ties (score s) <= Score.ties (score s')).
Proof.
  split.
  - intros g u v Hv. unfold startRound, playRound.
    destruct Hv as [-> | ->]; cbn [negb orb];
      rewrite ?orb_true_r; auto.
  - intros Hrun Hidle Hall.
    induction rounds as [ | r rounds IH] using rev_ind.
    + exists s. cbn. repeat split; try assumption; lia.
    + apply Forall_app in Hall as [Hall Hlast].
      destruct (IH Hall) as (v & Hv & Hrun' & Hidle' & Htot & Hp & Hc & Ht).
      assert (Hr : (0 <= snd r < 1)%R) by now inversion Hlast.
      destruct (@playRound_counts (fst r) (snd r) v Hr Hrun' Hidle')
        as (s' & Hs' & Hrun'' & Hidle'' & Htot' & Hp' & Hc' & Ht').
      exists s'. rewrite playRounds_snoc, Hv. cbn [bind].
      split; [ exact Hs' | ].
      unfold counted in *. rewrite filter_app, length_app.
      cbn [filter]. destruct (isGesture (fst r)); cbn [List.length];
        repeat split; try assumption; lia.
Qed.

Lemma rounds_are_counted_witness :
  let s := {| running := true; score := Score.mkScore 0 0 0;
              computerGesture := None; playerGesture := ""%string;
              roundOutcome := None; roundMessage := ""%string;
              isCountingDown := false; countdown := None |} in
  let rounds := [("rock"%string, 0.5%R); ("unknown"%string, 0.1%R)] in
  Forall (fun r => (0 <= snd r < 1)%R) rounds /\
  exists s', playRounds rounds s = Some s' /\ isCountingDown s' = false.
Proof.
  intros s rounds.
  assert (H : Forall (fun r => (0 <= snd r < 1)%R) rounds).
  { repeat (apply Forall_cons; [ cbn; lra | ]). apply Forall_nil. }
  split; [ exact H | ].
  destruct (proj2 (@rounds_are_counted rounds s) eq_refl eq_refl H)
    as (s' & Hs & _ & Hc & _).
  exists s'. split; [ exact Hs | exact Hc ].
Defined.

End RoundFacts.

(** ** Drawing the skeleton *)

Module DrawingFacts.
Import ClassifySign Drawing.

Lemma connectionLine_some (l : list NormalizedLandmark) (w h : R)
  (c : nat * nat) :
  (fst c < List.length l)%nat -> (snd c < List.length l)%nat ->
  exists line, connectionLine l w h c = Some line.
Proof.
  intros Hi Hj. unfold connectionLine, at_.
  destruct (nth_error l (fst c)) as [li | ] eqn:Ei;
    [ | apply nth_error_None in Ei; lia ].
  destruct (nth_error l (snd c)) as [lj | ] eqn:Ej;
    [ | apply nth_error_None in Ej; lia ].
  cbn [bind]. eexists. reflexivity.
Qed.

Lemma drawConnections_some (l : list NormalizedLandmark) (w h : R)
  (connections : list (nat * nat)) :
  Forall (fun c => (fst c < List.length l)%nat /\
                   (snd c < List.length l)%nat) connections ->
  exists lines,
    drawConnections l w h connections = Some lines /\
    List.length lines = List.length connections.
Proof.
  induction connections as [ | c rest IH]; intros Hall.
  - exists []. split; reflexivity.
  - inversion Hall as [ | ? ? [Hi Hj] Hrest]; subst.
    destruct (@connectionLine_some l w h c Hi Hj) as (line & Hline).
    destruct (IH Hrest) as (lines & Hlines & Hlen).
    exists (line :: lines). cbn [drawConnections].
    rewrite Hline, Hlines. cbn [bind List.length]. now rewrite Hlen.
Qed.

Lemma drawConnections_none (l : list NormalizedLandmark) (w h : R)
  (connections : list (nat * nat)) (c : nat * nat) :
  In c connections -> (List.length l <= snd c)%nat ->
  drawConnections l w h connections = None.
Proof.
  intros Hin Hc. induction connections as [ | c0 rest IH];
    [ destruct Hin | ].
  cbn [drawConnections]. destruct Hin as [-> | Hin].
  - unfold connectionLine, at_.
    assert (E : nth_error l (snd c) = None) by now apply nth_error_None.
    rewrite E. now destruct (nth_error l (fst c)).
  - rewrite (IH Hin).
    now destruct (connectionLine l w h c0).
Qed.

(** X25. Drawing the skeleton reads no landmark outside a pose of 21
    landmarks or more and draws 20 lines; on a shorter pose it fails. Each
    landmark from 1 to 20 ends exactly one connection, whose other end has a
    smaller number: the connections form a tree rooted at the wrist. *)
Theorem skeleton_drawn (l : list NormalizedLandmark) (w h : R) :
  (drawConnections l w h HAND_CONNECTIONS = None <->
   (List.length l < 21)%nat) /\
  ((21 <= List.length l)%nat ->
   exists lines,
     drawConnections l w h HAND_CONNECTIONS = Some lines /\
     List.length lines = 20%nat) /\
  map snd HAND_CONNECTIONS = seq 1 20 /\
  Forall (fun c => (fst c < snd c)%nat) HAND_CONNECTIONS.
Proof.
  assert (Hdrawn : (21 <= List.length l)%nat ->
            exists lines,
              drawConnections l w h HAND_CONNECTIONS = Some lines /\
              List.length lines = 20%nat).
  { intros Hlen.
    apply (@drawConnections_some l w h HAND_CONNECTIONS).
    unfold HAND_CONNECTIONS.
    repeat (apply Forall_cons; [ cbn [fst snd]; lia | ]).
    apply Forall_nil. }
  split; [ | split; [ exact Hdrawn | split ] ].
  - split.
    + intros Hnone.
      destruct (Nat.lt_ge_cases (List.length l) 21) as [H | H];
        [ exact H | ].
      destruct (Hdrawn H) as (lines & Hsome & _). congruence.
    + intros Hshort.
      apply (@drawConnections_none l w h HAND_CONNECTIONS (19, 20)%nat).
      * unfold HAND_CONNECTIONS. cbn [In]. tauto.
      * cbn [snd]. lia.
  - reflexivity.
  - unfold HAND_CONNECTIONS.
    repeat (apply Forall_cons; [ cbn [fst snd]; lia | ]).
    apply Forall_nil.
Qed.

Lemma skeleton_drawn_witness :
  (21 <= List.length Geometry.poseDuck)%nat /\
  exists lines,
    drawConnections Geometry.poseDuck 640 480 HAND_CONNECTIONS = Some lines /\
    List.length lines = 20%nat.
Proof.
  assert (H : (21 <= List.length Geometry.poseDuck)%nat) by (cbn; lia).
  split; [ exact H | ].
  exact (proj1 (proj2 (skeleton_drawn Geometry.poseDuck 640 480)) H).
Defined.

End DrawingFacts.

(** ** The two copies of the classifier, and the gesture paths built on them *)

Module CopiesFacts.
Import Num NumFacts ClassifySign Geometry ClassifyFacts ClassifyMore.
Import Drawing NewerFacts.
Local Open Scope R_scope.
Local Open Scope string_scope.

(** The first frame with a hand: the label of the classifier imported is
    pushed into the empty buffer and shown. *)
Lemma first_frame (imported : Classifier) (pose : list NormalizedLandmark)
  (label : string) (m : SignMetrics) :
  imported pose = Some (label, m) ->
  Detector.onFrame imported initialView [pose] =
    Some {| bufferRef := [label]; gesture := label; metrics := Some m |} /\
  GameDetector.onFrame imported initialView [pose] =
    Some {| bufferRef := [label]; gesture := label; metrics := Some m |}.
Proof.
  intros H.
  split; cbn [Detector.onFrame GameDetector.onFrame]; rewrite H;
    reflexivity.
Qed.

Lemma poseSoftThumb_older :
  exists m, classifySign poseSoftThumb = Some ("unknown", m).
Proof.
  destruct soft_thumb_is_not_lizard
    as (label & m & _ & H & _ & _ & _ & _ & _ & _ & _ & _ & -> & _).
  now exists m.
Qed.

Lemma poseSoftThumb_count :
  extendedCount (GeometryNewer.metricsOf poseSoftThumb) = 2%nat.
Proof.
  unfold poseSoftThumb, GeometryNewer.metricsOf. cbn [extendedCount].
  rewrite hand_margin_index, hand_margin_middle, hand_margin_ring,
    hand_margin_pinky by lra.
  evaluate_flags. reflexivity.
Qed.

Lemma poseSoftThumb_newer :
  exists m,
    ClassifySignNewer.classifySign poseSoftThumb = Some ("lizard", m) /\
    thumbOut m = false /\ ClassifySignNewer.thumbOutSoft m = true.
Proof.
  exists (GeometryNewer.metricsOf poseSoftThumb).
  rewrite newer_classifySign_defined by (cbn; lia).
  destruct poseSoftThumb_newer_flags as (Hi & Hm & Hr & Hp & Hd & Ho).
  pose proof poseSoftThumb_count as Hc.
  assert (Hsoft : ClassifySignNewer.thumbOutSoft
                    (GeometryNewer.metricsOf poseSoftThumb) = true).
  { unfold ClassifySignNewer.thumbOutSoft, ClassifySignNewer.THUMB_OUT_SOFT.
    rewrite Hd. apply gtb_true. lra. }
  split; [ | split; [ exact Ho | exact Hsoft ] ].
  f_equal. f_equal.
  unfold GeometryNewer.labelOf, GeometryNewer.scissorsOf,
    ClassifySignNewer.ruleSpock, ClassifySignNewer.ruleSpockSoft,
    ClassifySignNewer.rulePaper, ClassifySignNewer.rulePaperLoose,
    ClassifySignNewer.ruleRock, ClassifySignNewer.ruleLizard.
  rewrite Hi, Hm, Hr, Hp, Hc, Hsoft. reflexivity.
Qed.

Lemma older_lizard_thumb (l : list NormalizedLandmark) (label : string)
  (m : SignMetrics) :
  classifySign l = Some (label, m) ->
  (label = "lizard" -> thumbOut m = true) /\
  (label = "rock" -> thumbOut m = false).
Proof.
  intros H.
  destruct (@bundle_flags _ _ _ H) as (Ho & _).
  destruct (@label_cases _ _ _ H) as (sc & _ & _ & ->).
  rewrite Ho.
  destruct sc; [ split; intros E; discriminate E | ].
  by_cases; to_props; (split; intros E; try discriminate E).
  - apply gtb_false. lra.
  - apply gtb_true. lra.
Qed.

(** C7. The two copies of the per-frame pipeline differ for some input.
    Whichever of the two versions of the detector imports which of the two
    copies of [classifySign], on a first frame that shows the pose with
    index and pinky up and the thumb at distance 0.32 one gesture path
    shows unknown and the other lizard. The copies use different threshold
    values, and the newer one has a soft thumb-outward bound beside the
    hard one: it returns lizard on that pose although its [thumbOut] flag
    is false, while in the older copy lizard is returned only when
    [thumbOut] is true and rock only when it is false. *)
Theorem copies_differ :
  (Detector.onFrame classifySign initialView [poseSoftThumb] <>
   GameDetector.onFrame ClassifySignNewer.classifySign initialView
     [poseSoftThumb]) /\
  (Detector.onFrame ClassifySignNewer.classifySign initialView
     [poseSoftThumb] <>
   GameDetector.onFrame classifySign initialView [poseSoftThumb]) /\
  (exists v, GameDetector.onFrame classifySign initialView [poseSoftThumb] =
               Some v /\ gesture v = "unknown") /\
  (exists v, GameDetector.onFrame ClassifySignNewer.classifySign initialView
               [poseSoftThumb] = Some v /\ gesture v = "lizard") /\
  (T.paperCV <> ClassifySignNewer.T.paperCV /\
   T.spockRatio <> ClassifySignNewer.T.spockRatio /\
   T.spockGapMR <> ClassifySignNewer.T.spockGapMR /\
   T.pairTight <> ClassifySignNewer.T.pairTight /\
   ClassifySignNewer.THUMB_OUT_SOFT < ClassifySignNewer.THUMB_OUT_HARD < 0.34) /\
  (exists m,
     ClassifySignNewer.classifySign poseSoftThumb = Some ("lizard", m) /\
     thumbOut m = false /\ ClassifySignNewer.thumbOutSoft m = true) /\
  (forall l label m,
     classifySign l = Some (label, m) ->
     (label = "lizard" -> thumbOut m = true) /\
     (label = "rock" -> thumbOut m = false)).
Proof.
  destruct poseSoftThumb_older as (mo & Hold).
  destruct poseSoftThumb_newer as (mn & Hnew & Hhard & Hsoft).
  destruct (first_frame _ _ Hold) as (Hdo & Hgo).
  destruct (first_frame _ _ Hnew) as (Hdn & Hgn).
  rewrite Hdo, Hgo, Hdn, Hgn.
  split; [ | split; [ | split; [ | split; [ | split; [ | split ] ] ] ] ].
  - intros E. apply (f_equal (option_map gesture)) in E. discriminate E.
  - intros E. apply (f_equal (option_map gesture)) in E. discriminate E.
  - eexists. split; reflexivity.
  - eexists. split; reflexivity.
  - unfold T.paperCV, T.spockRatio, T.spockGapMR, T.pairTight,
      ClassifySignNewer.T.paperCV, ClassifySignNewer.T.spockRatio,
      ClassifySignNewer.T.spockGapMR, ClassifySignNewer.T.pairTight,
      ClassifySignNewer.THUMB_OUT_SOFT, ClassifySignNewer.THUMB_OUT_HARD.
    repeat split; lra.
  - exists mn. auto.
  - intros l label m. apply older_lizard_thumb.
Qed.

Lemma copies_differ_witness :
  exists label m,
    classifySign poseDuck = Some (label, m) /\ label = "lizard" /\
    thumbOut m = true.
Proof.
  assert (H := @classified poseDuck eq_refl).
  destruct poseDuck_flags as (Hi & Hm & Hr & Hp & Hd).
  assert (Hip : (indexExt (metricsOf poseDuck) ||
                 pinkyExt (metricsOf poseDuck)) = true) by now rewrite Hi.
  assert (Ht : 0.34 < thumbToIndexMCP (metricsOf poseDuck))
    by (rewrite Hd; lra).
  assert (Hl : labelOf poseDuck (metricsOf poseDuck) = "lizard")
    by (exact (proj2 (proj2 (proj2 (proj2
                 (@lizard_rule _ _ _ H Hm Hr Hip Ht)))))).
  exists (labelOf poseDuck (metricsOf poseDuck)), (metricsOf poseDuck).
  split; [ exact H | split; [ exact Hl | ] ].
  exact (proj1 (proj2 (proj2 (proj2 (proj2 (proj2 (proj2 copies_differ)))))
                  _ _ _ H) Hl).
Defined.

End CopiesFacts.

(** ** More on the newer copy *)

Module NewerMore.
Import Num NumFacts ClassifySign Geometry ClassifyFacts ClassifyMore.
Import NewerFacts.
Local Open Scope R_scope.
Local Open Scope string_scope.

Lemma newer_result (l : list NormalizedLandmark) (label : string)
  (m : SignMetrics) :
  ClassifySignNewer.classifySign l = Some (label, m) ->
  (21 <= List.length l)%nat /\ m = GeometryNewer.metricsOf l /\
  label = GeometryNewer.labelOf l m.
Proof.
  intros H.
  destruct (Nat.lt_ge_cases (List.length l) 21) as [Hs | Hs].
  - rewrite newer_classifySign_short in H by exact Hs. discriminate.
  - rewrite newer_classifySign_defined in H by exact Hs.
    injection H as <- <-. auto.
Qed.

(** X26. The newer [classifySign] fails exactly on the poses of fewer than
    21 landmarks. The label it returns is one of rock, paper, scissors,
    lizard, spock and unknown; in its bundle [thumbOut] is the hard test
    (distance above 0.33), which implies the soft one (above 0.31), and the
    soft test and [thumbAlong] (below 0.28) are never both true. *)
Theorem newer_total_and_closed (l : list NormalizedLandmark) :
  (ClassifySignNewer.classifySign l = None <-> (List.length l < 21)%nat) /\
  (forall label m,
     ClassifySignNewer.classifySign l = Some (label, m) ->
     In label labels /\
     (thumbOut m = true <-> 0.33 < thumbToIndexMCP m) /\
     (ClassifySignNewer.thumbOutSoft m = true <-> 0.31 < thumbToIndexMCP m) /\
     (thumbOut m = true -> ClassifySignNewer.thumbOutSoft m = true) /\
     ~ (ClassifySignNewer.thumbOutSoft m = true /\ thumbAlong m = true)).
Proof.
  split.
  - split; [ | apply newer_classifySign_short ].
    intros Hnone.
    destruct (Nat.lt_ge_cases (List.length l) 21) as [H | H]; [ exact H | ].
    rewrite newer_classifySign_defined in Hnone by exact H. discriminate.
  - intros label m H.
    destruct (newer_inv _ H) as [He _].
    apply newer_extract_fields in He as (Ho & Ha & _).
    apply newer_result in H as (_ & _ & ->).
    unfold ClassifySignNewer.thumbOutSoft, ClassifySignNewer.THUMB_OUT_SOFT.
    rewrite Ho, Ha.
    unfold ClassifySignNewer.THUMB_OUT_HARD, ClassifySignNewer.THUMB_ALONG.
    split; [ apply newer_labelOf_closed | ].
    split; [ apply gtb_true | ].
    split; [ apply gtb_true | ].
    split.
    + intros E. apply gtb_true in E. apply gtb_true. lra.
    + intros [E1 E2]. apply gtb_true in E1. apply ltb_true in E2. lra.
Qed.

Lemma newer_total_and_closed_witness :
  exists label m,
    ClassifySignNewer.classifySign poseDuck = Some (label, m) /\
    In label labels.
Proof.
  exists (GeometryNewer.labelOf poseDuck (GeometryNewer.metricsOf poseDuck)),
    (GeometryNewer.metricsOf poseDuck).
  assert (H : ClassifySignNewer.classifySign poseDuck =
    Some (GeometryNewer.labelOf poseDuck (GeometryNewer.metricsOf poseDuck),
          GeometryNewer.metricsOf poseDuck))
    by (apply newer_classifySign_defined; cbn; lia).
  split; [ exact H | ].
  exact (proj1 (proj2 (newer_total_and_closed poseDuck) _ _ H)).
Defined.

(** X27. On every pose the two copies of [classifySign] fail together, and
    the bundles they return agree in every field but [thumbOut], which is
    the test against 0.34 in the older copy and against 0.33 in the newer:
    the older flag implies the newer one. *)
Theorem copies_share_bundle (l : list NormalizedLandmark) :
  (classifySign l = None <-> ClassifySignNewer.classifySign l = None) /\
  (forall label m label' m',
     classifySign l = Some (label, m) ->
     ClassifySignNewer.classifySign l = Some (label', m') ->
     gapIM m' = gapIM m /\ gapMR m' = gapMR m /\ gapRP m' = gapRP m /\
     spockRatio m' = spockRatio m /\ cv m' = cv m /\
     thumbToIndexMCP m' = thumbToIndexMCP m /\
     thumbAlong m' = thumbAlong m /\
     indexExt m' = indexExt m /\ middleExt m' = middleExt m /\
     ringExt m' = ringExt m /\ pinkyExt m' = pinkyExt m /\
     extendedCount m' = extendedCount m /\ cosIM m' = cosIM m /\
     thumbOut m = gtb (thumbToIndexMCP m) 0.34 /\
     thumbOut m' = gtb (thumbToIndexMCP m) 0.33 /\
     (thumbOut m = true -> thumbOut m' = true)).
Proof.
  split.
  - destruct (Nat.lt_ge_cases (List.length l) 21) as [H | H].
    + rewrite classifySign_short, newer_classifySign_short by exact H.
      tauto.
    + rewrite classifySign_defined, newer_classifySign_defined by exact H.
      split; intros E; discriminate E.
  - intros label m label' m' Ho Hn.
    apply classifySign_result in Ho as (_ & -> & _).
    apply newer_result in Hn as (_ & -> & _).
    unfold metricsOf, GeometryNewer.metricsOf.
    cbn [gapIM gapMR gapRP spockRatio cv thumbToIndexMCP thumbAlong thumbOut
         indexExt middleExt ringExt pinkyExt extendedCount cosIM].
    unfold ClassifySignNewer.THUMB_OUT_HARD, ClassifySignNewer.THUMB_ALONG.
    rewrite (Rmax_comm 1e-6).
    repeat split.
    intros E. apply gtb_true in E. apply gtb_true. lra.
Qed.

Lemma copies_share_bundle_witness :
  exists label m label' m',
    classifySign poseDuck = Some (label, m) /\
    ClassifySignNewer.classifySign poseDuck = Some (label', m') /\
    cosIM m' = cosIM m.
Proof.
  assert (Ho := @classified poseDuck eq_refl).
  assert (Hn : ClassifySignNewer.classifySign poseDuck =
    Some (GeometryNewer.labelOf poseDuck (GeometryNewer.metricsOf poseDuck),
          GeometryNewer.metricsOf poseDuck))
    by (apply newer_classifySign_defined; cbn; lia).
  do 4 eexists. split; [ exact Ho | split; [ exact Hn | ] ].
  exact (proj1 (proj2 (proj2 (proj2 (proj2 (proj2 (proj2 (proj2 (proj2
    (proj2 (proj2 (proj2 (proj2
      (proj2 (copies_share_bundle poseDuck) _ _ _ _ Ho Hn)))))))))))))).
Defined.

Ltac newer_thresholds :=
  unfold ClassifySignNewer.T.scissorsIMMaxGap,
    ClassifySignNewer.T.scissorsCosMin, ClassifySignNewer.T.paperCV,
    ClassifySignNewer.T.spockRatio, ClassifySignNewer.T.spockGapMR,
    ClassifySignNewer.T.pairTight, ClassifySignNewer.THUMB_OUT_HARD,
    ClassifySignNewer.THUMB_OUT_SOFT, ClassifySignNewer.THUMB_ALONG in *.

(** The label of the newer copy, with the flags written as comparisons of
    the numbers of the bundle. *)
Lemma newer_label_cases (l : list NormalizedLandmark) (label : string)
  (m : SignMetrics) :
  ClassifySignNewer.classifySign l = Some (label, m) ->
  exists sc, ClassifySignNewer.ruleScissors l m = Some sc /\
    (sc = true -> extendedCount m = 2%nat) /\
    (label = "scissors" <-> sc = true) /\
    (label = "rock" <->
     sc = false /\ (extendedCount m <= 1)%nat /\
     thumbToIndexMCP m <= 0.31) /\
    (label = "lizard" <->
     sc = false /\ (extendedCount m <= 2)%nat /\
     0.31 < thumbToIndexMCP m).
Proof.
  intros H. destruct (newer_inv _ H) as [He Hd].
  apply newer_extract_fields in He as (Ho & Ha & Hc).
  unfold ClassifySignNewer.decide in Hd.
  destruct (ClassifySignNewer.ruleScissors l m) as [sc | ] eqn:Hs;
    [ | discriminate Hd ].
  cbn [bind] in Hd. exists sc. split; [ reflexivity | ].
  assert (Hsc : sc = true -> extendedCount m = 2%nat).
  { intros ->. unfold ClassifySignNewer.ruleScissors in Hs.
    rewrite Hc.
    destruct (indexExt m), (middleExt m), (ringExt m), (pinkyExt m);
      cbn in Hs; try discriminate Hs; reflexivity. }
  split; [ exact Hsc | ].
  destruct sc.
  - specialize (Hsc eq_refl). injection Hd as <-.
    repeat split; try discriminate; try tauto;
      intros (E & _); discriminate E.
  - clear Hsc.
    unfold ClassifySignNewer.ruleSpock, ClassifySignNewer.ruleSpockSoft,
      ClassifySignNewer.rulePaper, ClassifySignNewer.rulePaperLoose,
      ClassifySignNewer.ruleRock, ClassifySignNewer.ruleLizard,
      ClassifySignNewer.tieSpock, ClassifySignNewer.tieLizard,
      ClassifySignNewer.thumbOutSoft in Hd.
    rewrite Ho, Ha, Hc in Hd. rewrite Hc. newer_thresholds.
    destruct (indexExt m), (middleExt m), (ringExt m), (pinkyExt m);
      cbn [Number Nat.add Nat.eqb Nat.leb andb orb negb] in Hd |- *;
      revert Hd; by_cases; intros Hd; injection Hd as <-;
      to_props; split_false; to_props;
      (split; [ split; intros E; discriminate E | ]);
      (split;
       (split;
        [ intros E; try discriminate E; repeat split; try lia; try lra
        | intros (_ & E1 & E2); try reflexivity; exfalso;
          try lia; try lra ])).
Qed.

(** X28. In the newer copy the label is rock exactly when at most one
    finger is extended and the normalized thumb distance is at most 0.31,
    the soft bound. *)
Theorem newer_rock_iff (l : list NormalizedLandmark) (label : string)
  (m : SignMetrics) :
  ClassifySignNewer.classifySign l = Some (label, m) ->
  (label = "rock" <->
   (extendedCount m <= 1)%nat /\ thumbToIndexMCP m <= 0.31).
Proof.
  intros H.
  destruct (newer_label_cases _ H) as (sc & _ & Hsc & _ & Hrock & _).
  rewrite Hrock. split.
  - intros (_ & Hc & Ht). now split.
  - intros (Hc & Ht). split; [ | now split ].
    destruct sc; [ | reflexivity ].
    specialize (Hsc eq_refl). lia.
Qed.

(** X29. In the newer copy the label is lizard exactly when the scissors
    rule does not match, at most two fingers are extended and the normalized
    thumb distance exceeds 0.31, the soft bound. *)
Theorem newer_lizard_iff (l : list NormalizedLandmark) (label : string)
  (m : SignMetrics) :
  ClassifySignNewer.classifySign l = Some (label, m) ->
  (label = "lizard" <->
   ClassifySignNewer.ruleScissors l m = Some false /\
   (extendedCount m <= 2)%nat /\ 0.31 < thumbToIndexMCP m).
Proof.
  intros H.
  destruct (newer_label_cases _ H) as (sc & Hs & _ & _ & _ & Hliz).
  rewrite Hliz, Hs. split.
  - intros (-> & Hc & Ht). auto.
  - intros (E & Hc & Ht). injection E as ->. auto.
Qed.

Ltac newer_hand_values :=
  unfold GeometryNewer.metricsOf;
  cbn [gapIM gapMR gapRP thumbToIndexMCP spockRatio cv cosIM extendedCount
       indexExt middleExt ringExt pinkyExt thumbOut thumbAlong];
  rewrite ?hand_margin_index, ?hand_margin_middle, ?hand_margin_ring,
    ?hand_margin_pinky, ?hand_thumb, ?hand_gapIM, ?hand_gapMR, ?hand_gapRP
    by lra;
  absolute_values.

Lemma newer_classified (l : list NormalizedLandmark) :
  List.length l = 21%nat ->
  ClassifySignNewer.classifySign l =
  Some (GeometryNewer.labelOf l (GeometryNewer.metricsOf l),
        GeometryNewer.metricsOf l).
Proof. intros H. apply newer_classifySign_defined. lia. Qed.

Lemma newer_rock_iff_witness :
  ClassifySignNewer.classifySign Poses.poseFist =
    Some (GeometryNewer.labelOf Poses.poseFist
            (GeometryNewer.metricsOf Poses.poseFist),
          GeometryNewer.metricsOf Poses.poseFist) /\
  GeometryNewer.labelOf Poses.poseFist
    (GeometryNewer.metricsOf Poses.poseFist) = "rock".
Proof.
  assert (H := @newer_classified Poses.poseFist eq_refl).
  split; [ exact H | ].
  apply (proj2 (@newer_rock_iff _ _ _ H)).
  unfold Poses.poseFist. newer_hand_values. evaluate_flags.
  cbn [Number Nat.add].
  split; [ lia | lra ].
Defined.

Lemma newer_lizard_iff_witness :
  ClassifySignNewer.classifySign poseSoftThumb =
    Some (GeometryNewer.labelOf poseSoftThumb
            (GeometryNewer.metricsOf poseSoftThumb),
          GeometryNewer.metricsOf poseSoftThumb) /\
  GeometryNewer.labelOf poseSoftThumb
    (GeometryNewer.metricsOf poseSoftThumb) = "lizard".
Proof.
  assert (H := @newer_classified poseSoftThumb eq_refl).
  split; [ exact H | ].
  apply (proj2 (@newer_lizard_iff _ _ _ H)).
  destruct poseSoftThumb_newer_flags as (Hi & Hm & Hr & Hp & Hd & Ho).
  split; [ | split ].
  - unfold ClassifySignNewer.ruleScissors. now rewrite Hi, Hm.
  - unfold poseSoftThumb. newer_hand_values. evaluate_flags.
    cbn [Number Nat.add]. lia.
  - rewrite Hd. lra.
Defined.

End NewerMore.
